(** * AudioMixerBase

    A shallow embedding of [media/libaudioprocessing/AudioMixerBase.cpp] and
    [include/media/AudioMixerBase.h]: the track registry, the control plane
    ([create], [enable], [setParameter], ...), the dual integer/float volume
    ramp, the hook selection of [process__validate] and the process hooks.

    Conventions.
    - A C++ [float] is an IEEE-754 binary32 number, represented by the
      standard library's [spec_float] at precision 24 and maximal exponent
      128.  [int32_t], [int16_t], ... are [Z] with the wrap-around written
      out.
    - A function that can hit [LOG_ALWAYS_FATAL] (or dereference a null
      pointer) returns an [option]; [None] is the abort.
    - [std::map<int, shared_ptr<TrackBase>>] is a [gmap Z TrackBase] that is
      traversed in increasing key order. *)

From Stdlib Require Import ZArith Lia List Bool SpecFloat.
From stdpp Require Import gmap list sorting.

#[local] Open Scope Z_scope.

(** ** Machine integers *)

Definition wrap_signed (bits z : Z) : Z :=
  (z + 2 ^ (bits - 1)) mod 2 ^ bits - 2 ^ (bits - 1).

Definition int32 (z : Z) : Z := wrap_signed 32 z.
Definition int16 (z : Z) : Z := wrap_signed 16 z.
Definition uint32 (z : Z) : Z := z mod 2 ^ 32.
Definition uint16 (z : Z) : Z := z mod 2 ^ 16.
Definition uint8 (z : Z) : Z := z mod 2 ^ 8.

(** ** binary32 *)

Module F32.

Definition float : Type := spec_float.

Definition prec : Z := 24.
Definition emax : Z := 128.

Definition add : float -> float -> float := SFadd prec emax.
Definition sub : float -> float -> float := SFsub prec emax.
Definition mul : float -> float -> float := SFmul prec emax.
Definition div : float -> float -> float := SFdiv prec emax.
Definition eqb : float -> float -> bool := SFeqb.
Definition ltb : float -> float -> bool := SFltb.
Definition leb : float -> float -> bool := SFleb.

(** Conversion of an integer to [float] (round to nearest even). *)
Definition of_int (z : Z) : float := binary_normalize prec emax z 0 false.

(** [x * 2^e] for an integer [x], rounded to [float]. *)
Definition of_scaled (x e : Z) : float := binary_normalize prec emax x e false.

Definition zero : float := S754_zero false.
Definition one : float := S754_finite false 8388608 (-23).

(** Conversion of a [float] to an integer type: truncation toward zero. *)
Definition trunc (x : float) : Z :=
  match x with
  | S754_finite s m e => cond_Zopp s (Z.shiftl (Zpos m) e)
  | _ => 0
  end.

Inductive fp_class := FP_NAN | FP_INFINITE | FP_ZERO | FP_SUBNORMAL | FP_NORMAL.

Definition fpclassify (x : float) : fp_class :=
  match SFclassify prec x with
  | FloatClass.NaN => FP_NAN
  | FloatClass.PInf | FloatClass.NInf => FP_INFINITE
  | FloatClass.PZero | FloatClass.NZero => FP_ZERO
  | FloatClass.PSubn | FloatClass.NSubn => FP_SUBNORMAL
  | FloatClass.PNormal | FloatClass.NNormal => FP_NORMAL
  end.

Definition isnormal (x : float) : bool :=
  match fpclassify x with FP_NORMAL => true | _ => false end.

(** [std::max(a, b)] is [(a < b) ? b : a]. *)
Definition max (a b : float) : float := if ltb a b then b else a.

(** The number is a well-formed binary32 datum. *)
Definition valid (x : float) : bool := valid_binary prec emax x.

End F32.

Abbreviation float := F32.float.

(** ** Constants of the class *)

Definition FCC_2 : Z := 2.
Definition MAX_NUM_VOLUMES : Z := FCC_2.
Definition UNITY_GAIN_INT : Z := 0x1000.
Definition UNITY_GAIN_FLOAT : float := F32.one.
Definition BLOCKSIZE : Z := 16.
Definition kUseNewMixer : bool := true.
Definition kUseFloat : bool := true.

(** setParameter targets and names. *)
Definition TRACK : Z := 0x3000.
Definition RESAMPLE : Z := 0x3001.
Definition RAMP_VOLUME : Z := 0x3002.
Definition VOLUME : Z := 0x3003.
Definition TIMESTRETCH : Z := 0x3004.
Definition CHANNEL_MASK : Z := 0x4000.
Definition FORMAT : Z := 0x4001.
Definition MAIN_BUFFER : Z := 0x4002.
Definition AUX_BUFFER : Z := 0x4003.
Definition MIXER_FORMAT : Z := 0x4005.
Definition MIXER_CHANNEL_MASK : Z := 0x4006.
Definition TEE_BUFFER : Z := 0x400A.
Definition TEE_BUFFER_FORMAT : Z := 0x400B.
Definition TEE_BUFFER_FRAME_COUNT : Z := 0x400C.
Definition SAMPLE_RATE : Z := 0x4100.
Definition RESET : Z := 0x4101.
Definition REMOVE : Z := 0x4102.
Definition VOLUME0 : Z := 0x4200.
Definition VOLUME1 : Z := 0x4201.
Definition AUXLEVEL : Z := 0x4210.

Definition NEEDS_CHANNEL_COUNT__MASK : Z := 0x00000007.
Definition NEEDS_CHANNEL_1 : Z := 0x00000000.
Definition NEEDS_CHANNEL_2 : Z := 0x00000001.
Definition NEEDS_MUTE : Z := 0x00000100.
Definition NEEDS_RESAMPLE : Z := 0x00001000.
Definition NEEDS_AUX : Z := 0x00010000.

(** ** The volume variables of one gain

    [setVolumeRampVariables] receives six pointers: the integer and the float
    triple (set, previous, increment) of one gain.  The track keeps such a
    sextuple for [volume[0]], for [volume[1]] and for the aux level; the
    record is that sextuple, and [volume t i], [prevVolume t i], ... below
    read it through the source's field names. *)

Record VolumeVars := mkVolumeVars {
  IntSetVolume : Z;     (* int16_t, U4.12 *)
  IntPrevVolume : Z;    (* int32_t, U4.28 *)
  IntVolumeInc : Z;     (* int32_t, U4.28 per frame *)
  SetVolume : float;
  PrevVolume : float;
  VolumeInc : float
}.

(** The state written by [create]: every gain is zero. *)
Definition zeroVolumeVars : VolumeVars :=
  mkVolumeVars 0 (0 * 2 ^ 16) 0 F32.zero F32.zero F32.zero.

(** Lines 261-290: the target is brought into [0, 1]. *)
Definition sanitizeVolume (newVolume : float) : float :=
  if F32.ltb newVolume F32.zero then F32.zero
  else
    match F32.fpclassify newVolume with
    | F32.FP_SUBNORMAL | F32.FP_NAN => F32.zero
    | F32.FP_ZERO => newVolume
    | F32.FP_INFINITE => UNITY_GAIN_FLOAT
    | F32.FP_NORMAL =>
        if F32.ltb UNITY_GAIN_FLOAT newVolume then UNITY_GAIN_FLOAT else newVolume
    end.

(** Lines 298-303: the float increment and whether it may be used. *)
Definition floatRampInc (newVolume prev : float) (ramp : Z) : float :=
  F32.div (F32.sub newVolume prev) (F32.of_int ramp).

Definition floatRampAdmissible (newVolume prev : float) (ramp : Z) : bool :=
  let inc := floatRampInc newVolume prev ramp in
  let maxv := F32.max newVolume prev in
  F32.isnormal inc && negb (F32.eqb (F32.add maxv inc) maxv).

(** Lines 319-321: the U4.12 integer volume of a sanitized target. *)
Definition intVolumeOf (newVolume : float) : Z :=
  let scaledVolume := F32.mul newVolume (F32.of_int UNITY_GAIN_INT) in
  if F32.leb (F32.of_int UNITY_GAIN_INT) scaledVolume
  then UNITY_GAIN_INT
  else int32 (F32.trunc scaledVolume).

(** Line 330: the U4.28 increment (C division truncates toward zero). *)
Definition intRampInc (intVolume intPrev ramp : Z) : Z :=
  int32 (Z.quot (int32 (int32 (Z.shiftl intVolume 16) - intPrev)) ramp).

Definition setVolumeRampVariables (newVolume : float) (ramp : Z) (v : VolumeVars)
  : bool * VolumeVars :=
  if F32.eqb newVolume (SetVolume v) then (false, v)
  else
    let newVolume := sanitizeVolume newVolume in
    (* set floating point volume ramp *)
    let '(ramp, pVolumeInc) :=
      if ramp =? 0 then (ramp, VolumeInc v)
      else if floatRampAdmissible newVolume (PrevVolume v) ramp
           then (ramp, floatRampInc newVolume (PrevVolume v) ramp)
           else (0, VolumeInc v) in
    let intVolume := intVolumeOf newVolume in
    (* set integer volume ramp *)
    let '(ramp, pIntVolumeInc) :=
      if ramp =? 0 then (ramp, IntVolumeInc v)
      else
        let inc := intRampInc intVolume (IntPrevVolume v) ramp in
        if inc =? 0 then (0, IntVolumeInc v) else (ramp, inc) in
    (* if no ramp, or ramp not allowed, then clear float and integer increments *)
    if ramp =? 0
    then (true, {| IntSetVolume := int16 intVolume;
                   IntPrevVolume := int32 (Z.shiftl intVolume 16);
                   IntVolumeInc := 0;
                   SetVolume := newVolume;
                   PrevVolume := newVolume;
                   VolumeInc := F32.zero |})
    else (true, {| IntSetVolume := int16 intVolume;
                   IntPrevVolume := IntPrevVolume v;
                   IntVolumeInc := pIntVolumeInc;
                   SetVolume := newVolume;
                   PrevVolume := PrevVolume v;
                   VolumeInc := pVolumeInc |}).

(** Modelled from the spec: [u4_28_from_float] and [float_from_u4_28] are the
    "format and fixed-point primitives" of section 4.1 (audio_utils, not part
    of the sources): the conversions between a float gain and its U4.28
    fixed-point value (28 fractional bits).  [u4_28_from_float] clamps to the
    unsigned 32-bit range and rounds [f * 2^28 + 0.5] down, the sum being
    computed in double precision; [float_from_u4_28] is [uval * 2^-28]. *)
Definition u4_28_from_float (f : float) : Z :=
  let scale := F32.of_scaled 1 28 in
  let limpos := F32.div (F32.of_int 0xffffffff) scale in
  if F32.leb f F32.zero then 0
  else if F32.leb limpos f then 0xffffffff
  else uint32 (F32.trunc (SFadd 53 1024 (F32.mul f scale)
                                        (binary_normalize 53 1024 1 (-1) false))).

Definition float_from_u4_28 (uval : Z) : float :=
  F32.mul (F32.of_int (uint32 uval)) (F32.of_scaled 1 (-28)).

(** [adjustVolumeRamp], lines 543-568, for one index [i] of the loop. *)
Definition rampDoneFloat (v : VolumeVars) : bool :=
  (F32.ltb F32.zero (VolumeInc v)
     && F32.leb (SetVolume v) (F32.add (PrevVolume v) (VolumeInc v)))
  || (F32.ltb (VolumeInc v) F32.zero
     && F32.leb (F32.add (PrevVolume v) (VolumeInc v)) (SetVolume v)).

Definition rampDoneInt (v : VolumeVars) : bool :=
  ((0 <? IntVolumeInc v)
     && (IntSetVolume v <=? Z.shiftr (int32 (IntPrevVolume v + IntVolumeInc v)) 16))
  || ((IntVolumeInc v <? 0)
     && (Z.shiftr (int32 (IntPrevVolume v + IntVolumeInc v)) 16 <=? IntSetVolume v)).

(** The branch taken when the ramp is over: previous := set, increments := 0. *)
Definition rampSnap (v : VolumeVars) : VolumeVars :=
  {| IntSetVolume := IntSetVolume v;
     IntPrevVolume := int32 (Z.shiftl (IntSetVolume v) 16);
     IntVolumeInc := 0;
     SetVolume := SetVolume v;
     PrevVolume := SetVolume v;
     VolumeInc := F32.zero |}.

Definition setIntPrevVolume (x : Z) (v : VolumeVars) : VolumeVars :=
  {| IntSetVolume := IntSetVolume v; IntPrevVolume := x;
     IntVolumeInc := IntVolumeInc v; SetVolume := SetVolume v;
     PrevVolume := PrevVolume v; VolumeInc := VolumeInc v |}.

Definition setPrevVolume (x : float) (v : VolumeVars) : VolumeVars :=
  {| IntSetVolume := IntSetVolume v; IntPrevVolume := IntPrevVolume v;
     IntVolumeInc := IntVolumeInc v; SetVolume := SetVolume v;
     PrevVolume := x; VolumeInc := VolumeInc v |}.

Definition adjustVolumeRampChannel (useFloat : bool) (v : VolumeVars) : VolumeVars :=
  if useFloat then
    if rampDoneFloat v then rampSnap v
    else setIntPrevVolume (int32 (u4_28_from_float (PrevVolume v))) v
  else
    if rampDoneInt v then rampSnap v
    else setPrevVolume (float_from_u4_28 (IntPrevVolume v)) v.

(** Lines 570-589, with FLOAT_AUX defined: the aux level is only clamped. *)
Definition adjustVolumeRampAux (useFloat : bool) (v : VolumeVars) : VolumeVars :=
  if useFloat then (if rampDoneFloat v then rampSnap v else v)
  else (if rampDoneInt v then rampSnap v else v).

(** ** Audio data, buffers and the collaborators of the mixer *)

(** One element of a PCM or accumulator buffer: an integer sample (int16,
    Q4.27 int32, ...) or a float sample. *)
Inductive sample := SInt (z : Z) | SFloat (f : float).

(** The element written by [memset(p, 0, n)]: all bits zero. *)
Definition zero_bits : sample := SInt 0.

(** All bits of the element are zero (the integer 0, or the float +0.0). *)
Definition is_zero_bits (s : sample) : bool :=
  match s with
  | SInt z => z =? 0
  | SFloat (S754_zero false) => true
  | SFloat _ => false
  end.

(** The buffers shared with the caller (main, aux): [mem p i] is element [i]
    of the buffer that starts at pointer [p].  Distinct pointers are distinct
    buffers. *)
Definition Memory : Type := Z -> Z -> sample.

Definition mem_read (mem : Memory) (p off n : Z) : list sample :=
  (fun i => mem p (off + i)) <$> seqZ 0 n.

Definition mem_write (mem : Memory) (p off : Z) (data : list sample) : Memory :=
  fun q i =>
    if bool_decide (q = p /\ off <= i < off + Z.of_nat (length data))
    then default zero_bits (data !! Z.to_nat (i - off))
    else mem q i.

Definition memset0 (mem : Memory) (p off n : Z) : Memory :=
  mem_write mem p off (replicate (Z.to_nat n) zero_bits).

(** [AudioBufferProvider::Buffer]: [raw] is [None] for a null pointer. *)
Record Buffer := mkBuffer {
  raw : option (list sample);
  buf_frameCount : Z
}.

(** Section 4.3, the buffer provider contract.  A provider is observed
    through the answers it gives to successive [getNextBuffer] calls; when the
    list is used up it has no data (null).  The answer never holds more
    frames than were asked for.  [releaseBuffer] has no effect that the mixer
    can observe. *)
Definition Provider : Type := list Buffer.

Definition getNextBuffer (p : Provider) (requested : Z) : Buffer * Provider :=
  match p with
  | [] => (mkBuffer None 0, [])
  | b :: rest =>
      match raw b with
      | None => (mkBuffer None 0, rest)
      | Some d => (mkBuffer (Some d) (Z.max 0 (Z.min (buf_frameCount b) requested)), rest)
      end
  end.

Inductive src_quality := DEFAULT_QUALITY | DYN_LOW_QUALITY.

(** Section 4.2, the resampler contract: the configuration the mixer sets
    and the input frames the resampler still holds. *)
Record AudioResampler := mkResampler {
  rs_format : Z;
  rs_channelCount : Z;
  rs_devSampleRate : Z;
  rs_quality : src_quality;
  rs_sampleRate : Z;
  rs_volume : float * float;
  rs_unreleased : list sample
}.

Definition AudioResampler_create (fmt channels devRate : Z) (q : src_quality)
  : AudioResampler :=
  mkResampler fmt channels devRate q devRate (UNITY_GAIN_FLOAT, UNITY_GAIN_FLOAT) [].

Definition rs_setSampleRate (r : Z) (s : AudioResampler) : AudioResampler :=
  mkResampler (rs_format s) (rs_channelCount s) (rs_devSampleRate s) (rs_quality s)
              r (rs_volume s) (rs_unreleased s).

Definition rs_setVolume (l r : float) (s : AudioResampler) : AudioResampler :=
  mkResampler (rs_format s) (rs_channelCount s) (rs_devSampleRate s) (rs_quality s)
              (rs_sampleRate s) (l, r) (rs_unreleased s).

Definition rs_reset (s : AudioResampler) : AudioResampler :=
  mkResampler (rs_format s) (rs_channelCount s) (rs_devSampleRate s) (rs_quality s)
              (rs_sampleRate s) (rs_volume s) [].

Definition rs_getUnreleasedFrames (s : AudioResampler) : Z :=
  Z.of_nat (length (rs_unreleased s)).

(** The MIXTYPE_* enumeration and the element types the templates are
    instantiated at. *)
Inductive MIXTYPE :=
| MIXTYPE_MULTI | MIXTYPE_MONOEXPAND | MIXTYPE_MULTI_SAVEONLY
| MIXTYPE_MULTI_MONOVOL | MIXTYPE_MULTI_SAVEONLY_MONOVOL
| MIXTYPE_MULTI_STEREOVOL | MIXTYPE_MULTI_SAVEONLY_STEREOVOL
| MIXTYPE_STEREOEXPAND.

Inductive ctype := T_int16 | T_int32 | T_float.

(** FLOAT_AUX is defined. *)
Definition TYPE_AUX : ctype := T_float.

Definition TRACKTYPE_NOP : Z := 0.
Definition TRACKTYPE_RESAMPLE : Z := 1.
Definition TRACKTYPE_RESAMPLEMONO : Z := 2.
Definition TRACKTYPE_RESAMPLESTEREO : Z := 3.
Definition TRACKTYPE_NORESAMPLE : Z := 4.
Definition TRACKTYPE_NORESAMPLEMONO : Z := 5.
Definition TRACKTYPE_NORESAMPLESTEREO : Z := 6.
Definition PROCESSTYPE_NORESAMPLEONETRACK : Z := 0.

(** [hook_t]: the member function a track hook points to. *)
Inductive hook_t :=
| track__nop
| track__genericResample
| track__16BitsStereo
| track__16BitsMono
| track__Resample (mt : MIXTYPE) (TO TI TA : ctype)
| track__NoResample (mt : MIXTYPE) (TO TI TA : ctype).

(** [process_hook_t]. *)
Inductive process_hook_t :=
| process__validate
| process__nop
| process__genericNoResampling
| process__genericResampling
| process__oneTrack16BitsStereoNoResampling
| process__noResampleOneTrack (mt : MIXTYPE) (TO TI TA : ctype).

(** Modelled from the spec: the audio HAL declarations of section 6
    (system/audio.h is not part of the sources): the five linear PCM formats
    with their sample sizes, position masks with mono and stereo, and the
    channel count of a mask, which is the number of bits set for a position
    or index mask.  FCC_LIMIT is the "typically 8" of section 1. *)
Definition AUDIO_FORMAT_PCM_16_BIT : Z := 0x1.
Definition AUDIO_FORMAT_PCM_8_BIT : Z := 0x2.
Definition AUDIO_FORMAT_PCM_32_BIT : Z := 0x3.
Definition AUDIO_FORMAT_PCM_FLOAT : Z := 0x5.
Definition AUDIO_FORMAT_PCM_24_BIT_PACKED : Z := 0x6.
Definition AUDIO_CHANNEL_OUT_MONO : Z := 0x1.
Definition AUDIO_CHANNEL_OUT_STEREO : Z := 0x3.
Definition AUDIO_CHANNEL_REPRESENTATION_POSITION : Z := 0.
Definition AUDIO_CHANNEL_REPRESENTATION_INDEX : Z := 2.
Definition FCC_LIMIT : Z := 8.
Definition MAX_NUM_CHANNELS : Z := FCC_LIMIT.

Definition audio_channel_mask_get_representation (mask : Z) : Z :=
  Z.land (Z.shiftr (uint32 mask) 30) 3.

Definition audio_channel_mask_get_bits (mask : Z) : Z :=
  Z.land (uint32 mask) (2 ^ 30 - 1).

Fixpoint popcount_pos (p : positive) : Z :=
  match p with
  | xH => 1
  | xO q => popcount_pos q
  | xI q => 1 + popcount_pos q
  end.

Definition popcount (z : Z) : Z :=
  match z with Zpos p => popcount_pos p | _ => 0 end.

Definition audio_channel_count_from_out_mask (mask : Z) : Z :=
  let r := audio_channel_mask_get_representation mask in
  if (r =? AUDIO_CHANNEL_REPRESENTATION_POSITION) || (r =? AUDIO_CHANNEL_REPRESENTATION_INDEX)
  then popcount (audio_channel_mask_get_bits mask)
  else 0.

Definition audio_bytes_per_sample (format : Z) : Z :=
  if format =? AUDIO_FORMAT_PCM_16_BIT then 2
  else if format =? AUDIO_FORMAT_PCM_8_BIT then 1
  else if format =? AUDIO_FORMAT_PCM_32_BIT then 4
  else if format =? AUDIO_FORMAT_PCM_FLOAT then 4
  else if format =? AUDIO_FORMAT_PCM_24_BIT_PACKED then 3
  else 0.

Definition audio_bytes_per_frame (channels format : Z) : Z :=
  channels * audio_bytes_per_sample format.

Definition isMusicRate (rate : Z) : bool :=
  bool_decide (rate ∈ [8000; 11025; 12000; 16000; 22050; 24000; 32000; 44100; 48000]).

(** ** TrackBase *)

Record TrackBase := mkTrack {
  needs : Z;
  vol0 : VolumeVars;            (* volume[0], prevVolume[0], ..., mVolumeInc[0] *)
  vol1 : VolumeVars;            (* volume[1], prevVolume[1], ..., mVolumeInc[1] *)
  auxv : VolumeVars;            (* auxLevel, prevAuxLevel, auxInc, mAuxLevel, ... *)
  frameCount : Z;               (* uint16_t *)
  channelCount : Z;             (* uint8_t *)
  enabled : bool;
  channelMask : Z;
  bufferProvider : option Provider;
  buffer : Buffer;
  hook : option hook_t;
  mIn : option (list sample);   (* current location in buffer *)
  mResampler : option AudioResampler;
  sampleRate : Z;
  mainBuffer : Z;
  auxBuffer : Z;
  teeBuffer : Z;
  sessionId : Z;
  mMixerFormat : Z;
  mFormat : Z;
  mMixerInFormat : Z;
  mMixerChannelMask : Z;
  mMixerChannelCount : Z;
  mTeeBufferFrameCount : Z;
  mInputFrameSize : Z
}.

(** The arrays of the source, read through the index. *)
Definition volumeVars (t : TrackBase) (i : Z) : VolumeVars :=
  if i =? 0 then vol0 t else vol1 t.
Definition volume (t : TrackBase) (i : Z) : Z := IntSetVolume (volumeVars t i).
Definition prevVolume (t : TrackBase) (i : Z) : Z := IntPrevVolume (volumeVars t i).
Definition volumeInc (t : TrackBase) (i : Z) : Z := IntVolumeInc (volumeVars t i).
Definition mVolume (t : TrackBase) (i : Z) : float := SetVolume (volumeVars t i).
Definition mPrevVolume (t : TrackBase) (i : Z) : float := PrevVolume (volumeVars t i).
Definition mVolumeInc (t : TrackBase) (i : Z) : float := VolumeInc (volumeVars t i).
Definition auxLevel (t : TrackBase) : Z := IntSetVolume (auxv t).
Definition prevAuxLevel (t : TrackBase) : Z := IntPrevVolume (auxv t).
Definition auxInc (t : TrackBase) : Z := IntVolumeInc (auxv t).
Definition mAuxLevel (t : TrackBase) : float := SetVolume (auxv t).
Definition mPrevAuxLevel (t : TrackBase) : float := PrevVolume (auxv t).
Definition mAuxInc (t : TrackBase) : float := VolumeInc (auxv t).

(** Field assignments. *)
Definition set_needs (x : Z) (t : TrackBase) : TrackBase :=
  let 'mkTrack _ a1 a2 a3 a4 a5 a6 a7 a8 a9 a10 a11 a12 a13 a14 a15 a16 a17 a18 a19 a20 a21 a22 a23 a24 := t in
  mkTrack x a1 a2 a3 a4 a5 a6 a7 a8 a9 a10 a11 a12 a13 a14 a15 a16 a17 a18 a19 a20 a21 a22 a23 a24.
Definition set_vol0 (x : VolumeVars) (t : TrackBase) : TrackBase :=
  let 'mkTrack a0 _ a2 a3 a4 a5 a6 a7 a8 a9 a10 a11 a12 a13 a14 a15 a16 a17 a18 a19 a20 a21 a22 a23 a24 := t in
  mkTrack a0 x a2 a3 a4 a5 a6 a7 a8 a9 a10 a11 a12 a13 a14 a15 a16 a17 a18 a19 a20 a21 a22 a23 a24.
Definition set_vol1 (x : VolumeVars) (t : TrackBase) : TrackBase :=
  let 'mkTrack a0 a1 _ a3 a4 a5 a6 a7 a8 a9 a10 a11 a12 a13 a14 a15 a16 a17 a18 a19 a20 a21 a22 a23 a24 := t in
  mkTrack a0 a1 x a3 a4 a5 a6 a7 a8 a9 a10 a11 a12 a13 a14 a15 a16 a17 a18 a19 a20 a21 a22 a23 a24.
Definition set_auxv (x : VolumeVars) (t : TrackBase) : TrackBase :=
  let 'mkTrack a0 a1 a2 _ a4 a5 a6 a7 a8 a9 a10 a11 a12 a13 a14 a15 a16 a17 a18 a19 a20 a21 a22 a23 a24 := t in
  mkTrack a0 a1 a2 x a4 a5 a6 a7 a8 a9 a10 a11 a12 a13 a14 a15 a16 a17 a18 a19 a20 a21 a22 a23 a24.
Definition set_frameCount (x : Z) (t : TrackBase) : TrackBase :=
  let 'mkTrack a0 a1 a2 a3 _ a5 a6 a7 a8 a9 a10 a11 a12 a13 a14 a15 a16 a17 a18 a19 a20 a21 a22 a23 a24 := t in
  mkTrack a0 a1 a2 a3 x a5 a6 a7 a8 a9 a10 a11 a12 a13 a14 a15 a16 a17 a18 a19 a20 a21 a22 a23 a24.
Definition set_channelCount (x : Z) (t : TrackBase) : TrackBase :=
  let 'mkTrack a0 a1 a2 a3 a4 _ a6 a7 a8 a9 a10 a11 a12 a13 a14 a15 a16 a17 a18 a19 a20 a21 a22 a23 a24 := t in
  mkTrack a0 a1 a2 a3 a4 x a6 a7 a8 a9 a10 a11 a12 a13 a14 a15 a16 a17 a18 a19 a20 a21 a22 a23 a24.
Definition set_enabled (x : bool) (t : TrackBase) : TrackBase :=
  let 'mkTrack a0 a1 a2 a3 a4 a5 _ a7 a8 a9 a10 a11 a12 a13 a14 a15 a16 a17 a18 a19 a20 a21 a22 a23 a24 := t in
  mkTrack a0 a1 a2 a3 a4 a5 x a7 a8 a9 a10 a11 a12 a13 a14 a15 a16 a17 a18 a19 a20 a21 a22 a23 a24.
Definition set_channelMask (x : Z) (t : TrackBase) : TrackBase :=
  let 'mkTrack a0 a1 a2 a3 a4 a5 a6 _ a8 a9 a10 a11 a12 a13 a14 a15 a16 a17 a18 a19 a20 a21 a22 a23 a24 := t in
  mkTrack a0 a1 a2 a3 a4 a5 a6 x a8 a9 a10 a11 a12 a13 a14 a15 a16 a17 a18 a19 a20 a21 a22 a23 a24.
Definition set_bufferProvider (x : option Provider) (t : TrackBase) : TrackBase :=
  let 'mkTrack a0 a1 a2 a3 a4 a5 a6 a7 _ a9 a10 a11 a12 a13 a14 a15 a16 a17 a18 a19 a20 a21 a22 a23 a24 := t in
  mkTrack a0 a1 a2 a3 a4 a5 a6 a7 x a9 a10 a11 a12 a13 a14 a15 a16 a17 a18 a19 a20 a21 a22 a23 a24.
Definition set_buffer (x : Buffer) (t : TrackBase) : TrackBase :=
  let 'mkTrack a0 a1 a2 a3 a4 a5 a6 a7 a8 _ a10 a11 a12 a13 a14 a15 a16 a17 a18 a19 a20 a21 a22 a23 a24 := t in
  mkTrack a0 a1 a2 a3 a4 a5 a6 a7 a8 x a10 a11 a12 a13 a14 a15 a16 a17 a18 a19 a20 a21 a22 a23 a24.
Definition set_hook (x : option hook_t) (t : TrackBase) : TrackBase :=
  let 'mkTrack a0 a1 a2 a3 a4 a5 a6 a7 a8 a9 _ a11 a12 a13 a14 a15 a16 a17 a18 a19 a20 a21 a22 a23 a24 := t in
  mkTrack a0 a1 a2 a3 a4 a5 a6 a7 a8 a9 x a11 a12 a13 a14 a15 a16 a17 a18 a19 a20 a21 a22 a23 a24.
Definition set_mIn (x : option (list sample)) (t : TrackBase) : TrackBase :=
  let 'mkTrack a0 a1 a2 a3 a4 a5 a6 a7 a8 a9 a10 _ a12 a13 a14 a15 a16 a17 a18 a19 a20 a21 a22 a23 a24 := t in
  mkTrack a0 a1 a2 a3 a4 a5 a6 a7 a8 a9 a10 x a12 a13 a14 a15 a16 a17 a18 a19 a20 a21 a22 a23 a24.
Definition set_mResampler (x : option AudioResampler) (t : TrackBase) : TrackBase :=
  let 'mkTrack a0 a1 a2 a3 a4 a5 a6 a7 a8 a9 a10 a11 _ a13 a14 a15 a16 a17 a18 a19 a20 a21 a22 a23 a24 := t in
  mkTrack a0 a1 a2 a3 a4 a5 a6 a7 a8 a9 a10 a11 x a13 a14 a15 a16 a17 a18 a19 a20 a21 a22 a23 a24.
Definition set_sampleRate (x : Z) (t : TrackBase) : TrackBase :=
  let 'mkTrack a0 a1 a2 a3 a4 a5 a6 a7 a8 a9 a10 a11 a12 _ a14 a15 a16 a17 a18 a19 a20 a21 a22 a23 a24 := t in
  mkTrack a0 a1 a2 a3 a4 a5 a6 a7 a8 a9 a10 a11 a12 x a14 a15 a16 a17 a18 a19 a20 a21 a22 a23 a24.
Definition set_mainBuffer (x : Z) (t : TrackBase) : TrackBase :=
  let 'mkTrack a0 a1 a2 a3 a4 a5 a6 a7 a8 a9 a10 a11 a12 a13 _ a15 a16 a17 a18 a19 a20 a21 a22 a23 a24 := t in
  mkTrack a0 a1 a2 a3 a4 a5 a6 a7 a8 a9 a10 a11 a12 a13 x a15 a16 a17 a18 a19 a20 a21 a22 a23 a24.
Definition set_auxBuffer (x : Z) (t : TrackBase) : TrackBase :=
  let 'mkTrack a0 a1 a2 a3 a4 a5 a6 a7 a8 a9 a10 a11 a12 a13 a14 _ a16 a17 a18 a19 a20 a21 a22 a23 a24 := t in
  mkTrack a0 a1 a2 a3 a4 a5 a6 a7 a8 a9 a10 a11 a12 a13 a14 x a16 a17 a18 a19 a20 a21 a22 a23 a24.
Definition set_teeBuffer (x : Z) (t : TrackBase) : TrackBase :=
  let 'mkTrack a0 a1 a2 a3 a4 a5 a6 a7 a8 a9 a10 a11 a12 a13 a14 a15 _ a17 a18 a19 a20 a21 a22 a23 a24 := t in
  mkTrack a0 a1 a2 a3 a4 a5 a6 a7 a8 a9 a10 a11 a12 a13 a14 a15 x a17 a18 a19 a20 a21 a22 a23 a24.
Definition set_mMixerFormat (x : Z) (t : TrackBase) : TrackBase :=
  let 'mkTrack a0 a1 a2 a3 a4 a5 a6 a7 a8 a9 a10 a11 a12 a13 a14 a15 a16 a17 _ a19 a20 a21 a22 a23 a24 := t in
  mkTrack a0 a1 a2 a3 a4 a5 a6 a7 a8 a9 a10 a11 a12 a13 a14 a15 a16 a17 x a19 a20 a21 a22 a23 a24.
Definition set_mFormat (x : Z) (t : TrackBase) : TrackBase :=
  let 'mkTrack a0 a1 a2 a3 a4 a5 a6 a7 a8 a9 a10 a11 a12 a13 a14 a15 a16 a17 a18 _ a20 a21 a22 a23 a24 := t in
  mkTrack a0 a1 a2 a3 a4 a5 a6 a7 a8 a9 a10 a11 a12 a13 a14 a15 a16 a17 a18 x a20 a21 a22 a23 a24.
Definition set_mMixerChannelMask (x : Z) (t : TrackBase) : TrackBase :=
  let 'mkTrack a0 a1 a2 a3 a4 a5 a6 a7 a8 a9 a10 a11 a12 a13 a14 a15 a16 a17 a18 a19 a20 _ a22 a23 a24 := t in
  mkTrack a0 a1 a2 a3 a4 a5 a6 a7 a8 a9 a10 a11 a12 a13 a14 a15 a16 a17 a18 a19 a20 x a22 a23 a24.
Definition set_mMixerChannelCount (x : Z) (t : TrackBase) : TrackBase :=
  let 'mkTrack a0 a1 a2 a3 a4 a5 a6 a7 a8 a9 a10 a11 a12 a13 a14 a15 a16 a17 a18 a19 a20 a21 _ a23 a24 := t in
  mkTrack a0 a1 a2 a3 a4 a5 a6 a7 a8 a9 a10 a11 a12 a13 a14 a15 a16 a17 a18 a19 a20 a21 x a23 a24.
Definition set_mTeeBufferFrameCount (x : Z) (t : TrackBase) : TrackBase :=
  let 'mkTrack a0 a1 a2 a3 a4 a5 a6 a7 a8 a9 a10 a11 a12 a13 a14 a15 a16 a17 a18 a19 a20 a21 a22 _ a24 := t in
  mkTrack a0 a1 a2 a3 a4 a5 a6 a7 a8 a9 a10 a11 a12 a13 a14 a15 a16 a17 a18 a19 a20 a21 a22 x a24.
Definition set_mInputFrameSize (x : Z) (t : TrackBase) : TrackBase :=
  let 'mkTrack a0 a1 a2 a3 a4 a5 a6 a7 a8 a9 a10 a11 a12 a13 a14 a15 a16 a17 a18 a19 a20 a21 a22 a23 _ := t in
  mkTrack a0 a1 a2 a3 a4 a5 a6 a7 a8 a9 a10 a11 a12 a13 a14 a15 a16 a17 a18 a19 a20 a21 a22 a23 x.
Definition set_volumeVars (i : Z) (x : VolumeVars) (t : TrackBase) : TrackBase :=
  if i =? 0 then set_vol0 x t else set_vol1 x t.

(** Inline members of TrackBase. *)
Definition getOutputChannelCount (t : TrackBase) : Z := channelCount t.
Definition getMixerChannelCount (t : TrackBase) : Z := mMixerChannelCount t.
Definition needsRamp (t : TrackBase) : bool :=
  negb (Z.lor (Z.lor (volumeInc t 0) (volumeInc t 1)) (auxInc t) =? 0).
Definition doesResample (t : TrackBase) : bool :=
  match mResampler t with Some _ => true | None => false end.
Definition resetResampler (t : TrackBase) : TrackBase :=
  match mResampler t with
  | Some r => set_mResampler (Some (rs_reset r)) t
  | None => t
  end.
Definition isAudioChannelPositionMask (channelMask : Z) : bool :=
  audio_channel_mask_get_representation channelMask =? AUDIO_CHANNEL_REPRESENTATION_POSITION.
Definition useStereoVolume (t : TrackBase) : bool :=
  (channelMask t =? AUDIO_CHANNEL_OUT_STEREO)
  && isAudioChannelPositionMask (mMixerChannelMask t).
Definition isVolumeMuted (t : TrackBase) : bool :=
  F32.eqb (mVolume t 0) F32.zero && F32.eqb (mVolume t 1) F32.zero.
Definition TrackBase_getUnreleasedFrames (t : TrackBase) : Z :=
  match mResampler t with
  | Some r => rs_getUnreleasedFrames r
  | None => 0
  end.

(** ** The mixer and its control plane *)

Record AudioMixerBase := mkMixer {
  mSampleRate : Z;
  mFrameCount : Z;
  mHook : process_hook_t;
  mOutputTemp : option (list sample);
  mResampleTemp : option (list sample);
  mGroups : gmap Z (list Z);    (* mainBuffer -> names *)
  mEnabled : list Z;
  mTracks : gmap Z TrackBase
}.

(** [AudioMixerBase(frameCount, sampleRate)]. *)
Definition newMixer (frameCount sampleRate : Z) : AudioMixerBase :=
  mkMixer sampleRate frameCount process__nop None None ∅ [] ∅.

Definition set_mHook (h : process_hook_t) (m : AudioMixerBase) : AudioMixerBase :=
  mkMixer (mSampleRate m) (mFrameCount m) h (mOutputTemp m) (mResampleTemp m)
          (mGroups m) (mEnabled m) (mTracks m).
Definition set_mTracks (ts : gmap Z TrackBase) (m : AudioMixerBase) : AudioMixerBase :=
  mkMixer (mSampleRate m) (mFrameCount m) (mHook m) (mOutputTemp m) (mResampleTemp m)
          (mGroups m) (mEnabled m) ts.
Definition set_mOutputTemp (x : option (list sample)) (m : AudioMixerBase) : AudioMixerBase :=
  mkMixer (mSampleRate m) (mFrameCount m) (mHook m) x (mResampleTemp m)
          (mGroups m) (mEnabled m) (mTracks m).
Definition set_mResampleTemp (x : option (list sample)) (m : AudioMixerBase) : AudioMixerBase :=
  mkMixer (mSampleRate m) (mFrameCount m) (mHook m) (mOutputTemp m) x
          (mGroups m) (mEnabled m) (mTracks m).
Definition set_mGroups_mEnabled (g : gmap Z (list Z)) (e : list Z) (m : AudioMixerBase)
  : AudioMixerBase :=
  mkMixer (mSampleRate m) (mFrameCount m) (mHook m) (mOutputTemp m) (mResampleTemp m)
          g e (mTracks m).

(** [mTracks[name] = t]. *)
Definition putTrack (name : Z) (t : TrackBase) (m : AudioMixerBase) : AudioMixerBase :=
  set_mTracks (<[name := t]> (mTracks m)) m.

Definition exists_ (m : AudioMixerBase) (name : Z) : bool :=
  bool_decide (is_Some (mTracks m !! name)).

Definition invalidate (m : AudioMixerBase) : AudioMixerBase :=
  set_mHook process__validate m.

Definition isValidFormat (format : Z) : bool :=
  bool_decide (format ∈ [AUDIO_FORMAT_PCM_8_BIT; AUDIO_FORMAT_PCM_16_BIT;
                         AUDIO_FORMAT_PCM_24_BIT_PACKED; AUDIO_FORMAT_PCM_32_BIT;
                         AUDIO_FORMAT_PCM_FLOAT]).

Definition isValidChannelMask (channelMask : Z) : bool :=
  audio_channel_count_from_out_mask channelMask <=? MAX_NUM_CHANNELS.

Inductive status_t := OK | BAD_VALUE.

(** [create]; the fields the source leaves uninitialised are 0. *)
Definition create (m : AudioMixerBase) (name channelMask format sessionId : Z)
  : option (status_t * AudioMixerBase) :=
  if exists_ m name then None
  else if negb (isValidChannelMask channelMask) then Some (BAD_VALUE, m)
  else if negb (isValidFormat format) then Some (BAD_VALUE, m)
  else
    let channelCount := uint8 (audio_channel_count_from_out_mask channelMask) in
    let mixerChannelMask :=
      Z.lor (Z.shiftl AUDIO_CHANNEL_REPRESENTATION_POSITION 30) AUDIO_CHANNEL_OUT_STEREO in
    let t :=
      {| needs := 0;
         vol0 := zeroVolumeVars; vol1 := zeroVolumeVars; auxv := zeroVolumeVars;
         frameCount := 0;
         channelCount := channelCount;
         enabled := false;
         channelMask := channelMask;
         bufferProvider := None;
         buffer := mkBuffer None 0;
         hook := None;
         mIn := None;
         mResampler := None;
         sampleRate := mSampleRate m;
         mainBuffer := 0; auxBuffer := 0; teeBuffer := 0;
         sessionId := sessionId;
         mMixerFormat := AUDIO_FORMAT_PCM_16_BIT;
         mFormat := format;
         mMixerInFormat := if kUseFloat && kUseNewMixer
                           then AUDIO_FORMAT_PCM_FLOAT else AUDIO_FORMAT_PCM_16_BIT;
         mMixerChannelMask := mixerChannelMask;
         mMixerChannelCount := audio_channel_count_from_out_mask mixerChannelMask;
         mTeeBufferFrameCount := 0;
         mInputFrameSize := audio_bytes_per_frame channelCount format |} in
    Some (OK, putTrack name t m).

Definition setResampler (trackSampleRate devSampleRate : Z) (t : TrackBase)
  : bool * TrackBase :=
  if negb (trackSampleRate =? devSampleRate) || doesResample t then
    if negb (sampleRate t =? trackSampleRate) then
      let t := set_sampleRate trackSampleRate t in
      let t :=
        match mResampler t with
        | None =>
            let quality := if isMusicRate trackSampleRate
                           then DEFAULT_QUALITY else DYN_LOW_QUALITY in
            let resamplerChannelCount := getOutputChannelCount t in
            set_mResampler
              (Some (AudioResampler_create (mMixerInFormat t) resamplerChannelCount
                                           devSampleRate quality)) t
        | Some _ => t
        end in
      (true, t)
    else (false, t)
  else (false, t).

Definition recreateResampler (devSampleRate : Z) (t : TrackBase) : TrackBase :=
  match mResampler t with
  | Some _ =>
      let resetToSampleRate := sampleRate t in
      let t := set_mResampler None t in
      let t := set_sampleRate devSampleRate t in
      snd (setResampler resetToSampleRate devSampleRate t)
  | None => t
  end.

(** Modelled from the spec: a failed [ALOG_ASSERT] is a fatal abort, as the
    failure modes list it for the checks of the control plane (non-linear
    PCM given to FORMAT, channels out of range, a bad sample rate); the
    macro itself is defined outside this directory. *)
Definition ALOG_ASSERT {A : Type} (cond : bool) (k : option A) : option A :=
  if cond then k else None.

(** Modelled from the spec: [audio_is_linear_pcm] of the audio HAL headers
    (FORMAT takes linear PCM only): the main format, the top byte of the
    format word, is [AUDIO_FORMAT_PCM], which is 0. *)
Definition audio_is_linear_pcm (format : Z) : bool :=
  Z.land (uint32 format) 0xFF000000 =? 0.

(** The channel masks are [audio_channel_mask_t], unsigned 32-bit words. *)
Definition setChannelMasks (m : AudioMixerBase) (name trackChannelMask mixerChannelMask : Z)
  : option (bool * AudioMixerBase) :=
  match mTracks m !! name with
  | None => None
  | Some track =>
      if (trackChannelMask =? channelMask track)
         && (mixerChannelMask =? mMixerChannelMask track)
      then Some (false, m)
      else
        let trackChannelCount := audio_channel_count_from_out_mask trackChannelMask in
        let mixerChannelCount := audio_channel_count_from_out_mask mixerChannelMask in
        ALOG_ASSERT (negb (trackChannelCount =? 0) && negb (mixerChannelCount =? 0))
          (let track := set_channelMask trackChannelMask track in
           let track := set_channelCount (uint8 trackChannelCount) track in
           let track := set_mMixerChannelMask mixerChannelMask track in
           let track := set_mMixerChannelCount mixerChannelCount track in
           let track := set_mInputFrameSize
                          (audio_bytes_per_frame (channelCount track) (mFormat track)) track in
           let track := recreateResampler (mSampleRate m) track in
           Some (true, putTrack name track m))
  end.

Definition destroy (m : AudioMixerBase) (name : Z) : option AudioMixerBase :=
  match mTracks m !! name with
  | None => None
  | Some t =>
      let m := if enabled t then invalidate m else m in
      Some (set_mTracks (delete name (mTracks m)) m)
  end.

Definition enable (m : AudioMixerBase) (name : Z) : option AudioMixerBase :=
  match mTracks m !! name with
  | None => None
  | Some track =>
      if negb (enabled track)
      then Some (invalidate (putTrack name (set_enabled true track) m))
      else Some m
  end.

Definition disable (m : AudioMixerBase) (name : Z) : option AudioMixerBase :=
  match mTracks m !! name with
  | None => None
  | Some track =>
      if enabled track
      then Some (invalidate (putTrack name (set_enabled false track) m))
      else Some m
  end.

(** The [void *value] of [setParameter]: the pointer itself, and the float
    it points to when the switch reads it as [float*]. *)
Record Value := mkValue { valueRaw : Z; valueFloat : float }.

Definition valueInt (v : Value) : Z := int32 (valueRaw v).
Definition valueBuf (v : Value) : Z := valueRaw v.

Definition setParameter (m : AudioMixerBase) (name target param : Z) (value : Value)
  : option AudioMixerBase :=
  match mTracks m !! name with
  | None => None
  | Some track =>
      if target =? TRACK then
        if param =? CHANNEL_MASK then
          let trackChannelMask := uint32 (valueInt value) in
          match setChannelMasks m name trackChannelMask (mMixerChannelMask track) with
          | None => None
          | Some (changed, m') => Some (if changed then invalidate m' else m')
          end
        else if param =? MAIN_BUFFER then
          if negb (mainBuffer track =? valueBuf value)
          then Some (invalidate (putTrack name (set_mainBuffer (valueBuf value) track) m))
          else Some m
        else if param =? AUX_BUFFER then
          if negb (auxBuffer track =? valueBuf value)
          then Some (invalidate (putTrack name (set_auxBuffer (valueBuf value) track) m))
          else Some m
        else if param =? FORMAT then
          if negb (mFormat track =? valueInt value)
          then ALOG_ASSERT (audio_is_linear_pcm (valueInt value))
                 (Some (invalidate (putTrack name (set_mFormat (valueInt value) track) m)))
          else Some m
        else if param =? MIXER_FORMAT then
          if negb (mMixerFormat track =? valueInt value)
          then Some (putTrack name (set_mMixerFormat (valueInt value) track) m)
          else Some m
        else if param =? MIXER_CHANNEL_MASK then
          let mixerChannelMask := uint32 (valueInt value) in
          match setChannelMasks m name (channelMask track) mixerChannelMask with
          | None => None
          | Some (changed, m') => Some (if changed then invalidate m' else m')
          end
        else if param =? TEE_BUFFER then
          if negb (teeBuffer track =? valueBuf value)
          then Some (invalidate (putTrack name (set_teeBuffer (valueBuf value) track) m))
          else Some m
        else if param =? TEE_BUFFER_FRAME_COUNT then
          if negb (mTeeBufferFrameCount track =? valueInt value)
          then Some (invalidate
                       (putTrack name (set_mTeeBufferFrameCount (valueInt value) track) m))
          else Some m
        else None
      else if target =? RESAMPLE then
        if param =? SAMPLE_RATE then
          ALOG_ASSERT (0 <? valueInt value)
            (let '(changed, track') :=
               setResampler (uint32 (valueInt value)) (mSampleRate m) track in
             if changed then Some (invalidate (putTrack name track' m)) else Some m)
        else if param =? RESET then
          Some (invalidate (putTrack name (resetResampler track) m))
        else if param =? REMOVE then
          Some (invalidate
                  (putTrack name (set_sampleRate (mSampleRate m) (set_mResampler None track)) m))
        else None
      else if (target =? RAMP_VOLUME) || (target =? VOLUME) then
        let ramp := if target =? RAMP_VOLUME then int32 (mFrameCount m) else 0 in
        if param =? AUXLEVEL then
          let '(changed, v) := setVolumeRampVariables (valueFloat value) ramp (auxv track) in
          if changed then Some (invalidate (putTrack name (set_auxv v track) m)) else Some m
        else if (VOLUME0 <=? uint32 param) && (uint32 param <? VOLUME0 + MAX_NUM_VOLUMES) then
          let i := param - VOLUME0 in
          let '(changed, v) :=
            setVolumeRampVariables (valueFloat value) ramp (volumeVars track i) in
          if changed then Some (invalidate (putTrack name (set_volumeVars i v track) m))
          else Some m
        else None
      else None
  end.

Definition getUnreleasedFrames (m : AudioMixerBase) (name : Z) : Z :=
  match mTracks m !! name with
  | Some t => TrackBase_getUnreleasedFrames t
  | None => 0
  end.

(** The owner of a track assigns its [bufferProvider] field (the class has
    no member function for it; [create] leaves it null). *)
Definition setBufferProvider (m : AudioMixerBase) (name : Z) (p : Provider)
  : option AudioMixerBase :=
  match mTracks m !! name with
  | None => None
  | Some track => Some (putTrack name (set_bufferProvider (Some p) track) m)
  end.

(** ** The arithmetic the mixer calls but does not define

    [AudioMixerOps.h] (the templated kernels [volumeRampMulti] and
    [volumeMulti], instantiated at a mix type, a channel count and element
    types), the signal processing of [AudioResampler::resample] and the
    sample conversions of [audio_utils] are collaborators of this file.  The
    mixer is modelled over any implementation of them.

    A kernel receives the destination region it may write ([frames] times
    [channels] elements), the input that starts at its [in] pointer and,
    when the aux pointer is not null, the aux region ([frames] elements); it
    returns the new contents of the regions, and a ramp kernel also the
    volumes it has advanced. *)
Class MixerOps := {
  ops_volumeRampMulti_float :
    MIXTYPE -> Z -> ctype -> ctype -> ctype ->
    list sample -> Z -> list sample -> option (list sample) ->
    float * float -> float * float -> float -> float ->
    list sample * option (list sample) * (float * float) * float;
  ops_volumeMulti_float :
    MIXTYPE -> Z -> ctype -> ctype -> ctype ->
    list sample -> Z -> list sample -> option (list sample) ->
    float * float -> float ->
    list sample * option (list sample);
  ops_volumeRampMulti_int :
    MIXTYPE -> Z -> ctype -> ctype -> ctype ->
    list sample -> Z -> list sample -> option (list sample) ->
    Z * Z -> Z * Z -> Z -> Z ->
    list sample * option (list sample) * (Z * Z) * Z;
  ops_volumeMulti_int :
    MIXTYPE -> Z -> ctype -> ctype -> ctype ->
    list sample -> Z -> list sample -> option (list sample) ->
    Z * Z -> Z ->
    list sample * option (list sample);
  (* resample(dst, frameCount, provider): accumulates into dst *)
  ops_resample :
    AudioResampler -> list sample -> Z -> Provider ->
    list sample * AudioResampler * Provider;
  ops_memcpy_to_i16_from_float : list sample -> list sample;
  ops_memcpy_to_float_from_q4_27 : list sample -> list sample;
  ops_memcpy_to_i16_from_q4_27 : list sample -> list sample;
  ops_mulAdd : Z -> Z -> Z -> Z;
  ops_mulAddRL : Z -> Z -> Z -> Z -> Z;
  ops_mulRL : Z -> Z -> Z -> Z
}.

(** Reading an element as an integer. *)
Definition sint (s : sample) : Z :=
  match s with SInt z => z | SFloat _ => 0 end.

(** A region of exactly [n] elements: what a kernel returned, cut or padded
    to the size of the region it was given. *)
Definition region (n : Z) (l : list sample) : list sample :=
  resize (Z.to_nat n) zero_bits l.

(** Writing a region back into a local array at element offset [off]. *)
Definition array_write (a : list sample) (off : Z) (data : list sample) : list sample :=
  take (Z.to_nat off) (resize (Z.to_nat off) zero_bits a)
  ++ data ++ drop (Z.to_nat off + length data) a.

Definition array_read (a : list sample) (off n : Z) : list sample :=
  region n (drop (Z.to_nat off) a).

(** [adjustVolumeRamp(aux, useFloat)]. *)
Definition adjustVolumeRamp (aux useFloat : bool) (t : TrackBase) : TrackBase :=
  let t := set_vol0 (adjustVolumeRampChannel useFloat (vol0 t)) t in
  let t := set_vol1 (adjustVolumeRampChannel useFloat (vol1 t)) t in
  if aux then set_auxv (adjustVolumeRampAux useFloat (auxv t)) t else t.

(** [volumeRampStereo], lines 813-854.  The [do ... while (--frameCount)]
    loops run [frameCount] times; a call with [frameCount = 0] is outside the
    contract of the function ([None]). *)
Fixpoint volumeRampStereo_loop (n : nat) (vl vr vlInc vrInc : Z) (out temp : list sample)
  : list sample * Z * Z :=
  match n with
  | O => (out, vl, vr)
  | S n' =>
      let o0 := sint (default zero_bits (out !! 0%nat)) in
      let o1 := sint (default zero_bits (out !! 1%nat)) in
      let t0 := sint (default zero_bits (temp !! 0%nat)) in
      let t1 := sint (default zero_bits (temp !! 1%nat)) in
      let o0' := int32 (o0 + int32 (Z.shiftr vl 16 * Z.shiftr t0 12)) in
      let o1' := int32 (o1 + int32 (Z.shiftr vr 16 * Z.shiftr t1 12)) in
      let '(rest, vl', vr') :=
        volumeRampStereo_loop n' (int32 (vl + vlInc)) (int32 (vr + vrInc)) vlInc vrInc
                              (drop 2 out) (drop 2 temp) in
      (SInt o0' :: SInt o1' :: rest, vl', vr')
  end.

Fixpoint volumeRampStereo_loop_aux (n : nat) (vl vr va vlInc vrInc vaInc : Z)
  (out temp aux : list sample) : list sample * list sample * Z * Z * Z :=
  match n with
  | O => (out, aux, vl, vr, va)
  | S n' =>
      let o0 := sint (default zero_bits (out !! 0%nat)) in
      let o1 := sint (default zero_bits (out !! 1%nat)) in
      let a0 := sint (default zero_bits (aux !! 0%nat)) in
      let l := Z.shiftr (sint (default zero_bits (temp !! 0%nat))) 12 in
      let r := Z.shiftr (sint (default zero_bits (temp !! 1%nat))) 12 in
      let o0' := int32 (o0 + int32 (Z.shiftr vl 16 * l)) in
      let o1' := int32 (o1 + int32 (Z.shiftr vr 16 * r)) in
      let a0' := int32 (a0 + int32 (Z.shiftr va 17 * int32 (l + r))) in
      let '(rest, arest, vl', vr', va') :=
        volumeRampStereo_loop_aux n' (int32 (vl + vlInc)) (int32 (vr + vrInc))
                                  (int32 (va + vaInc)) vlInc vrInc vaInc
                                  (drop 2 out) (drop 2 temp) (drop 1 aux) in
      (SInt o0' :: SInt o1' :: rest, SInt a0' :: arest, vl', vr', va')
  end.

Definition volumeRampStereo (t : TrackBase) (out : list sample) (frameCount : Z)
  (temp : list sample) (aux : option (list sample))
  : option (TrackBase * list sample * option (list sample)) :=
  if frameCount <=? 0 then None
  else
    let vl := prevVolume t 0 in
    let vr := prevVolume t 1 in
    let vlInc := volumeInc t 0 in
    let vrInc := volumeInc t 1 in
    match aux with
    | Some a =>
        let '(out', a', vl', vr', va') :=
          volumeRampStereo_loop_aux (Z.to_nat frameCount) vl vr (prevAuxLevel t)
                                    vlInc vrInc (auxInc t) out temp a in
        let t := set_auxv (setIntPrevVolume va' (auxv t)) t in
        let t := set_vol0 (setIntPrevVolume vl' (vol0 t)) t in
        let t := set_vol1 (setIntPrevVolume vr' (vol1 t)) t in
        Some (adjustVolumeRamp true false t, out', Some a')
    | None =>
        let '(out', vl', vr') :=
          volumeRampStereo_loop (Z.to_nat frameCount) vl vr vlInc vrInc out temp in
        let t := set_vol0 (setIntPrevVolume vl' (vol0 t)) t in
        let t := set_vol1 (setIntPrevVolume vr' (vol1 t)) t in
        Some (adjustVolumeRamp false false t, out', None)
    end.

(** [volumeStereo], lines 856-883. *)
Fixpoint volumeStereo_loop `{MixerOps} (n : nat) (vl vr va : Z)
  (out temp : list sample) (aux : option (list sample))
  : list sample * option (list sample) :=
  match n with
  | O => (out, aux)
  | S n' =>
      let l := int16 (Z.shiftr (sint (default zero_bits (temp !! 0%nat))) 12) in
      let r := int16 (Z.shiftr (sint (default zero_bits (temp !! 1%nat))) 12) in
      let o0' := ops_mulAdd l vl (sint (default zero_bits (out !! 0%nat))) in
      let o1' := ops_mulAdd r vr (sint (default zero_bits (out !! 1%nat))) in
      let a := int16 (Z.shiftr (l + r) 1) in
      let aux_here :=
        (fun x => SInt (ops_mulAdd a va (sint (default zero_bits (x !! 0%nat))))) <$> aux in
      let '(rest, arest) :=
        volumeStereo_loop n' vl vr va (drop 2 out) (drop 2 temp) (drop 1 <$> aux) in
      (SInt o0' :: SInt o1' :: rest,
       match aux_here, arest with
       | Some a0, Some ar => Some (a0 :: ar)
       | _, _ => None
       end)
  end.

Definition volumeStereo `{MixerOps} (t : TrackBase) (out : list sample) (frameCount : Z)
  (temp : list sample) (aux : option (list sample))
  : option (list sample * option (list sample)) :=
  if frameCount <=? 0 then None
  else Some (volumeStereo_loop (Z.to_nat frameCount) (volume t 0) (volume t 1) (auxLevel t)
                               out temp aux).

(** ** The multi-format kernels (lines 1319-1551) *)

Definition MIXTYPE_MONOVOL (mixtype : MIXTYPE) (channels : Z) : MIXTYPE :=
  if channels <=? FCC_2 then mixtype
  else match mixtype with
       | MIXTYPE_MULTI => MIXTYPE_MULTI_MONOVOL
       | MIXTYPE_MULTI_SAVEONLY => MIXTYPE_MULTI_SAVEONLY_MONOVOL
       | _ => mixtype
       end.

Definition is_float (ty : ctype) : bool :=
  match ty with T_float => true | _ => false end.

(** [volumeMix<MIXTYPE, USEFLOATVOL, ADJUSTVOL, TO, TI, TA>]; the dispatchers
    [volumeRampMulti] and [volumeMulti] of lines 1347-1389 call the kernel of
    the channel count when it is in [1, FCC_LIMIT] and do nothing
    otherwise. *)
Definition volumeMix `{MixerOps} (mt : MIXTYPE) (USEFLOATVOL ADJUSTVOL : bool)
  (TO TI TA : ctype) (t : TrackBase) (out : list sample) (outFrames : Z)
  (in_ : list sample) (aux : option (list sample)) (ramp : bool)
  : TrackBase * list sample * option (list sample) :=
  let channels := mMixerChannelCount t in
  let valid := (0 <? channels) && (channels <=? FCC_LIMIT) in
  let mtc := MIXTYPE_MONOVOL mt channels in
  let has_aux := match aux with Some _ => true | None => false end in
  if USEFLOATVOL then
    if ramp then
      let '(out', aux', (v0, v1), va) :=
        if valid then
          ops_volumeRampMulti_float mtc channels TO TI TA out outFrames in_ aux
            (mPrevVolume t 0, mPrevVolume t 1) (mVolumeInc t 0, mVolumeInc t 1)
            (mPrevAuxLevel t) (mAuxInc t)
        else (out, aux, (mPrevVolume t 0, mPrevVolume t 1), mPrevAuxLevel t) in
      let t := set_vol0 (setPrevVolume v0 (vol0 t)) t in
      let t := set_vol1 (setPrevVolume v1 (vol1 t)) t in
      let t := set_auxv (setPrevVolume va (auxv t)) t in
      let t := if ADJUSTVOL then adjustVolumeRamp has_aux true t else t in
      (t, out', aux')
    else
      let '(out', aux') :=
        if valid then
          ops_volumeMulti_float mtc channels TO TI TA out outFrames in_ aux
            (mVolume t 0, mVolume t 1) (mAuxLevel t)
        else (out, aux) in
      (t, out', aux')
  else
    if ramp then
      let '(out', aux', (v0, v1), va) :=
        if valid then
          ops_volumeRampMulti_int mtc channels TO TI TA out outFrames in_ aux
            (prevVolume t 0, prevVolume t 1) (volumeInc t 0, volumeInc t 1)
            (prevAuxLevel t) (auxInc t)
        else (out, aux, (prevVolume t 0, prevVolume t 1), prevAuxLevel t) in
      let t := set_vol0 (setIntPrevVolume v0 (vol0 t)) t in
      let t := set_vol1 (setIntPrevVolume v1 (vol1 t)) t in
      let t := set_auxv (setIntPrevVolume va (auxv t)) t in
      let t := if ADJUSTVOL then adjustVolumeRamp has_aux false t else t in
      (t, out', aux')
    else
      let '(out', aux') :=
        if valid then
          ops_volumeMulti_int mtc channels TO TI TA out outFrames in_ aux
            (volume t 0, volume t 1) (auxLevel t)
        else (out, aux) in
      (t, out', aux').

(** What a track hook returns: the track, the destination region, the
    resample temp and the aux region.  [None]: a null pointer was used. *)
Definition hook_result : Type :=
  option (TrackBase * list sample * option (list sample) * option (list sample)).

(** [track__Resample<MIXTYPE, TO, TI, TA>]. *)
Definition track__Resample_body `{MixerOps} (mt : MIXTYPE) (TO TI TA : ctype)
  (t : TrackBase) (out : list sample) (outFrameCount : Z)
  (temp aux : option (list sample)) : hook_result :=
  match mResampler t, bufferProvider t with
  | Some rs, Some provider =>
      let rs := rs_setSampleRate (sampleRate t) rs in
      let ramp := needsRamp t in
      let has_aux := match aux with Some _ => true | None => false end in
      if match mt with MIXTYPE_MONOEXPAND | MIXTYPE_STEREOEXPAND => true | _ => false end
         || ramp || has_aux
      then
        match temp with
        | None => None
        | Some tmp =>
            let rs := rs_setVolume UNITY_GAIN_FLOAT UNITY_GAIN_FLOAT rs in
            let n := outFrameCount * mMixerChannelCount t in
            let tmp := array_write tmp 0 (replicate (Z.to_nat n) zero_bits) in
            let '(tmp', rs, provider) := ops_resample rs tmp outFrameCount provider in
            let t := set_bufferProvider (Some provider) (set_mResampler (Some rs) t) in
            let '(t, out', aux') :=
              volumeMix mt (is_float TI) true TO TI TA t out outFrameCount tmp' aux ramp in
            Some (t, out', Some tmp', aux')
        end
      else
        let rs := rs_setVolume (mVolume t 0) (mVolume t 1) rs in
        let '(out', rs, provider) := ops_resample rs out outFrameCount provider in
        let t := set_bufferProvider (Some provider) (set_mResampler (Some rs) t) in
        Some (t, out', temp, aux)
  | _, _ => None
  end.

(** [track__NoResample<MIXTYPE, TO, TI, TA>]. *)
Definition track__NoResample_body `{MixerOps} (mt : MIXTYPE) (TO TI TA : ctype)
  (t : TrackBase) (out : list sample) (frameCount : Z)
  (temp aux : option (list sample)) : hook_result :=
  match mIn t with
  | None => None
  | Some in_ =>
      let '(t, out', aux') :=
        volumeMix mt (is_float TI) true TO TI TA t out frameCount in_ aux (needsRamp t) in
      let consumed :=
        match mt with
        | MIXTYPE_MONOEXPAND => frameCount
        | _ => frameCount * mMixerChannelCount t
        end in
      Some (set_mIn (Some (drop (Z.to_nat consumed) in_)) t, out', temp, aux')
  end.

(** [track__genericResample], lines 774-806. *)
Definition track__genericResample_body `{MixerOps}
  (t : TrackBase) (out : list sample) (outFrameCount : Z)
  (temp aux : option (list sample)) : hook_result :=
  match mResampler t, bufferProvider t with
  | Some rs, Some provider =>
      let rs := rs_setSampleRate (sampleRate t) rs in
      let ramp_aux :=
        negb (Z.lor (Z.lor (volumeInc t 0) (volumeInc t 1)) (auxInc t) =? 0) in
      let ramp := negb (Z.lor (volumeInc t 0) (volumeInc t 1) =? 0) in
      let unity n :=
        match temp with
        | None => None
        | Some tmp =>
            let rs := rs_setVolume UNITY_GAIN_FLOAT UNITY_GAIN_FLOAT rs in
            let tmp := array_write tmp 0 (replicate (Z.to_nat n) zero_bits) in
            let '(tmp', rs, provider) := ops_resample rs tmp outFrameCount provider in
            Some (set_bufferProvider (Some provider) (set_mResampler (Some rs) t), tmp')
        end in
      match aux with
      | Some _ =>
          match unity (outFrameCount * mMixerChannelCount t) with
          | None => None
          | Some (t, tmp') =>
              if ramp_aux then
                match volumeRampStereo t out outFrameCount tmp' aux with
                | Some (t, out', aux') => Some (t, out', Some tmp', aux')
                | None => None
                end
              else
                match volumeStereo t out outFrameCount tmp' aux with
                | Some (out', aux') => Some (t, out', Some tmp', aux')
                | None => None
                end
          end
      | None =>
          if ramp then
            match unity (outFrameCount * MAX_NUM_CHANNELS) with
            | None => None
            | Some (t, tmp') =>
                match volumeRampStereo t out outFrameCount tmp' aux with
                | Some (t, out', aux') => Some (t, out', Some tmp', aux')
                | None => None
                end
            end
          else
            let rs := rs_setVolume (mVolume t 0) (mVolume t 1) rs in
            let '(out', rs, provider) := ops_resample rs out outFrameCount provider in
            Some (set_bufferProvider (Some provider) (set_mResampler (Some rs) t),
                  out', temp, aux)
      end
  | _, _ => None
  end.

(** ** The 16-bit stereo and mono track hooks (lines 885-1063)

    [in] points to int16 samples; [volumeRL] is the union view of
    [volume[0..1]] (little-endian: [volume[0]] in the low half). *)
Definition volumeRL (t : TrackBase) : Z :=
  Z.lor (Z.land (volume t 0) 0xFFFF) (Z.shiftl (Z.land (volume t 1) 0xFFFF) 16).

Definition at_ (l : list sample) (i : nat) : Z := sint (default zero_bits (l !! i)).

Definition aux_step (aux : option (list sample)) (f : Z -> Z) : option sample :=
  (fun a => SInt (f (at_ a 0))) <$> aux.

Definition aux_cons (a : option sample) (rest : option (list sample)) : option (list sample) :=
  match a, rest with
  | Some x, Some r => Some (x :: r)
  | _, _ => None
  end.

(** The ramp loops of both hooks: [stereo] tells whether a frame of [in] has
    two samples (l, r) or one (l, used for both channels); with an aux buffer
    the stereo hook adds [(va >> 17) * (l + r)], the mono hook
    [(va >> 16) * l]. *)
Fixpoint ramp16_loop (stereo : bool) (n : nat) (vl vr va vlInc vrInc vaInc : Z)
  (out in_ : list sample) (aux : option (list sample))
  : list sample * list sample * option (list sample) * Z * Z * Z :=
  match n with
  | O => (out, in_, aux, vl, vr, va)
  | S n' =>
      let l := int16 (at_ in_ 0) in
      let r := if stereo then int16 (at_ in_ 1) else l in
      let o0' := int32 (at_ out 0 + int32 (Z.shiftr vl 16 * l)) in
      let o1' := int32 (at_ out 1 + int32 (Z.shiftr vr 16 * r)) in
      let a' := aux_step aux (fun a =>
                  int32 (a + (if stereo then int32 (Z.shiftr va 17 * int32 (l + r))
                              else int32 (Z.shiftr va 16 * l)))) in
      let '(rest, in', arest, vl', vr', va') :=
        ramp16_loop stereo n' (int32 (vl + vlInc)) (int32 (vr + vrInc))
                    (match aux with Some _ => int32 (va + vaInc) | None => va end)
                    vlInc vrInc vaInc
                    (drop 2 out) (drop (if stereo then 2 else 1)%nat in_) (drop 1 <$> aux) in
      (SInt o0' :: SInt o1' :: rest, in', aux_cons a' arest, vl', vr', va')
  end.

(** The constant-gain loops. *)
Fixpoint const16_loop `{MixerOps} (stereo : bool) (n : nat) (t : TrackBase)
  (out in_ : list sample) (aux : option (list sample))
  : list sample * list sample * option (list sample) :=
  match n with
  | O => (out, in_, aux)
  | S n' =>
      let l := int16 (at_ in_ 0) in
      let r := if stereo then int16 (at_ in_ 1) else l in
      let rl := Z.lor (Z.land l 0xFFFF) (Z.shiftl (Z.land r 0xFFFF) 16) in
      let o0' := if stereo then ops_mulAddRL 1 rl (volumeRL t) (at_ out 0)
                 else ops_mulAdd l (volume t 0) (at_ out 0) in
      let o1' := if stereo then ops_mulAddRL 0 rl (volumeRL t) (at_ out 1)
                 else ops_mulAdd l (volume t 1) (at_ out 1) in
      let a := if stereo then int16 (Z.shiftr (l + r) 1) else l in
      let a' := aux_step aux (fun x => ops_mulAdd a (int16 (auxLevel t)) x) in
      let '(rest, in', arest) :=
        const16_loop stereo n' t (drop 2 out)
                     (drop (if stereo then 2 else 1)%nat in_) (drop 1 <$> aux) in
      (SInt o0' :: SInt o1' :: rest, in', aux_cons a' arest)
  end.

Definition track__16Bits_body `{MixerOps} (stereo : bool)
  (t : TrackBase) (out : list sample) (frameCount : Z)
  (temp aux : option (list sample)) : hook_result :=
  match mIn t with
  | None => None
  | Some in_ =>
      if frameCount <=? 0 then None
      else
        let has_aux := match aux with Some _ => true | None => false end in
        let incs := Z.lor (volumeInc t 0) (volumeInc t 1) in
        let incs := if has_aux then Z.lor incs (auxInc t) else incs in
        if negb (incs =? 0) then
          let '(out', in', aux', vl', vr', va') :=
            ramp16_loop stereo (Z.to_nat frameCount)
                        (prevVolume t 0) (prevVolume t 1) (prevAuxLevel t)
                        (volumeInc t 0) (volumeInc t 1) (auxInc t) out in_ aux in
          let t := set_vol0 (setIntPrevVolume vl' (vol0 t)) t in
          let t := set_vol1 (setIntPrevVolume vr' (vol1 t)) t in
          let t := if has_aux then set_auxv (setIntPrevVolume va' (auxv t)) t else t in
          let t := adjustVolumeRamp has_aux false t in
          Some (set_mIn (Some in') t, out', temp, aux')
        else
          let '(out', in', aux') :=
            const16_loop stereo (Z.to_nat frameCount) t out in_ aux in
          Some (set_mIn (Some in') t, out', temp, aux')
  end.

(** [(t->*hook)(out, numOutFrames, temp, aux)]. *)
Definition call_hook `{MixerOps} (h : option hook_t) (t : TrackBase)
  (out : list sample) (numOutFrames : Z) (temp aux : option (list sample))
  : hook_result :=
  match h with
  | None => None
  | Some track__nop => Some (t, out, temp, aux)
  | Some track__genericResample => track__genericResample_body t out numOutFrames temp aux
  | Some track__16BitsStereo => track__16Bits_body true t out numOutFrames temp aux
  | Some track__16BitsMono => track__16Bits_body false t out numOutFrames temp aux
  | Some (track__Resample mt TO TI TA) =>
      track__Resample_body mt TO TI TA t out numOutFrames temp aux
  | Some (track__NoResample mt TO TI TA) =>
      track__NoResample_body mt TO TI TA t out numOutFrames temp aux
  end.

(** [convertMixerFormat]; [None] is LOG_ALWAYS_FATAL. *)
Definition convertMixerFormat `{MixerOps} (mixerOutFormat : Z) (in_ : list sample)
  (mixerInFormat sampleCount : Z) : option (list sample) :=
  let src := region sampleCount in_ in
  if mixerInFormat =? AUDIO_FORMAT_PCM_FLOAT then
    if mixerOutFormat =? AUDIO_FORMAT_PCM_FLOAT then Some src
    else if mixerOutFormat =? AUDIO_FORMAT_PCM_16_BIT
         then Some (region sampleCount (ops_memcpy_to_i16_from_float src))
         else None
  else if mixerInFormat =? AUDIO_FORMAT_PCM_16_BIT then
    if mixerOutFormat =? AUDIO_FORMAT_PCM_FLOAT
    then Some (region sampleCount (ops_memcpy_to_float_from_q4_27 src))
    else if mixerOutFormat =? AUDIO_FORMAT_PCM_16_BIT
         then Some (region sampleCount (ops_memcpy_to_i16_from_q4_27 src))
         else None
  else None.

(** [getTrackHook]; [None] is LOG_ALWAYS_FATAL.  (The calls to
    [checkTypeIds] only record which element types are in use.) *)
Definition getTrackHook (trackType channelCount mixerInFormat mixerOutFormat : Z)
  : option hook_t :=
  let by_format (mt : MIXTYPE) (resample : bool) :=
    let mk := if resample then track__Resample else track__NoResample in
    if mixerInFormat =? AUDIO_FORMAT_PCM_FLOAT then Some (mk mt T_float T_float TYPE_AUX)
    else if mixerInFormat =? AUDIO_FORMAT_PCM_16_BIT then Some (mk mt T_int32 T_int16 TYPE_AUX)
    else None in
  if negb kUseNewMixer && (channelCount =? FCC_2)
     && (mixerInFormat =? AUDIO_FORMAT_PCM_16_BIT)
  then
    if trackType =? TRACKTYPE_NOP then Some track__nop
    else if trackType =? TRACKTYPE_RESAMPLE then Some track__genericResample
    else if trackType =? TRACKTYPE_NORESAMPLEMONO then Some track__16BitsMono
    else if trackType =? TRACKTYPE_NORESAMPLE then Some track__16BitsStereo
    else None
  else if MAX_NUM_CHANNELS <? channelCount then None
  else if trackType =? TRACKTYPE_NOP then Some track__nop
  else if trackType =? TRACKTYPE_RESAMPLE then by_format MIXTYPE_MULTI true
  else if trackType =? TRACKTYPE_RESAMPLESTEREO then by_format MIXTYPE_MULTI_STEREOVOL true
  else if trackType =? TRACKTYPE_RESAMPLEMONO then by_format MIXTYPE_STEREOEXPAND true
  else if trackType =? TRACKTYPE_NORESAMPLEMONO then by_format MIXTYPE_MONOEXPAND false
  else if trackType =? TRACKTYPE_NORESAMPLE then by_format MIXTYPE_MULTI false
  else if trackType =? TRACKTYPE_NORESAMPLESTEREO then by_format MIXTYPE_MULTI_STEREOVOL false
  else None.

(** [getProcessHook]; [None] is LOG_ALWAYS_FATAL. *)
Definition getProcessHook (processType channelCount mixerInFormat mixerOutFormat : Z)
  (stereoVolume : bool) : option process_hook_t :=
  if negb (processType =? PROCESSTYPE_NORESAMPLEONETRACK) then None
  else if negb kUseNewMixer && (channelCount =? FCC_2)
          && (mixerInFormat =? AUDIO_FORMAT_PCM_16_BIT)
  then Some process__oneTrack16BitsStereoNoResampling
  else if MAX_NUM_CHANNELS <? channelCount then None
  else
    let mt := if stereoVolume then MIXTYPE_MULTI_SAVEONLY_STEREOVOL
              else MIXTYPE_MULTI_SAVEONLY in
    if mixerInFormat =? AUDIO_FORMAT_PCM_FLOAT then
      if mixerOutFormat =? AUDIO_FORMAT_PCM_FLOAT
      then Some (process__noResampleOneTrack mt T_float T_float TYPE_AUX)
      else if mixerOutFormat =? AUDIO_FORMAT_PCM_16_BIT
           then Some (process__noResampleOneTrack mt T_int16 T_float TYPE_AUX)
           else None
    else if mixerInFormat =? AUDIO_FORMAT_PCM_16_BIT then
      if mixerOutFormat =? AUDIO_FORMAT_PCM_FLOAT
      then Some (process__noResampleOneTrack mt T_float T_int16 TYPE_AUX)
      else if mixerOutFormat =? AUDIO_FORMAT_PCM_16_BIT
           then Some (process__noResampleOneTrack mt T_int16 T_int16 TYPE_AUX)
           else None
    else None.

(** ** The process hooks *)

(** Iteration of a fallible loop body over a list. *)
Fixpoint for_each {A S : Type} (f : S -> A -> option S) (s : S) (l : list A) : option S :=
  match l with
  | [] => Some s
  | x :: rest =>
      match f s x with
      | Some s' => for_each f s' rest
      | None => None
      end
  end.

(** The names of [mTracks] in the order [std::map] yields them. *)
Definition trackNames (m : AudioMixerBase) : list Z :=
  merge_sort Z.le (fst <$> map_to_list (mTracks m)).

(** The number of elements of [format] in [bytes] bytes. *)
Definition elements_of_bytes (bytes elemSize : Z) : Z :=
  if elemSize =? 0 then 0 else bytes / elemSize.

Definition sizeof (ty : ctype) : Z :=
  match ty with T_int16 => 2 | T_int32 => 4 | T_float => 4 end.

(** The caller's buffers and the mixer: what a process hook transforms. *)
Definition world : Type := AudioMixerBase * Memory.

(** Lines 1083-1089: consume [outFrames] frames of a provider. *)
Fixpoint nop_consume (p : Provider) (outFrames : Z) (b : Buffer) : Buffer * Provider :=
  if outFrames =? 0 then (b, p)
  else
    match p with
    | [] => (fst (getNextBuffer [] outFrames), [])
    | r :: rest =>
        let b' := fst (getNextBuffer (r :: rest) outFrames) in
        match raw b' with
        | None => (b', rest)
        | Some _ => nop_consume rest (outFrames - buf_frameCount b') b'
        end
    end.

Definition process__nop_body (w : world) : option world :=
  for_each
    (fun (w : world) (pair : Z * list Z) =>
       let '(m, mem) := w in
       let group := snd pair in
       match head group with
       | None => None
       | Some name0 =>
           match mTracks m !! name0 with
           | None => None
           | Some t =>
               let bytes := mFrameCount m
                            * audio_bytes_per_frame (getMixerChannelCount t) (mMixerFormat t) in
               let n := elements_of_bytes bytes (audio_bytes_per_sample (mMixerFormat t)) in
               if (mainBuffer t =? 0) && (0 <? n) then None
               else
                 let mem := memset0 mem (mainBuffer t) 0 n in
                 (* now consume data *)
                 match
                   for_each
                     (fun (m : AudioMixerBase) (name : Z) =>
                        match mTracks m !! name with
                        | None => None
                        | Some t =>
                            match bufferProvider t with
                            | None => if mFrameCount m =? 0 then Some m else None
                            | Some p =>
                                let '(b, p') := nop_consume p (mFrameCount m) (buffer t) in
                                Some (putTrack name
                                        (set_bufferProvider (Some p') (set_buffer b t)) m)
                            end
                        end)
                     m group
                 with
                 | Some m => Some (m, mem)
                 | None => None
                 end
           end
       end)
    w (map_to_list (mGroups (fst w))).

(** The state of the loops of [process__genericNoResampling]: the mixer (with
    the track being mixed), the local [outTemp] and the caller's memory. *)
Definition mix_state : Type := AudioMixerBase * list sample * Memory.

(** One call of a track hook from a process hook: [out] is [outTemp + off],
    [aux] the pointer [(auxBuffer, auxOff)] or null. *)
Definition invoke_hook `{MixerOps} (name : Z) (t : TrackBase) (off frames : Z)
  (aux : option (Z * Z)) (st : mix_state) : option mix_state :=
  let '(m, outTemp, mem) := st in
  let n := frames * mMixerChannelCount t in
  let auxr := (fun a : Z * Z => mem_read mem (fst a) (snd a) frames) <$> aux in
  match call_hook (hook t) t (array_read outTemp off n) frames (mResampleTemp m) auxr with
  | None => None
  | Some (t', out', temp', aux') =>
      let mem :=
        match aux, aux' with
        | Some a, Some r => mem_write mem (fst a) (snd a) (region frames r)
        | _, _ => mem
        end in
      Some (set_mResampleTemp temp' (putTrack name t' m),
            array_write outTemp off (region n out'), mem)
  end.

(** Lines 1125-1153: the loop that mixes one track into one block.  Every
    iteration but the last asks the provider for a buffer, so the length of
    its answers bounds the iterations; [fuel] is that bound. *)
Fixpoint track_block_loop `{MixerOps} (fuel : nat) (name numFrames blockFrames outFrames : Z)
  (aux : option (Z * Z)) (st : mix_state) : option mix_state :=
  match fuel with
  | O => None
  | S fuel =>
      if outFrames <=? 0 then Some st
      else
        match mTracks (fst (fst st)) !! name with
        | None => None
        | Some t =>
            match mIn t with
            | None => Some st
            | Some _ =>
                let inFrames := if frameCount t >? outFrames then outFrames else frameCount t in
                let step :=
                  if inFrames >? 0 then
                    match invoke_hook name t ((blockFrames - outFrames) * mMixerChannelCount t)
                                      inFrames aux st with
                    | None => None
                    | Some (m, outTemp, mem) =>
                        match mTracks m !! name with
                        | None => None
                        | Some t =>
                            let t := set_frameCount (uint16 (frameCount t - inFrames)) t in
                            Some (putTrack name t m, outTemp, mem, outFrames - inFrames,
                                  (fun a : Z * Z => (fst a, snd a + inFrames)) <$> aux)
                        end
                    end
                  else Some (st, outFrames, aux) in
                match step with
                | None => None
                | Some (m, outTemp, mem, outFrames, aux) =>
                    match mTracks m !! name with
                    | None => None
                    | Some t =>
                        if (frameCount t =? 0) && negb (outFrames =? 0) then
                          match bufferProvider t with
                          | None => None
                          | Some p =>
                              let request := (mFrameCount m - numFrames)
                                             - (blockFrames - outFrames) in
                              let '(b, p') := getNextBuffer p request in
                              let t := set_bufferProvider (Some p') (set_buffer b t) in
                              let t := set_mIn (raw b) t in
                              match raw b with
                              | None => Some (putTrack name t m, outTemp, mem)
                              | Some _ =>
                                  let t := set_frameCount (uint16 (buf_frameCount b)) t in
                                  track_block_loop fuel name numFrames blockFrames outFrames aux
                                                   (putTrack name t m, outTemp, mem)
                              end
                          end
                        else
                          track_block_loop fuel name numFrames blockFrames outFrames aux
                                           (m, outTemp, mem)
                    end
                end
            end
        end
  end.

Definition provider_length (t : TrackBase) : nat :=
  match bufferProvider t with Some p => length p | None => 0 end.

(** Lines 1119-1154: every track of the group is mixed into the block. *)
Definition mix_block `{MixerOps} (group : list Z) (numFrames blockFrames : Z)
  (st : mix_state) : option mix_state :=
  for_each
    (fun (st : mix_state) (name : Z) =>
       match mTracks (fst (fst st)) !! name with
       | None => None
       | Some t =>
           let aux := if negb (Z.land (needs t) NEEDS_AUX =? 0)
                      then Some (auxBuffer t, numFrames) else None in
           track_block_loop (S (S (provider_length t))) name numFrames blockFrames
                            blockFrames aux st
       end)
    st group.

(** Lines 1116-1164: the [do ... while (numFrames < mFrameCount)] loop over
    blocks of at most BLOCKSIZE frames; [out] is the element offset reached in
    the main buffer [key].  Every block but a first empty one has at least
    one frame, so [mFrameCount + 1] bounds the iterations. *)
Fixpoint block_loop `{MixerOps} (fuel : nat) (key : Z) (group : list Z) (out numFrames : Z)
  (w : world) : option world :=
  match fuel with
  | O => None
  | S fuel =>
      let '(m, mem) := w in
      let blockFrames := Z.min BLOCKSIZE (mFrameCount m - numFrames) in
      let outTemp := replicate (Z.to_nat (BLOCKSIZE * MAX_NUM_CHANNELS)) zero_bits in
      match mix_block group numFrames blockFrames (m, outTemp, mem) with
      | None => None
      | Some (m, outTemp, mem) =>
          match head group with
          | None => None
          | Some name1 =>
              match mTracks m !! name1 with
              | None => None
              | Some t1 =>
                  let count := blockFrames * mMixerChannelCount t1 in
                  match convertMixerFormat (mMixerFormat t1) outTemp (mMixerInFormat t1) count with
                  | None => None
                  | Some data =>
                      let mem := mem_write mem key out data in
                      let out := out + count in
                      let numFrames := numFrames + blockFrames in
                      if numFrames <? mFrameCount m
                      then block_loop fuel key group out numFrames (m, mem)
                      else Some (m, mem)
                  end
              end
          end
      end
  end.

Definition process__genericNoResampling_body `{MixerOps} (w : world) : option world :=
  for_each
    (fun (w : world) (pair : Z * list Z) =>
       let '(m, mem) := w in
       let '(key, group) := pair in
       (* acquire buffer *)
       match
         for_each
           (fun (m : AudioMixerBase) (name : Z) =>
              match mTracks m !! name with
              | None => None
              | Some t =>
                  match bufferProvider t with
                  | None => None
                  | Some p =>
                      let '(b, p') := getNextBuffer p (mFrameCount m) in
                      let t := set_bufferProvider (Some p') (set_buffer b t) in
                      let t := set_frameCount (uint16 (buf_frameCount b)) t in
                      Some (putTrack name (set_mIn (raw b) t) m)
                  end
              end)
           m group
       with
       | None => None
       | Some m =>
           (* the releaseBuffer calls that follow the loop have no effect *)
           block_loop (S (Z.to_nat (mFrameCount m))) key group 0 0 (m, mem)
       end)
    w (map_to_list (mGroups (fst w))).

(** Lines 1201-1218: a track without resampler under
    [process__genericResampling]. *)
Fixpoint resampling_pull_loop `{MixerOps} (fuel : nat) (name numFrames outFrames : Z)
  (aux : option Z) (st : mix_state) : option mix_state :=
  match fuel with
  | O => None
  | S fuel =>
      if negb (outFrames <? numFrames) then Some st
      else
        let '(m, outTemp, mem) := st in
        match mTracks m !! name with
        | None => None
        | Some t =>
            match bufferProvider t with
            | None => None
            | Some p =>
                let '(b, p') := getNextBuffer p (numFrames - outFrames) in
                let t := set_bufferProvider (Some p') (set_buffer b t) in
                let t := set_mIn (raw b) t in
                let m := putTrack name t m in
                match raw b with
                | None => Some (m, outTemp, mem)
                | Some _ =>
                    match invoke_hook name t (outFrames * mMixerChannelCount t)
                                      (buf_frameCount b)
                                      ((fun a => (a, outFrames)) <$> aux)
                                      (m, outTemp, mem) with
                    | None => None
                    | Some st =>
                        resampling_pull_loop fuel name numFrames
                                             (outFrames + buf_frameCount b) aux st
                    end
                end
            end
        end
  end.

Definition process__genericResampling_body `{MixerOps} (w : world) : option world :=
  for_each
    (fun (w : world) (pair : Z * list Z) =>
       let '(m, mem) := w in
       let group := snd pair in
       let numFrames := mFrameCount m in
       match mOutputTemp m, head group with
       | Some outTemp, Some name1 =>
           match mTracks m !! name1 with
           | None => None
           | Some t1 =>
               (* clear temp buffer *)
               let outTemp :=
                 array_write outTemp 0
                   (replicate (Z.to_nat (mMixerChannelCount t1 * mFrameCount m)) zero_bits) in
               match
                 for_each
                   (fun (st : mix_state) (name : Z) =>
                      match mTracks (fst (fst st)) !! name with
                      | None => None
                      | Some t =>
                          let aux := if negb (Z.land (needs t) NEEDS_AUX =? 0)
                                     then Some (auxBuffer t) else None in
                          if negb (Z.land (needs t) NEEDS_RESAMPLE =? 0)
                          then invoke_hook name t 0 numFrames
                                           ((fun a => (a, 0)) <$> aux) st
                          else resampling_pull_loop (S (provider_length t)) name numFrames 0
                                                    aux st
                      end)
                   (m, outTemp, mem) group
               with
               | None => None
               | Some (m, outTemp, mem) =>
                   match mTracks m !! name1 with
                   | None => None
                   | Some t1 =>
                       let count := numFrames * mMixerChannelCount t1 in
                       match convertMixerFormat (mMixerFormat t1) outTemp
                                                (mMixerInFormat t1) count with
                       | None => None
                       | Some data =>
                           Some (set_mOutputTemp (Some outTemp) m,
                                 mem_write mem (mainBuffer t1) 0 data)
                       end
                   end
               end
           end
       | _, _ => None
       end)
    w (map_to_list (mGroups (fst w))).

(** [process__oneTrack16BitsStereoNoResampling]: the function aborts unless
    [mEnabled] is empty (line 1230), and then reads [mEnabled[0]]. *)
Definition process__oneTrack16BitsStereoNoResampling_body (w : world) : option world :=
  if negb (length (mEnabled (fst w)) =? 0)%nat then None
  else match mEnabled (fst w) !! 0%nat with
       | None => None
       | Some _ => None
       end.

(** Lines 1461-1491: the loop of [process__noResampleOneTrack]; [out] and
    [auxo] are the element offsets reached in the main and the aux buffer.
    The result tells whether the loop ran to its end ([true]) or returned
    from the function at a null buffer ([false]). *)
Fixpoint oneTrack_loop `{MixerOps} (fuel : nat) (mt : MIXTYPE) (TO TI TA : ctype)
  (name numFrames out auxo : Z) (ramp : bool) (w : world) : option (bool * world) :=
  match fuel with
  | O => None
  | S fuel =>
      if numFrames <=? 0 then Some (true, w)
      else
        let '(m, mem) := w in
        match mTracks m !! name with
        | None => None
        | Some t =>
            match bufferProvider t with
            | None => None
            | Some p =>
                let channels := mMixerChannelCount t in
                let '(b, p') := getNextBuffer p numFrames in
                let t := set_bufferProvider (Some p') (set_buffer b t) in
                match raw b with
                | None =>
                    let bytes := numFrames * channels * audio_bytes_per_sample (mMixerFormat t) in
                    Some (false, (putTrack name t m,
                                  memset0 mem (mainBuffer t) out
                                          (elements_of_bytes bytes (sizeof TO))))
                | Some in_ =>
                    let outFrames := buf_frameCount b in
                    let n := outFrames * channels in
                    let aux := if auxBuffer t =? 0 then None
                               else Some (mem_read mem (auxBuffer t) auxo outFrames) in
                    let '(t, out', aux') :=
                      volumeMix mt (is_float TI) false TO TI TA t
                                (mem_read mem (mainBuffer t) out n) outFrames in_ aux ramp in
                    let mem := mem_write mem (mainBuffer t) out (region n out') in
                    let mem := match aux' with
                               | Some r => mem_write mem (auxBuffer t) auxo (region outFrames r)
                               | None => mem
                               end in
                    oneTrack_loop fuel mt TO TI TA name (numFrames - buf_frameCount b)
                                  (out + n) (if auxBuffer t =? 0 then auxo else auxo + outFrames)
                                  ramp (putTrack name t m, mem)
                end
            end
        end
  end.

Definition process__noResampleOneTrack_body `{MixerOps} (mt : MIXTYPE) (TO TI TA : ctype)
  (w : world) : option world :=
  let '(m, mem) := w in
  match mEnabled m with
  | [name] =>
      match mTracks m !! name with
      | None => None
      | Some t =>
          let ramp := needsRamp t in
          match oneTrack_loop (S (provider_length t)) mt TO TI TA name (mFrameCount m) 0 0
                              ramp (m, mem) with
          | None => None
          | Some (false, w) => Some w
          | Some (true, (m, mem)) =>
              if ramp then
                match mTracks m !! name with
                | None => None
                | Some t =>
                    Some (putTrack name
                            (adjustVolumeRamp (negb (auxBuffer t =? 0)) (is_float TI) t) m,
                          mem)
                end
              else Some (m, mem)
          end
      end
  | _ => None
  end.

(** The hooks that [process__validate] can install. *)
Definition run_process_hook `{MixerOps} (h : process_hook_t) (w : world) : option world :=
  match h with
  | process__validate => None
  | process__nop => process__nop_body w
  | process__genericNoResampling => process__genericNoResampling_body w
  | process__genericResampling => process__genericResampling_body w
  | process__oneTrack16BitsStereoNoResampling =>
      process__oneTrack16BitsStereoNoResampling_body w
  | process__noResampleOneTrack mt TO TI TA => process__noResampleOneTrack_body mt TO TI TA w
  end.

(** ** [process__validate] and [process] *)

(** The locals of the first loop of [process__validate]. *)
Record validate_flags := mkFlags {
  all16BitsStereoNoResample : bool;
  resampling : bool;
  volumeRamp : bool
}.

(** Lines 640-704: the needs and the hook of one enabled track. *)
Definition validate_track (t : TrackBase) (fl : validate_flags)
  : option (TrackBase * validate_flags) :=
  let n := 0 in
  let n := Z.lor n (uint32 (NEEDS_CHANNEL_1 + channelCount t - 1)) in
  let n := if doesResample t then Z.lor n NEEDS_RESAMPLE else n in
  let n := if negb (auxLevel t =? 0) && negb (auxBuffer t =? 0)
           then Z.lor n NEEDS_AUX else n in
  let ramping := negb (Z.lor (volumeInc t 0) (volumeInc t 1) =? 0) in
  let n := if ramping then n
           else if negb (doesResample t) && isVolumeMuted t then Z.lor n NEEDS_MUTE
                else n in
  let fl := if ramping
            then mkFlags (all16BitsStereoNoResample fl) (resampling fl) true else fl in
  let t := set_needs n t in
  let chan := Z.land n NEEDS_CHANNEL_COUNT__MASK in
  if negb (Z.land n NEEDS_MUTE =? 0) then Some (set_hook (Some track__nop) t, fl)
  else
    let fl := if negb (Z.land n NEEDS_AUX =? 0)
              then mkFlags false (resampling fl) (volumeRamp fl) else fl in
    if negb (Z.land n NEEDS_RESAMPLE =? 0) then
      let fl := mkFlags false true (volumeRamp fl) in
      let trackType :=
        if (chan =? NEEDS_CHANNEL_1) && (channelMask t =? AUDIO_CHANNEL_OUT_MONO)
           && isAudioChannelPositionMask (mMixerChannelMask t)
        then TRACKTYPE_RESAMPLEMONO
        else if (NEEDS_CHANNEL_2 <=? chan) && useStereoVolume t
             then TRACKTYPE_RESAMPLESTEREO
             else TRACKTYPE_RESAMPLE in
      match getTrackHook trackType (mMixerChannelCount t) (mMixerInFormat t) (mMixerFormat t) with
      | None => None
      | Some h => Some (set_hook (Some h) t, fl)
      end
    else
      let r1 :=
        if chan =? NEEDS_CHANNEL_1 then
          match getTrackHook
                  (if isAudioChannelPositionMask (mMixerChannelMask t)
                      && (channelMask t =? AUDIO_CHANNEL_OUT_MONO)
                   then TRACKTYPE_NORESAMPLEMONO else TRACKTYPE_NORESAMPLE)
                  (mMixerChannelCount t) (mMixerInFormat t) (mMixerFormat t) with
          | None => None
          | Some h =>
              Some (set_hook (Some h) t,
                    mkFlags false (resampling fl) (volumeRamp fl))
          end
        else Some (t, fl) in
      match r1 with
      | None => None
      | Some (t, fl) =>
          if NEEDS_CHANNEL_2 <=? chan then
            match getTrackHook
                    (if useStereoVolume t then TRACKTYPE_NORESAMPLESTEREO
                     else TRACKTYPE_NORESAMPLE)
                    (mMixerChannelCount t) (mMixerInFormat t) (mMixerFormat t) with
            | None => None
            | Some h => Some (set_hook (Some h) t, fl)
            end
          else Some (t, fl)
      end.

(** [mGroups[key].emplace_back(name)]. *)
Definition group_add (key name : Z) (g : gmap Z (list Z)) : gmap Z (list Z) :=
  <[key := default [] (g !! key) ++ [name]]> g.

(** Lines 630-705: the loop over [mTracks]. *)
Definition validate_scan (m : AudioMixerBase) : option (AudioMixerBase * validate_flags) :=
  for_each
    (fun (s : AudioMixerBase * validate_flags) (name : Z) =>
       let '(m, fl) := s in
       match mTracks m !! name with
       | None => None
       | Some t =>
           if negb (enabled t) then Some (m, fl)
           else
             let m := set_mGroups_mEnabled (group_add (mainBuffer t) name (mGroups m))
                                           (mEnabled m ++ [name]) m in
             match validate_track t fl with
             | None => None
             | Some (t, fl) => Some (putTrack name t m, fl)
             end
       end)
    (set_mGroups_mEnabled ∅ [] m, mkFlags true false false)
    (trackNames m).

(** Lines 707-737: the process hook chosen before the ramp pass. *)
Definition validate_select (m : AudioMixerBase) (fl : validate_flags)
  : option AudioMixerBase :=
  let m := set_mHook process__nop m in
  if (0 <? length (mEnabled m))%nat then
    if resampling fl then
      let size := Z.to_nat (MAX_NUM_CHANNELS * mFrameCount m) in
      let m := match mOutputTemp m with
               | None => set_mOutputTemp (Some (replicate size zero_bits)) m
               | Some _ => m
               end in
      let m := match mResampleTemp m with
               | None => set_mResampleTemp (Some (replicate size zero_bits)) m
               | Some _ => m
               end in
      Some (set_mHook process__genericResampling m)
    else
      let m := set_mHook process__genericNoResampling m in
      if all16BitsStereoNoResample fl && negb (volumeRamp fl) then
        match mEnabled m with
        | [name] =>
            match mTracks m !! name with
            | None => None
            | Some t =>
                if Z.land (needs t) NEEDS_MUTE =? 0 then
                  match getProcessHook PROCESSTYPE_NORESAMPLEONETRACK
                                       (mMixerChannelCount t) (mMixerInFormat t)
                                       (mMixerFormat t) (useStereoVolume t) with
                  | None => None
                  | Some h => Some (set_mHook h m)
                  end
                else Some m
            end
        | _ => Some m
        end
      else Some m
  else Some m.

(** Lines 745-771: after the ramp pass, muted tracks get [track__nop] and the
    process hook is chosen again. *)
Definition validate_finish (m : AudioMixerBase) (fl : validate_flags)
  : option AudioMixerBase :=
  if (0 <? length (mEnabled m))%nat then
    match
      for_each
        (fun (s : AudioMixerBase * bool) (name : Z) =>
           let '(m, allMuted) := s in
           match mTracks m !! name with
           | None => None
           | Some t =>
               if negb (doesResample t) && isVolumeMuted t
               then Some (putTrack name
                            (set_hook (Some track__nop)
                               (set_needs (Z.lor (needs t) NEEDS_MUTE) t)) m,
                          allMuted)
               else Some (m, false)
           end)
        (m, true) (mEnabled m)
    with
    | None => None
    | Some (m, allMuted) =>
        if allMuted then Some (set_mHook process__nop m)
        else if all16BitsStereoNoResample fl then
          match mEnabled m with
          | [name] =>
              match mTracks m !! name with
              | None => None
              | Some t =>
                  match getProcessHook PROCESSTYPE_NORESAMPLEONETRACK
                                       (mMixerChannelCount t) (mMixerInFormat t)
                                       (mMixerFormat t) (useStereoVolume t) with
                  | None => None
                  | Some h => Some (set_mHook h m)
                  end
              end
          | _ => Some m
          end
        else Some m
    end
  else Some m.

(** [process__validate]: [process()] at line 743 runs the hook that was just
    selected, which is never [process__validate] itself. *)
Definition process__validate_body `{MixerOps} (w : world) : option world :=
  let '(m, mem) := w in
  match validate_scan m with
  | None => None
  | Some (m, fl) =>
      match validate_select m fl with
      | None => None
      | Some m =>
          match run_process_hook (mHook m) (m, mem) with
          | None => None
          | Some (m, mem) =>
              match validate_finish m fl with
              | None => None
              | Some m => Some (m, mem)
              end
          end
      end
  end.

(** [process()]: [preProcess] and [postProcess] are empty in this class. *)
Definition process `{MixerOps} (w : world) : option world :=
  match mHook (fst w) with
  | process__validate => process__validate_body w
  | h => run_process_hook h w
  end.

(** ** Predicates of the statements *)

(** A value that [sanitizeVolume] leaves alone: a zero or a normal number of
    (0, 1]. *)
Definition sanitized (s : float) : Prop := sanitizeVolume s = s.

(** [0 <= s <= 1.0], as the comparisons of C++ decide it. *)
Definition in_unit (s : float) : bool := F32.leb F32.zero s && F32.leb s F32.one.

(** The inputs the claim lists. *)
Definition clamped_to_zero (x : float) : Prop :=
  F32.fpclassify x = F32.FP_NAN \/ F32.fpclassify x = F32.FP_SUBNORMAL
  \/ F32.ltb x F32.zero = true.

Definition clamped_to_one (x : float) : Prop :=
  x = S754_infinity false \/ F32.ltb UNITY_GAIN_FLOAT x = true.


(** Every committed channel volume of every track is sanitized. *)
Definition volumes_sanitized (m : AudioMixerBase) : Prop :=
  forall name t, mTracks m !! name = Some t ->
    sanitized (mVolume t 0) /\ sanitized (mVolume t 1).

(** ** Configurations on which the statements are run *)

(** A mixer of 64 frames at 48 kHz with one stereo 16-bit track, name 1. *)
Definition mixer_one_track : AudioMixerBase :=
  match create (newMixer 64 48000) 1 AUDIO_CHANNEL_OUT_STEREO AUDIO_FORMAT_PCM_16_BIT 0 with
  | Some (_, m) => m
  | None => newMixer 64 48000
  end.

(** The binary32 number 0.7501220703125 = 6145 * 2^-13. *)
Definition f_0_75012207 : float := S754_finite false 12584960 (-24).

(** A track with every field 0 or null (what a lookup that cannot fail is
    given as default). *)
Definition null_track : TrackBase :=
  mkTrack 0 zeroVolumeVars zeroVolumeVars zeroVolumeVars 0 0 false 0
          None (mkBuffer None 0) None None None 0 0 0 0 0 0 0 0 0 0 0 0.

(** The track 1 of a mixer of [frames] frames at 48 kHz after [create] and
    [setParameter(1, RAMP_VOLUME, VOLUME0, x)]. *)
Definition ramping_track (frames : Z) (x : float) : TrackBase :=
  match create (newMixer frames 48000) 1 AUDIO_CHANNEL_OUT_STEREO AUDIO_FORMAT_PCM_16_BIT 0 with
  | Some (_, m) =>
      match setParameter m 1 RAMP_VOLUME VOLUME0 (mkValue 0 x) with
      | Some m' => default null_track (mTracks m' !! 1)
      | None => null_track
      end
  | None => null_track
  end.

(** A one-frame ramp to 0.7501220703125. *)
Definition ramping_track_1frame : TrackBase := ramping_track 1 f_0_75012207.

(** A 480-frame ramp from 0 to 2^-12 (the U4.12 volume 1), and the call of
    [volumeRampStereo] that runs it over a constant input. *)
Definition ramping_track_480 : TrackBase :=
  ramping_track 480 (S754_finite false 8388608 (-35)).

Definition ramp_480_result : option (TrackBase * list sample * option (list sample)) :=
  volumeRampStereo ramping_track_480 (replicate 960 (SInt 0)) 480
                   (replicate 960 (SInt 0x7FFF000)) None.

(** What the float ramp kernel does to the volume of a channel in one frame:
    [vol[i] += volinc[i]]. *)
Definition advancePrevVolume (v : VolumeVars) : VolumeVars :=
  setPrevVolume (F32.add (PrevVolume v) (VolumeInc v)) v.

(** The U4.28 accumulator of a ramp loop after [n] frames: [v += inc] in
    [int32_t] arithmetic, [n] times. *)
Fixpoint ramp_acc (n : nat) (v inc : Z) : Z :=
  match n with
  | O => v
  | S n' => ramp_acc n' (int32 (v + inc)) inc
  end.

(** Modelled from the spec: the volume of the float ramp kernels of
    AudioMixerOps.h (not part of the sources) at a frame.  "The inner loop
    advances prev += inc per output frame": frame [n] of a call is
    multiplied by the previous volume advanced [n] times by the increment,
    in binary32 arithmetic. *)
Fixpoint float_ramp (n : nat) (prev inc : float) : float :=
  match n with
  | O => prev
  | S n' => float_ramp n' (F32.add prev inc) inc
  end.


(** The call of the float ramp kernel that [volumeMix] makes for the track
    (lines 1404-1411), and the volume of channel [c] among the results. *)
Definition ramp_kernel_call `{MixerOps} (mt : MIXTYPE) (TO TI TA : ctype) (t : TrackBase)
  (out : list sample) (outFrames : Z) (in_ : list sample) (aux : option (list sample))
  : list sample * option (list sample) * (float * float) * float :=
  ops_volumeRampMulti_float (MIXTYPE_MONOVOL mt (mMixerChannelCount t))
    (mMixerChannelCount t) TO TI TA out outFrames in_ aux
    (mPrevVolume t 0, mPrevVolume t 1) (mVolumeInc t 0, mVolumeInc t 1)
    (mPrevAuxLevel t) (mAuxInc t).

Definition kernel_volume (c : Z)
  (r : list sample * option (list sample) * (float * float) * float) : float :=
  if c =? 0 then fst (snd (fst r)) else snd (snd (fst r)).

(** Modelled from the spec: the float kernels of AudioMixerOps.h (not part
    of the sources) at two channels with float input and output.  Each
    output sample accumulates the input sample times the gain of its
    channel, or receives it for the SAVEONLY mix types; the single-channel
    aux buffer accumulates the sum of the two inputs times the aux level;
    the ramp kernel advances the gains after every frame ("the inner loop
    advances prev += inc per output frame").  The other instances are not
    modelled and leave their arguments as they are; the sample conversions
    are the identity. *)
Definition fval (s : sample) : float :=
  match s with SFloat f => f | SInt z => F32.of_int z end.

Definition is_saveonly (mt : MIXTYPE) : bool :=
  match mt with
  | MIXTYPE_MULTI_SAVEONLY | MIXTYPE_MULTI_SAVEONLY_MONOVOL
  | MIXTYPE_MULTI_SAVEONLY_STEREOVOL => true
  | _ => false
  end.

Fixpoint float_kernel2 (n : nat) (save ramp : bool) (vl vr va vlInc vrInc vaInc : float)
  (out in_ : list sample) (aux : option (list sample))
  : list sample * option (list sample) * (float * float) * float :=
  match n with
  | O => (out, aux, (vl, vr), va)
  | S n' =>
      let l := fval (default zero_bits (in_ !! 0%nat)) in
      let r := fval (default zero_bits (in_ !! 1%nat)) in
      let mix (o : sample) (x : float) := SFloat (if save then x else F32.add (fval o) x) in
      let o0' := mix (default zero_bits (out !! 0%nat)) (F32.mul l vl) in
      let o1' := mix (default zero_bits (out !! 1%nat)) (F32.mul r vr) in
      let aux_here :=
        (fun a => SFloat (F32.add (fval (default zero_bits (a !! 0%nat)))
                                  (F32.mul (F32.add l r) va))) <$> aux in
      let advance (v inc : float) := if ramp then F32.add v inc else v in
      let va' := match aux with Some _ => advance va vaInc | None => va end in
      let '(rest, arest, vols, va_end) :=
        float_kernel2 n' save ramp (advance vl vlInc) (advance vr vrInc) va'
                      vlInc vrInc vaInc (drop 2 out) (drop 2 in_) (drop 1 <$> aux) in
      (o0' :: o1' :: rest, aux_cons aux_here arest, vols, va_end)
  end.

Definition float_kernels : MixerOps :=
  {| ops_volumeRampMulti_float :=
       fun mt channels TO TI TA out n in_ aux vol inc auxLevel auxInc =>
         if (channels =? 2) && is_float TO && is_float TI
         then float_kernel2 (Z.to_nat n) (is_saveonly mt) true (fst vol) (snd vol) auxLevel
                            (fst inc) (snd inc) auxInc out in_ aux
         else (out, aux, vol, auxLevel);
     ops_volumeMulti_float :=
       fun mt channels TO TI TA out n in_ aux vol auxLevel =>
         if (channels =? 2) && is_float TO && is_float TI
         then fst (fst (float_kernel2 (Z.to_nat n) (is_saveonly mt) false
                                      (fst vol) (snd vol) auxLevel
                                      F32.zero F32.zero F32.zero out in_ aux))
         else (out, aux);
     ops_volumeRampMulti_int :=
       fun _ _ _ _ _ out _ _ aux vol _ auxLevel _ => (out, aux, vol, auxLevel);
     ops_volumeMulti_int := fun _ _ _ _ _ out _ _ aux _ _ => (out, aux);
     ops_resample := fun r out _ p => (out, r, p);
     ops_memcpy_to_i16_from_float := fun l => l;
     ops_memcpy_to_float_from_q4_27 := fun l => l;
     ops_memcpy_to_i16_from_q4_27 := fun l => l;
     ops_mulAdd := fun _ _ acc => acc;
     ops_mulAddRL := fun _ _ _ acc => acc;
     ops_mulRL := fun _ _ _ => 0 |}.

(** ** The control plane as a sequence of calls *)

(** The [(target, param)] pairs that the switch of [setParameter] handles. *)
Definition recognised_parameter (target param : Z) : bool :=
  ((target =? TRACK)
     && bool_decide (param ∈ [CHANNEL_MASK; MAIN_BUFFER; AUX_BUFFER; FORMAT; MIXER_FORMAT;
                              MIXER_CHANNEL_MASK; TEE_BUFFER; TEE_BUFFER_FRAME_COUNT]))
  || ((target =? RESAMPLE) && bool_decide (param ∈ [SAMPLE_RATE; RESET; REMOVE]))
  || (((target =? RAMP_VOLUME) || (target =? VOLUME))
        && ((param =? AUXLEVEL)
            || ((VOLUME0 <=? uint32 param) && (uint32 param <? VOLUME0 + MAX_NUM_VOLUMES)))).

(** The checks [setParameter] asserts on the value of a handled pair: the
    channel counts of the two channel-mask cases (in [setChannelMasks], once
    a mask differs from the track's), the format of FORMAT (once it differs)
    and the rate of SAMPLE_RATE. *)
Definition zero_channels (t : TrackBase) (trackChannelMask mixerChannelMask : Z) : bool :=
  negb ((trackChannelMask =? channelMask t) && (mixerChannelMask =? mMixerChannelMask t))
  && ((audio_channel_count_from_out_mask trackChannelMask =? 0)
      || (audio_channel_count_from_out_mask mixerChannelMask =? 0)).

Definition failed_assertion (t : TrackBase) (target param : Z) (value : Value) : bool :=
  ((target =? TRACK) && (param =? CHANNEL_MASK)
     && zero_channels t (uint32 (valueInt value)) (mMixerChannelMask t))
  || ((target =? TRACK) && (param =? MIXER_CHANNEL_MASK)
        && zero_channels t (channelMask t) (uint32 (valueInt value)))
  || ((target =? TRACK) && (param =? FORMAT)
        && negb (mFormat t =? valueInt value)
        && negb (audio_is_linear_pcm (valueInt value)))
  || ((target =? RESAMPLE) && (param =? SAMPLE_RATE) && (valueInt value <=? 0)).

(** A call of the control plane. *)
Inductive control_op :=
| OpCreate (name channelMask format sessionId : Z)
| OpDestroy (name : Z)
| OpEnable (name : Z)
| OpDisable (name : Z)
| OpSetParameter (name target param : Z) (value : Value)
| OpSetBufferProvider (name : Z) (p : Provider).

Definition apply_control (m : AudioMixerBase) (op : control_op) : option AudioMixerBase :=
  match op with
  | OpCreate name channelMask format sessionId =>
      snd <$> create m name channelMask format sessionId
  | OpDestroy name => destroy m name
  | OpEnable name => enable m name
  | OpDisable name => disable m name
  | OpSetParameter name target param value => setParameter m name target param value
  | OpSetBufferProvider name p => setBufferProvider m name p
  end.

(** The calls in order; [None] when one of them aborts. *)
Definition run_control (ops : list control_op) (m : AudioMixerBase) : option AudioMixerBase :=
  for_each apply_control m ops.

(** The resampler of a track was made for the track as it is now. *)
Definition resampler_matches (m : AudioMixerBase) (t : TrackBase) : Prop :=
  match mResampler t with
  | None => sampleRate t = mSampleRate m
  | Some r => rs_devSampleRate r = mSampleRate m
              /\ rs_channelCount r = channelCount t
              /\ rs_format r = mMixerInFormat t
  end.

Definition resamplers_match (m : AudioMixerBase) : Prop :=
  forall name t, mTracks m !! name = Some t -> resampler_matches m t.


(** ** The registry as [process__validate] reads it *)

(** The track [name] exists and is enabled. *)
Definition is_enabled (m : AudioMixerBase) (name : Z) : Prop :=
  enabled <$> mTracks m !! name = Some true.

(** The track [name] is enabled and its main buffer is [key]. *)
Definition mixes_into (m : AudioMixerBase) (key name : Z) : Prop :=
  is_enabled m name /\ mainBuffer <$> mTracks m !! name = Some key.

#[global] Instance is_enabled_dec (m : AudioMixerBase) (name : Z)
  : Decision (is_enabled m name) :=
  decide (enabled <$> mTracks m !! name = Some true).

#[global] Instance mixes_into_dec (m : AudioMixerBase) (key name : Z)
  : Decision (mixes_into m key name) :=
  decide (enabled <$> mTracks m !! name = Some true
          /\ mainBuffer <$> mTracks m !! name = Some key).

(** Lines 640-654: the value that the scan stores in [t->needs]. *)
Definition needs_of (t : TrackBase) : Z :=
  let n := Z.lor 0 (uint32 (NEEDS_CHANNEL_1 + channelCount t - 1)) in
  let n := if doesResample t then Z.lor n NEEDS_RESAMPLE else n in
  let n := if negb (auxLevel t =? 0) && negb (auxBuffer t =? 0)
           then Z.lor n NEEDS_AUX else n in
  if negb (Z.lor (volumeInc t 0) (volumeInc t 1) =? 0) then n
  else if negb (doesResample t) && isVolumeMuted t then Z.lor n NEEDS_MUTE
       else n.

(** A registry for the scan: tracks 1 and 3 enabled and mixing into buffer
    100, track 2 created but not enabled. *)
Definition mixer_three_tracks : AudioMixerBase :=
  default (newMixer 64 48000)
    (run_control
       [OpCreate 3 AUDIO_CHANNEL_OUT_STEREO AUDIO_FORMAT_PCM_16_BIT 0;
        OpCreate 1 AUDIO_CHANNEL_OUT_MONO AUDIO_FORMAT_PCM_FLOAT 0;
        OpCreate 2 AUDIO_CHANNEL_OUT_STEREO AUDIO_FORMAT_PCM_16_BIT 0;
        OpSetParameter 1 TRACK MAIN_BUFFER (mkValue 100 F32.zero);
        OpSetParameter 3 TRACK MAIN_BUFFER (mkValue 100 F32.zero);
        OpSetParameter 2 TRACK MAIN_BUFFER (mkValue 200 F32.zero);
        OpSetParameter 1 VOLUME VOLUME0 (mkValue 0 F32.one);
        OpEnable 3; OpEnable 1]
       (newMixer 64 48000)).

(** Kernels that leave every buffer and volume as they find it: an
    implementation of the collaborators on which the control flow of the
    mixer can be evaluated. *)
Definition passthrough_ops : MixerOps :=
  {| ops_volumeRampMulti_float :=
       fun _ _ _ _ _ out _ _ aux vol _ auxLevel _ => (out, aux, vol, auxLevel);
     ops_volumeMulti_float := fun _ _ _ _ _ out _ _ aux _ _ => (out, aux);
     ops_volumeRampMulti_int :=
       fun _ _ _ _ _ out _ _ aux vol _ auxLevel _ => (out, aux, vol, auxLevel);
     ops_volumeMulti_int := fun _ _ _ _ _ out _ _ aux _ _ => (out, aux);
     ops_resample := fun r out _ p => (out, r, p);
     ops_memcpy_to_i16_from_float := fun l => l;
     ops_memcpy_to_float_from_q4_27 := fun l => l;
     ops_memcpy_to_i16_from_q4_27 := fun l => l;
     ops_mulAdd := fun _ _ acc => acc;
     ops_mulAddRL := fun _ _ _ acc => acc;
     ops_mulRL := fun _ _ _ => 0 |}.





(** ** What the data plane leaves alone *)

(** The target of a volume, in both representations. *)
Definition targets (v : VolumeVars) : Z * float := (IntSetVolume v, SetVolume v).

(** [bufferProvider != nullptr]. *)
Definition hasProvider (t : TrackBase) : bool :=
  match bufferProvider t with Some _ => true | None => false end.

(** What the control plane sets of a track: all fields but the state of a
    ramp (previous volumes and increments), the state of the input (buffer,
    [frameCount], [mIn], what the provider has left), the state of the
    resampler, and the needs and the hook that [process__validate]
    computes. *)
Definition control_of (t : TrackBase) :=
  (enabled t, channelMask t, channelCount t, sampleRate t,
   (mainBuffer t, auxBuffer t, teeBuffer t), sessionId t,
   (mMixerFormat t, mFormat t, mMixerInFormat t),
   (mMixerChannelMask t, mMixerChannelCount t),
   (mTeeBufferFrameCount t, mInputFrameSize t),
   (targets (vol0 t), targets (vol1 t), targets (auxv t)),
   doesResample t, hasProvider t).

Definition config_of (t : TrackBase) := (needs t, hook t, control_of t).

(** What a process hook reads of the mixer to decide what to run. *)
Definition schedule_of (m : AudioMixerBase) :=
  (mHook m, mSampleRate m, mFrameCount m, mGroups m, mEnabled m, config_of <$> mTracks m).

Definition controls_of (m : AudioMixerBase) :=
  (mSampleRate m, mFrameCount m, control_of <$> mTracks m).

(** Tracks 1 and 3 of [mixer_three_tracks] with one buffer of 64 frames each
    to play. *)
Definition mixer_playing : AudioMixerBase :=
  default mixer_three_tracks
    (run_control
       [OpSetBufferProvider 1 [mkBuffer (Some (replicate 64 (SFloat F32.one))) 64];
        OpSetBufferProvider 3 [mkBuffer (Some (replicate 128 (SFloat F32.one))) 64]]
       mixer_three_tracks).

Definition silence : Memory := fun _ _ => zero_bits.

(** The number of elements that [process__nop] clears in the main buffer of
    [t] (the byte count of its [memset] over the size of one sample). *)
Definition nop_elements (m : AudioMixerBase) (t : TrackBase) : Z :=
  elements_of_bytes
    (mFrameCount m * audio_bytes_per_frame (getMixerChannelCount t) (mMixerFormat t))
    (audio_bytes_per_sample (mMixerFormat t)).

(** Element [i] of buffer [p] lies in the region that [process__nop] clears
    for the group [g]: the main buffer of the first track of the group. *)
Definition nop_clears (m : AudioMixerBase) (g : list Z) (p i : Z) : Prop :=
  exists name0 t, head g = Some name0 /\ mTracks m !! name0 = Some t
                  /\ p = mainBuffer t /\ 0 <= i < nop_elements m t.

(** The track of [mixer_one_track] enabled, with main buffer 100, an
    exhausted provider and its volumes at zero. *)
Definition mixer_muted : AudioMixerBase :=
  default mixer_one_track
    (run_control [OpSetParameter 1 TRACK MAIN_BUFFER (mkValue 100 F32.zero);
                  OpSetBufferProvider 1 []; OpEnable 1]
                 mixer_one_track).

(** [mixer_muted] after a first [process] with the pass-through kernels. *)
Definition mixer_muted_validated : AudioMixerBase :=
  fst (default (mixer_muted, silence) (@process passthrough_ops (mixer_muted, silence))).

Definition noise : Memory := fun _ _ => SInt 1.

(** The track of [mixer_one_track] at full volume on the left, with main
    buffer 100 and one buffer of 64 stereo frames to play, enabled. *)
Definition mixer_one_playing : AudioMixerBase :=
  default mixer_one_track
    (run_control [OpSetParameter 1 TRACK MAIN_BUFFER (mkValue 100 F32.zero);
                  OpSetParameter 1 VOLUME VOLUME0 (mkValue 0 F32.one);
                  OpSetBufferProvider 1 [mkBuffer (Some (replicate 128 (SFloat F32.one))) 64];
                  OpEnable 1]
                 mixer_one_track).

(** [mixer_one_playing] after a first [process] with the pass-through
    kernels: the hooks are those of a 16-bit mixer format. *)
Definition mixer_one_validated : AudioMixerBase :=
  fst (default (mixer_one_playing, silence)
               (@process passthrough_ops (mixer_one_playing, silence))).


(** [mixer_playing] with track 1 at 44.1 kHz, hence with a resampler. *)
Definition mixer_resampling : AudioMixerBase :=
  default mixer_playing
    (run_control [OpSetParameter 1 RESAMPLE SAMPLE_RATE (mkValue 44100 F32.zero)]
                 mixer_playing).

(** * Properties *)

(** ** binary32 comparisons *)

Lemma F32_eqb_finite (s1 s2 : bool) (m1 m2 : positive) (e1 e2 : Z) :
  F32.eqb (S754_finite s1 m1 e1) (S754_finite s2 m2 e2) = true ->
  s1 = s2 /\ m1 = m2 /\ e1 = e2.
Proof.
  unfold F32.eqb, SFeqb, SFcompare.
  destruct s1, s2; try discriminate;
    destruct (Z.compare_spec e1 e2) as [He | He | He]; try discriminate;
    rewrite Pos.compare_cont_spec; simpl;
    destruct (Pos.compare_spec m1 m2) as [Hm | Hm | Hm]; try discriminate;
    intros _; subst; auto.
Qed.

(** An input that compares equal to a stored value is that value, or both
    are zeros. *)
Lemma F32_eqb_true (x s : float) :
  F32.eqb x s = true ->
  x = s \/ (exists a b, x = S754_zero a /\ s = S754_zero b).
Proof.
  destruct x as [a | a | | a m e], s as [b | b | | b m' e'];
    try discriminate;
    try (destruct a; discriminate); try (destruct b; discriminate);
    try (destruct a, b; discriminate).
  - right; eauto.
  - destruct a, b; try discriminate; auto.
  - intros H; apply F32_eqb_finite in H as (-> & -> & ->); auto.
Qed.

Lemma F32_compare_one_antisym (m : positive) (e : Z) :
  F32.ltb F32.one (S754_finite false m e) = false ->
  F32.leb (S754_finite false m e) F32.one = true.
Proof.
  unfold F32.ltb, F32.leb, SFltb, SFleb, F32.one, SFcompare.
  destruct (Z.compare_spec (-23) e) as [He | He | He].
  - subst e. rewrite Z.compare_refl, !Pos.compare_cont_spec. simpl.
    rewrite (Pos.compare_antisym m 8388608).
    destruct (Pos.compare m 8388608); simpl; congruence.
  - discriminate.
  - intros _. assert ((e ?= -23) = Lt) as -> by (apply Z.compare_lt_iff; lia). reflexivity.
Qed.

(** ** C4, C5: the volume variables *)

Lemma sanitizeVolume_cases (x : float) :
  sanitizeVolume x = F32.zero \/ sanitizeVolume x = UNITY_GAIN_FLOAT
  \/ (sanitizeVolume x = x /\ F32.ltb x F32.zero = false
      /\ (F32.fpclassify x = F32.FP_ZERO
          \/ (F32.fpclassify x = F32.FP_NORMAL /\ F32.ltb UNITY_GAIN_FLOAT x = false))).
Proof.
  unfold sanitizeVolume.
  destruct (F32.ltb x F32.zero) eqn:Hneg; auto.
  destruct (F32.fpclassify x) eqn:Hc; auto.
  - right; right; auto.
  - destruct (F32.ltb UNITY_GAIN_FLOAT x) eqn:Hgt; auto.
    right; right; auto.
Qed.

Lemma sanitizeVolume_in_unit (x : float) : in_unit (sanitizeVolume x) = true.
Proof.
  destruct (sanitizeVolume_cases x) as [-> | [-> | (-> & Hneg & Hc)]]; try reflexivity.
  destruct x as [a | a | | a m e].
  - reflexivity.
  - destruct Hc as [Hc | [Hc _]]; destruct a; discriminate.
  - destruct Hc as [Hc | [Hc _]]; discriminate.
  - destruct a; [discriminate |].
    destruct Hc as [Hc | [Hc Hgt]].
    + unfold F32.fpclassify, SFclassify in Hc.
      destruct (Z.pos (digits2_pos m) =? F32.prec); discriminate.
    + unfold in_unit. rewrite (F32_compare_one_antisym _ _ Hgt). reflexivity.
Qed.

Lemma sanitizeVolume_idem (x : float) : sanitized (sanitizeVolume x).
Proof.
  unfold sanitized.
  destruct (sanitizeVolume_cases x) as [-> | [-> | (Hx & Hneg & Hc)]]; try reflexivity.
  rewrite Hx. exact Hx.
Qed.

Lemma sanitizeVolume_zero (x : float) : clamped_to_zero x -> sanitizeVolume x = F32.zero.
Proof.
  unfold sanitizeVolume. intros [H | [H | H]]; rewrite ?H.
  - destruct (F32.ltb x F32.zero); reflexivity.
  - destruct (F32.ltb x F32.zero); reflexivity.
  - reflexivity.
Qed.

(** A well-formed number above 1.0 is normal. *)
Lemma F32_above_one_normal (x : float) :
  F32.valid x = true -> F32.ltb UNITY_GAIN_FLOAT x = true ->
  x = S754_infinity false \/ (F32.fpclassify x = F32.FP_NORMAL /\ F32.ltb x F32.zero = false).
Proof.
  destruct x as [a | a | | a m e].
  - destruct a; discriminate.
  - destruct a; [discriminate | auto].
  - discriminate.
  - destruct a; [discriminate |].
  intros Hv Hgt. right. split; [| reflexivity].
  unfold F32.valid, valid_binary, bounded, canonical_mantissa, fexp, emin in Hv.
  apply andb_prop in Hv as [Hc _]. apply Z.eqb_eq in Hc.
  unfold F32.ltb, SFltb, UNITY_GAIN_FLOAT, F32.one, SFcompare in Hgt.
  assert (-23 <= e) as He.
  { destruct (Z.compare_spec (-23) e); try lia; discriminate. }
  unfold F32.fpclassify, SFclassify.
  assert (Z.pos (digits2_pos m) = F32.prec) as Hd by (unfold F32.prec, F32.emax in *; lia).
  rewrite Hd, Z.eqb_refl. reflexivity.
Qed.

Lemma sanitizeVolume_one (x : float) :
  F32.valid x = true -> clamped_to_one x -> sanitizeVolume x = UNITY_GAIN_FLOAT.
Proof.
  intros Hv [-> | Hgt]; [reflexivity |].
  destruct (F32_above_one_normal x Hv Hgt) as [-> | [Hc Hneg]]; [reflexivity |].
  unfold sanitizeVolume. rewrite Hneg, Hc, Hgt. reflexivity.
Qed.

(** An input equal to a sanitized stored value needs no clamping. *)
Lemma eqb_sanitized (x s : float) :
  sanitized s -> F32.eqb x s = true -> sanitizeVolume x = x.
Proof.
  intros Hs Heq. destruct (F32_eqb_true x s Heq) as [-> | (a & b & -> & ->)]; [exact Hs |].
  destruct a; reflexivity.
Qed.

Lemma clamped_not_sanitized (x : float) :
  F32.valid x = true -> clamped_to_zero x \/ clamped_to_one x -> sanitizeVolume x = x -> False.
Proof.
  intros Hv [Hz | Ho] Hx.
  - rewrite (sanitizeVolume_zero x Hz) in Hx. subst x.
    destruct Hz as [H | [H | H]]; discriminate.
  - rewrite (sanitizeVolume_one x Hv Ho) in Hx. subst x.
    destruct Ho as [H | H]; discriminate.
Qed.

(** The committed float volume after [setVolumeRampVariables]. *)
Lemma setVolumeRampVariables_SetVolume (x : float) (ramp : Z) (v : VolumeVars) :
  SetVolume (snd (setVolumeRampVariables x ramp v))
  = if F32.eqb x (SetVolume v) then SetVolume v else sanitizeVolume x.
Proof.
  unfold setVolumeRampVariables.
  destruct (F32.eqb x (SetVolume v)); [reflexivity |].
  repeat match goal with
         | |- context [if ?b then _ else _] => destruct b
         end; reflexivity.
Qed.

Lemma setVolumeRampVariables_sanitizes (x : float) (ramp : Z) (v : VolumeVars) :
  F32.valid x = true -> sanitized (SetVolume v) ->
  let s := SetVolume (snd (setVolumeRampVariables x ramp v)) in
  sanitized s /\ in_unit s = true
  /\ (clamped_to_zero x -> s = F32.zero)
  /\ (clamped_to_one x -> s = UNITY_GAIN_FLOAT).
Proof.
  intros Hv Hs. cbv zeta. rewrite setVolumeRampVariables_SetVolume.
  destruct (F32.eqb x (SetVolume v)) eqn:Heq.
  - pose proof (eqb_sanitized x _ Hs Heq) as Hx.
    repeat split.
    + exact Hs.
    + rewrite <- Hs. apply sanitizeVolume_in_unit.
    + intros Hz. exfalso. apply (clamped_not_sanitized x Hv (or_introl Hz) Hx).
    + intros Ho. exfalso. apply (clamped_not_sanitized x Hv (or_intror Ho) Hx).
  - repeat split.
    + apply sanitizeVolume_idem.
    + apply sanitizeVolume_in_unit.
    + apply sanitizeVolume_zero.
    + apply sanitizeVolume_one; assumption.
Qed.



Lemma sanitized_in_unit (s : float) : sanitized s -> in_unit s = true.
Proof. intros Hs. rewrite <- Hs. apply sanitizeVolume_in_unit. Qed.

Lemma mVolume_set_volumeVars (i c : Z) (v : VolumeVars) (t : TrackBase) :
  (i = 0 \/ i = 1) -> (c = 0 \/ c = 1) ->
  mVolume (set_volumeVars i v t) c = if c =? i then SetVolume v else mVolume t c.
Proof.
  intros [-> | ->] [-> | ->]; destruct t; reflexivity.
Qed.

(** C4.  In a mixer whose committed volumes are sanitized (they are when a
    track is created, and the conclusion says they stay so), a call
    [setParameter(name, VOLUME or RAMP_VOLUME, VOLUMEn, x)] on any binary32
    input [x] leaves every committed channel volume sanitized and within
    [0, 1]; the volume of the channel is 0 when [x] is a NaN, a subnormal or
    negative, and 1.0 when [x] is +infinity or above 1.0. *)
Theorem setParameter_volume_sanitized
  (m m' : AudioMixerBase) (name target param : Z) (value : Value) :
  volumes_sanitized m ->
  F32.valid (valueFloat value) = true ->
  target = VOLUME \/ target = RAMP_VOLUME ->
  param = VOLUME0 \/ param = VOLUME1 ->
  setParameter m name target param value = Some m' ->
  volumes_sanitized m'
  /\ (forall n t c, mTracks m' !! n = Some t -> c = 0 \/ c = 1 ->
        in_unit (mVolume t c) = true)
  /\ exists t', mTracks m' !! name = Some t'
       /\ (clamped_to_zero (valueFloat value) ->
           mVolume t' (param - VOLUME0) = F32.zero)
       /\ (clamped_to_one (valueFloat value) ->
           mVolume t' (param - VOLUME0) = UNITY_GAIN_FLOAT).
Proof.
  intros Hinv Hv Htarget Hparam Hset.
  assert (exists track v,
             mTracks m !! name = Some track
             /\ (param - VOLUME0 = 0 \/ param - VOLUME0 = 1)
             /\ v = snd (setVolumeRampVariables (valueFloat value)
                           (if target =? RAMP_VOLUME then int32 (mFrameCount m) else 0)
                           (volumeVars track (param - VOLUME0)))
             /\ (m' = m /\ SetVolume v = mVolume track (param - VOLUME0)
                 \/ m' = invalidate (putTrack name (set_volumeVars (param - VOLUME0) v track) m)))
    as (track & v & Htrack & Hidx & Hvdef & Hm').
  { unfold setParameter in Hset.
    destruct (mTracks m !! name) as [track |] eqn:Htrack; [| discriminate].
    exists track.
    assert ((target =? TRACK) = false) as E1 by (destruct Htarget; subst; reflexivity).
    assert ((target =? RESAMPLE) = false) as E2 by (destruct Htarget; subst; reflexivity).
    assert ((target =? RAMP_VOLUME) || (target =? VOLUME) = true) as E3
        by (destruct Htarget; subst; reflexivity).
    assert ((param =? AUXLEVEL) = false) as E4 by (destruct Hparam; subst; reflexivity).
    assert ((VOLUME0 <=? uint32 param) && (uint32 param <? VOLUME0 + MAX_NUM_VOLUMES) = true)
      as E5 by (destruct Hparam; subst; reflexivity).
    rewrite E1, E2, E3, E4, E5 in Hset.
    destruct (setVolumeRampVariables _ _ _) as [changed v] eqn:Hsv in Hset.
    exists v. split; [reflexivity |].
    split; [destruct Hparam; subst; auto |].
    split; [rewrite Hsv; reflexivity |].
    destruct changed; injection Hset as <-; [right; reflexivity |].
    left. split; [reflexivity |].
    unfold setVolumeRampVariables in Hsv.
    destruct (F32.eqb _ _).
    - injection Hsv as <-. reflexivity.
    - repeat match type of Hsv with
             | context [if ?b then _ else _] => destruct b
             end; discriminate. }
  pose proof (Hinv name track Htrack) as Hold.
  assert (sanitized (SetVolume (volumeVars track (param - VOLUME0)))) as Hchan.
  { destruct Hidx as [-> | ->]; [apply Hold | apply Hold]. }
  destruct (setVolumeRampVariables_sanitizes (valueFloat value)
              (if target =? RAMP_VOLUME then int32 (mFrameCount m) else 0)
              _ Hv Hchan) as (Hs & _ & Hzero & Hone).
  rewrite <- Hvdef in Hs, Hzero, Hone.
  assert (volumes_sanitized m' /\
          exists t', mTracks m' !! name = Some t'
                     /\ mVolume t' (param - VOLUME0) = SetVolume v) as [Hinv' Ht'].
  { destruct Hm' as [[-> Hsame] | ->].
    - split; [exact Hinv |]. exists track. auto.
    - split.
      + intros n t Hn. simpl in Hn.
        destruct (decide (name = n)) as [<- | Hneq].
        * rewrite lookup_insert_eq in Hn. injection Hn as <-.
          rewrite !mVolume_set_volumeVars by auto.
          destruct Hidx as [-> | ->]; simpl; split; try exact Hs; apply Hold.
        * rewrite lookup_insert_ne in Hn by exact Hneq. exact (Hinv n t Hn).
      + eexists. simpl. rewrite lookup_insert_eq. split; [reflexivity |].
        rewrite mVolume_set_volumeVars by auto. rewrite Z.eqb_refl. reflexivity. }
  split; [exact Hinv' |]. split.
  - intros n t c Hn [-> | ->]; apply sanitized_in_unit; apply (Hinv' n t Hn).
  - destruct Ht' as (t' & Hlook & Hval). exists t'. rewrite Hval. auto.
Qed.

(** C10.  [getUnreleasedFrames] is a total function and yields 0 for a name
    that is not in the registry and for a track without resampler, while
    [destroy], [enable], [disable] and [setParameter] abort on a name that is
    not in the registry. *)
Theorem getUnreleasedFrames_never_fails (m : AudioMixerBase) (name : Z) :
  mTracks m !! name = None
  \/ (exists t, mTracks m !! name = Some t /\ mResampler t = None) ->
  getUnreleasedFrames m name = 0
  /\ (mTracks m !! name = None ->
      destroy m name = None /\ enable m name = None /\ disable m name = None
      /\ forall target param value, setParameter m name target param value = None).
Proof.
  intros H. split.
  - unfold getUnreleasedFrames, TrackBase_getUnreleasedFrames.
    destruct H as [-> | (t & -> & ->)]; reflexivity.
  - intros Hnone. unfold destroy, enable, disable, setParameter. rewrite Hnone. auto.
Qed.

Lemma getUnreleasedFrames_never_fails_witness :
  getUnreleasedFrames (newMixer 64 48000) 7 = 0
  /\ destroy (newMixer 64 48000) 7 = None.
Proof.
  destruct (getUnreleasedFrames_never_fails (newMixer 64 48000) 7 (or_introl eq_refl))
    as [H0 H1].
  split; [exact H0 | exact (proj1 (H1 eq_refl))].
Defined.

Lemma mixer_one_track_sanitized : volumes_sanitized mixer_one_track.
Proof.
  intros name t H.
  assert (exists t0, mTracks mixer_one_track = <[1 := t0]> ∅
                     /\ vol0 t0 = zeroVolumeVars /\ vol1 t0 = zeroVolumeVars)
    as (t0 & Hm & H0 & H1) by (eexists; split; [reflexivity | split; reflexivity]).
  rewrite Hm in H. apply lookup_insert_Some in H as [[_ <-] | [_ H]].
  - unfold mVolume, volumeVars. simpl. rewrite H0, H1. split; reflexivity.
  - rewrite lookup_empty in H. discriminate.
Qed.

Lemma setParameter_volume_sanitized_witness :
  exists m', setParameter mixer_one_track 1 VOLUME VOLUME0 (mkValue 0 S754_nan) = Some m'
    /\ exists t', mTracks m' !! 1 = Some t' /\ mVolume t' 0 = F32.zero.
Proof.
  eexists. split; [vm_compute; reflexivity |].
  match goal with
  | |- exists t', mTracks ?m' !! 1 = Some t' /\ _ =>
      destruct (setParameter_volume_sanitized mixer_one_track m' 1 VOLUME VOLUME0
                  (mkValue 0 S754_nan) mixer_one_track_sanitized eq_refl
                  (or_introl eq_refl) (or_introl eq_refl))
        as (_ & _ & t' & Ht' & Hz & _); [vm_compute; reflexivity |];
      exists t'; split; [exact Ht' | exact (Hz (or_introl eq_refl))]
  end.
Defined.

(** ** Machine integers *)

Lemma int32_small (z : Z) : -2147483648 <= z < 2147483648 -> int32 z = z.
Proof.
  intros H. unfold int32, wrap_signed.
  change (2 ^ (32 - 1)) with 2147483648. change (2 ^ 32) with 4294967296.
  rewrite Z.mod_small by lia. lia.
Qed.

(** ** Exact operations of [SpecFloat] *)

Section Rounding.

Variables prec emax : Z.

Lemma digits2_pos_log2 (m : positive) :
  Z.pos (digits2_pos m) = Z.log2 (Z.pos m) + 1.
Proof.
  assert (forall p, digits2_pos p = Pos.size p) as Hsize
      by (induction p as [p IH | p IH |]; cbn; congruence).
  destruct m as [p | p |]; cbn; rewrite ?Hsize; lia.
Qed.

Lemma Zdigits2_log2 (z : Z) : 0 < z -> Zdigits2 z = Z.log2 z + 1.
Proof.
  destruct z as [| p | p]; try lia. intros _. apply digits2_pos_log2.
Qed.

Lemma Zdigits2_mul_pow2 (z k : Z) :
  0 < z -> 0 <= k -> Zdigits2 (z * 2 ^ k) = Zdigits2 z + k.
Proof.
  intros Hz Hk. rewrite !Zdigits2_log2 by nia.
  rewrite Z.log2_mul_pow2 by lia. lia.
Qed.

Lemma Zdigits2_le (a b : Z) : 0 < a -> a <= b -> Zdigits2 a <= Zdigits2 b.
Proof.
  intros Ha Hab. rewrite !Zdigits2_log2 by lia.
  pose proof (Z.log2_le_mono a b Hab). lia.
Qed.

Lemma Zdigits2_bounds (z : Z) :
  0 < z -> 2 ^ (Zdigits2 z - 1) <= z < 2 ^ Zdigits2 z.
Proof.
  intros Hz. rewrite Zdigits2_log2 by lia.
  replace (Z.log2 z + 1 - 1) with (Z.log2 z) by lia.
  replace (Z.log2 z + 1) with (Z.succ (Z.log2 z)) by lia.
  apply Z.log2_spec. lia.
Qed.

Lemma Zdigits2_unique (z d : Z) : 2 ^ (d - 1) <= z < 2 ^ d -> 0 < d -> Zdigits2 z = d.
Proof.
  intros Hz Hd. assert (0 < z) by (pose proof (Z.pow_pos_nonneg 2 (d - 1)); lia).
  rewrite Zdigits2_log2 by lia.
  rewrite (Z.log2_unique z (d - 1)); [lia | lia |].
  replace (Z.succ (d - 1)) with d by lia. lia.
Qed.

(** A right shift that drops only zero bits is exact. *)
Lemma shr_1_even (k : Z) :
  0 <= k ->
  shr_1 {| shr_m := 2 * k; shr_r := false; shr_s := false |}
  = {| shr_m := k; shr_r := false; shr_s := false |}.
Proof. destruct k as [| p | p]; try lia; reflexivity. Qed.

Lemma pow2_xI (n : positive) : 2 ^ Z.pos n~1 = 2 * (2 ^ Z.pos n * 2 ^ Z.pos n).
Proof.
  replace (Z.pos n~1) with (Z.pos n + Z.pos n + 1) by lia.
  rewrite !Z.pow_add_r by lia. lia.
Qed.

Lemma pow2_xO (n : positive) : 2 ^ Z.pos n~0 = 2 ^ Z.pos n * 2 ^ Z.pos n.
Proof.
  replace (Z.pos n~0) with (Z.pos n + Z.pos n) by lia.
  rewrite !Z.pow_add_r by lia. lia.
Qed.

Lemma iter_shr_1_exact (n : positive) : forall k : Z,
  0 <= k ->
  SpecFloat.iter_pos shr_1 n {| shr_m := k * 2 ^ Z.pos n; shr_r := false; shr_s := false |}
  = {| shr_m := k; shr_r := false; shr_s := false |}.
Proof.
  induction n as [n IH | n IH |]; intros k Hk; cbn [SpecFloat.iter_pos].
  - pose proof (Z.pow_pos_nonneg 2 (Z.pos n) ltac:(lia) ltac:(lia)) as Hp.
    replace (k * 2 ^ Z.pos n~1) with (2 * ((k * 2 ^ Z.pos n) * 2 ^ Z.pos n))
      by (rewrite pow2_xI; lia).
    rewrite shr_1_even by nia. rewrite IH by nia. apply IH, Hk.
  - pose proof (Z.pow_pos_nonneg 2 (Z.pos n) ltac:(lia) ltac:(lia)) as Hp.
    replace (k * 2 ^ Z.pos n~0) with ((k * 2 ^ Z.pos n) * 2 ^ Z.pos n)
      by (rewrite pow2_xO; lia).
    rewrite IH by nia. apply IH, Hk.
  - replace (k * 2 ^ 1) with (2 * k) by lia. apply shr_1_even, Hk.
Qed.

(** In general the mantissa is divided, rounding down. *)
Lemma shr_1_div2 (mrs : shr_record) :
  0 <= shr_m mrs -> shr_m (shr_1 mrs) = shr_m mrs / 2.
Proof.
  destruct mrs as [m r s]. cbn [shr_m]. intros Hm.
  destruct m as [| [p | p |] | p]; try lia; cbn [shr_1 shr_m].
  - reflexivity.
  - rewrite Pos2Z.inj_xI. apply (Z.div_unique _ _ _ 1); lia.
  - rewrite Pos2Z.inj_xO. apply (Z.div_unique _ _ _ 0); lia.
  - reflexivity.
Qed.

Lemma iter_shr_1_div (n : positive) : forall mrs : shr_record,
  0 <= shr_m mrs ->
  shr_m (SpecFloat.iter_pos shr_1 n mrs) = shr_m mrs / 2 ^ Z.pos n.
Proof.
  assert (forall a b c, 0 < b -> 0 < c -> a / b / c = a / (b * c)) as Hdd
      by (intros; apply Z.div_div; lia).
  assert (forall a b, 0 <= a -> 0 < b -> 0 <= a / b) as Hnn
      by (intros; apply Z.div_pos; lia).
  induction n as [n IH | n IH |]; intros mrs Hm; cbn [SpecFloat.iter_pos].
  - pose proof (Z.pow_pos_nonneg 2 (Z.pos n) ltac:(lia) ltac:(lia)) as Hp.
    assert (0 <= shr_m (shr_1 mrs)) as H1
        by (rewrite shr_1_div2 by auto; apply Hnn; lia).
    assert (0 <= shr_m (SpecFloat.iter_pos shr_1 n (shr_1 mrs))) as H2
        by (rewrite IH by auto; apply Hnn; lia).
    rewrite (IH _ H2), (IH _ H1), shr_1_div2 by auto.
    rewrite pow2_xI, !Hdd by lia. reflexivity.
  - pose proof (Z.pow_pos_nonneg 2 (Z.pos n) ltac:(lia) ltac:(lia)) as Hp.
    assert (0 <= shr_m (SpecFloat.iter_pos shr_1 n mrs)) as H2
        by (rewrite IH by auto; apply Hnn; lia).
    rewrite (IH _ H2), (IH _ Hm).
    rewrite pow2_xO, !Hdd by lia. reflexivity.
  - rewrite shr_1_div2 by exact Hm. reflexivity.
Qed.

Lemma shr_m_shr (mrs : shr_record) (e n : Z) :
  0 <= shr_m mrs ->
  shr_m (fst (shr mrs e n)) = shr_m mrs / 2 ^ Z.max 0 n
  /\ snd (shr mrs e n) = e + Z.max 0 n.
Proof.
  intros Hm. destruct n as [| p | p]; cbn [shr fst snd].
  - rewrite Z.div_1_r. split; [reflexivity | lia].
  - rewrite iter_shr_1_div by exact Hm. split; [reflexivity | lia].
  - rewrite Z.div_1_r. split; [reflexivity | lia].
Qed.

Lemma shr_exact (k e n : Z) :
  0 <= k -> 0 <= n ->
  shr {| shr_m := k * 2 ^ n; shr_r := false; shr_s := false |} e n
  = ({| shr_m := k; shr_r := false; shr_s := false |}, e + n).
Proof.
  intros Hk Hn. destruct n as [| p | p]; try lia; cbn [shr].
  - rewrite Z.mul_1_r, Z.add_0_r. reflexivity.
  - rewrite iter_shr_1_exact by exact Hk. reflexivity.
Qed.

Lemma iter_xO_pow2 (m d : positive) : Z.pos (Pos.iter xO m d) = Z.pos m * 2 ^ Z.pos d.
Proof.
  induction d as [| d IH] using Pos.peano_ind.
  - cbn. lia.
  - rewrite Pos.iter_succ, Pos2Z.inj_xO, IH, Pos2Z.inj_succ, Z.pow_succ_r by lia. lia.
Qed.

(** Rounding a number that is representable gives that number. *)
Lemma binary_round_aux_exact (sx : bool) (q : positive) (e k : Z) :
  0 <= k ->
  canonical_mantissa prec emax q e = true -> e <= emax - prec ->
  binary_round_aux prec emax sx (Z.pos q * 2 ^ k) (e - k) loc_Exact
  = S754_finite sx q e.
Proof.
  intros Hk Hc He. unfold canonical_mantissa in Hc. apply Z.eqb_eq in Hc.
  unfold binary_round_aux, shr_fexp.
  rewrite Zdigits2_mul_pow2 by lia. cbn [Zdigits2].
  replace (Z.pos (digits2_pos q) + k + (e - k)) with (Z.pos (digits2_pos q) + e) by lia.
  rewrite Hc. replace (e - (e - k)) with k by lia.
  cbn [shr_record_of_loc]. rewrite shr_exact by lia.
  replace (e - k + k) with e by lia.
  cbn [shr_m loc_of_shr_record round_nearest_even Zdigits2].
  rewrite Hc, Z.sub_diag. cbn [shr shr_m].
  apply Z.leb_le in He. rewrite He. reflexivity.
Qed.

Lemma shl_align_ge (m : positive) (ex ex' : Z) :
  ex <= ex' -> shl_align m ex ex' = (m, ex).
Proof. intros H. unfold shl_align. destruct (ex' - ex) eqn:E; try lia; reflexivity. Qed.

Lemma shl_align_lt (m : positive) (ex ex' : Z) :
  ex' < ex ->
  exists m', shl_align m ex ex' = (m', ex') /\ Z.pos m' = Z.pos m * 2 ^ (ex - ex').
Proof.
  intros H. unfold shl_align. destruct (ex' - ex) as [| p | p] eqn:E; try lia.
  eexists. split; [reflexivity |]. rewrite iter_xO_pow2. f_equal. f_equal. lia.
Qed.

(** [binary_round] on [M * 2^E] when the canonical [q * 2^e] is the same
    number; [lo] is any exponent below both. *)
Lemma binary_round_exact (sx : bool) (M q : positive) (E e lo : Z) :
  lo <= E -> lo <= e ->
  canonical_mantissa prec emax q e = true -> e <= emax - prec ->
  Z.pos M * 2 ^ (E - lo) = Z.pos q * 2 ^ (e - lo) ->
  binary_round prec emax sx M E = S754_finite sx q e.
Proof.
  intros HE He Hc Hmax Hval.
  pose proof Hc as Hc'. unfold canonical_mantissa in Hc'. apply Z.eqb_eq in Hc'.
  unfold binary_round.
  destruct (Z_le_gt_dec E e) as [Hle | Hgt].
  - assert (Z.pos M = Z.pos q * 2 ^ (e - E)) as HM.
    { replace (e - lo) with ((e - E) + (E - lo)) in Hval by lia.
      rewrite Z.pow_add_r in Hval by lia.
      pose proof (Z.pow_pos_nonneg 2 (E - lo) ltac:(lia) ltac:(lia)). nia. }
    assert (Z.pos (digits2_pos M) + E = Z.pos (digits2_pos q) + e) as Hd.
    { change (Z.pos (digits2_pos M)) with (Zdigits2 (Z.pos M)). rewrite HM.
      rewrite Zdigits2_mul_pow2 by lia. cbn [Zdigits2]. lia. }
    rewrite Hd, Hc', shl_align_ge by exact Hle.
    rewrite HM. replace E with (e - (e - E)) at 2 by lia.
    apply binary_round_aux_exact; auto; lia.
  - assert (Z.pos q = Z.pos M * 2 ^ (E - e)) as Hq.
    { replace (E - lo) with ((E - e) + (e - lo)) in Hval by lia.
      rewrite Z.pow_add_r in Hval by lia.
      pose proof (Z.pow_pos_nonneg 2 (e - lo) ltac:(lia) ltac:(lia)). nia. }
    assert (Z.pos (digits2_pos M) + E = Z.pos (digits2_pos q) + e) as Hd.
    { change (Z.pos (digits2_pos q)) with (Zdigits2 (Z.pos q)). rewrite Hq.
      rewrite Zdigits2_mul_pow2 by lia. cbn [Zdigits2]. lia. }
    rewrite Hd, Hc'.
    destruct (shl_align_lt M E e ltac:(lia)) as (m' & -> & Hm').
    assert (m' = q) as -> by (apply Pos2Z.inj; lia).
    pose proof (binary_round_aux_exact sx q e 0 ltac:(lia) Hc Hmax) as H0.
    rewrite Z.pow_0_r, Z.mul_1_r, Z.sub_0_r in H0. exact H0.
Qed.

End Rounding.
(** ** The U4.12 and U4.28 conversions of a committed volume *)

Lemma round_nearest_even_bounds (q : Z) (l : location) :
  q <= round_nearest_even q l <= q + 1.
Proof.
  destruct l as [| [| |]]; cbn [round_nearest_even]; try lia.
  destruct (Z.even q); lia.
Qed.

Lemma shl_align_fst (m : positive) (ex ex' : Z) :
  ex' <= ex -> Z.pos (fst (shl_align m ex ex')) = Z.pos m * 2 ^ (ex - ex').
Proof.
  intros H. destruct (Z.eq_dec ex ex') as [-> | Hne].
  - rewrite shl_align_ge, Z.sub_diag by lia. cbn [fst]. lia.
  - destruct (shl_align_lt m ex ex' ltac:(lia)) as (m' & -> & Hm'). exact Hm'.
Qed.

(** Multiplication of a normal binary32 number by a power of two. *)
Lemma F32_mul_pow2 (s : bool) (m : positive) (e ey : Z) :
  Z.pos (digits2_pos m) = 24 ->
  -149 <= e + ey + 23 <= 104 ->
  F32.mul (S754_finite s m e) (S754_finite false 8388608 ey)
  = S754_finite s m (e + ey + 23).
Proof.
  intros Hd He. unfold F32.mul, SFmul.
  replace (xorb s false) with s by (destruct s; reflexivity).
  replace (Z.pos (m * 8388608)) with (Z.pos m * 2 ^ 23) by (rewrite Pos2Z.inj_mul; reflexivity).
  pose proof (binary_round_aux_exact F32.prec F32.emax s m (e + ey + 23) 23) as H.
  replace (e + ey + 23 - 23) with (e + ey) in H by lia.
  apply H; [lia | | unfold F32.emax, F32.prec; lia].
  unfold canonical_mantissa, fexp, emin, F32.prec, F32.emax. rewrite Hd.
  apply Z.eqb_eq. lia.
Qed.

(** A sanitized well-formed volume is a zero or a normal number of (0, 1]. *)
Lemma sanitized_valid_cases (x : float) :
  F32.valid x = true -> sanitized x ->
  (exists s, x = S754_zero s)
  \/ exists m e, x = S754_finite false m e /\ Z.pos (digits2_pos m) = 24
                 /\ -149 <= e <= -23 /\ (e = -23 -> m = 8388608%positive).
Proof.
  intros Hv Hs. unfold sanitized in Hs.
  destruct (sanitizeVolume_cases x) as [H | [H | (_ & Hneg & Hc)]].
  - left. exists false. rewrite <- Hs. exact H.
  - right. exists 8388608%positive, (-23). rewrite <- Hs, H.
    repeat split; try reflexivity; lia.
  - destruct x as [a | a | | a m e].
    + left. eauto.
    + destruct Hc as [Hc | [Hc _]]; destruct a; discriminate.
    + destruct Hc as [Hc | [Hc _]]; discriminate.
    + destruct a; [discriminate |]. right. exists m, e.
      destruct Hc as [Hc | [Hc Hgt]].
      { unfold F32.fpclassify, SFclassify in Hc.
        destruct (Z.pos (digits2_pos m) =? F32.prec); discriminate. }
      assert (Z.pos (digits2_pos m) = 24) as Hd.
      { unfold F32.fpclassify, SFclassify in Hc.
        destruct (Z.eqb_spec (Z.pos (digits2_pos m)) F32.prec) as [E | E];
          [exact E | discriminate]. }
      unfold F32.valid, valid_binary, bounded, canonical_mantissa, fexp, emin in Hv.
      apply andb_prop in Hv as [Hcan _]. apply Z.eqb_eq in Hcan.
      rewrite Hd in Hcan. unfold F32.prec, F32.emax in Hcan.
      unfold F32.ltb, SFltb, UNITY_GAIN_FLOAT, F32.one, SFcompare in Hgt.
      split; [reflexivity |]. split; [exact Hd |].
      destruct (Z.compare_spec (-23) e) as [He | He | He]; try discriminate.
      * split; [lia |]. intros _. subst e.
        rewrite Pos.compare_cont_spec in Hgt. cbn [Pos.switch_Eq] in Hgt.
        destruct (Pos.compare_spec 8388608 m) as [Hm | Hm | Hm]; try discriminate.
        { congruence. }
        pose proof (Zdigits2_bounds (Z.pos m) (Pos2Z.is_pos m)) as Hb.
        cbn [Zdigits2] in Hb. rewrite Hd in Hb.
        change (2 ^ (24 - 1)) with 8388608 in Hb. destruct Hb as [Hb _].
        exfalso. apply Pos2Z.pos_lt_pos in Hm. clear - Hb Hm. lia.
      * split; [lia |]. intros; lia.
Qed.
Lemma shiftl_neg_div (a n : Z) : n <= 0 -> Z.shiftl a n = a / 2 ^ (- n).
Proof.
  intros Hn. rewrite <- (Z.opp_involutive n) at 1.
  change (Z.shiftl a (- - n)) with (Z.shiftr a (- n)).
  apply Z.shiftr_div_pow2. lia.
Qed.

Lemma binary_normalize_pos (p em z e : Z) (sz : bool) :
  0 < z -> binary_normalize p em z e sz = binary_round p em false (Z.to_pos z) e.
Proof. destruct z; try lia. reflexivity. Qed.

Lemma pow2_le (a b : Z) : 0 <= a <= b -> 2 ^ a <= 2 ^ b.
Proof. intros H. apply Z.pow_le_mono_r; lia. Qed.

Lemma pow2_lt_inv (a b : Z) : 0 <= b -> 2 ^ a < 2 ^ b -> a < b.
Proof. intros Hb H. apply (Z.pow_lt_mono_r_iff 2); lia. Qed.

Lemma pow2_split (a b : Z) : 0 <= a -> 0 <= b -> 2 ^ (a + b) = 2 ^ a * 2 ^ b.
Proof. intros. apply Z.pow_add_r; lia. Qed.

(** The U4.12 volume of a normal number of (0, 1]. *)
Lemma intVolumeOf_finite (m : positive) (e : Z) :
  Z.pos (digits2_pos m) = 24 -> -149 <= e <= -23 -> (e = -23 -> m = 8388608%positive) ->
  intVolumeOf (S754_finite false m e) = Z.pos m / 2 ^ (- e - 12).
Proof.
  intros Hd He H1. unfold intVolumeOf.
  change (F32.of_int UNITY_GAIN_INT) with (S754_finite false 8388608 (-11)).
  cbv zeta. rewrite F32_mul_pow2 by (auto; lia).
  unfold F32.leb, SFleb, SFcompare.
  destruct (Z.compare_spec (-11) (e + -11 + 23)) as [E | E | E]; [| lia |].
  - assert (e = -23) as -> by lia. rewrite (H1 eq_refl). reflexivity.
  - unfold F32.trunc, cond_Zopp. rewrite shiftl_neg_div by lia.
    replace (- (e + -11 + 23)) with (- e - 12) by lia.
    pose proof (Z.pow_pos_nonneg 2 (- e - 12) ltac:(lia) ltac:(lia)) as Hp.
    pose proof (Zdigits2_bounds (Z.pos m) (Pos2Z.is_pos m)) as Hb.
    cbn [Zdigits2] in Hb. rewrite Hd in Hb. change (2 ^ 24) with 16777216 in Hb.
    destruct Hb as [_ Hb].
    assert (0 <= Z.pos m / 2 ^ (- e - 12) <= Z.pos m) as Hq.
    { split; [apply Z.div_pos; lia |]. apply Z.div_le_upper_bound; nia. }
    apply int32_small. lia.
Qed.

(** Rounding to binary64 a number of [2^52 * 2^j, 2^53 * 2^j) that is a
    multiple of [2^j], and truncating it. *)
Lemma round64_trunc_exact (S qz j : Z) :
  0 <= j <= 53 -> S = qz * 2 ^ j -> 2 ^ 52 <= qz < 2 ^ 53 ->
  F32.trunc (binary_round 53 1024 false (Z.to_pos S) (-53)) = S / 2 ^ 53.
Proof.
  intros Hj HS Hq.
  pose proof (Z.pow_pos_nonneg 2 j ltac:(lia) ltac:(lia)) as Hp.
  assert (0 < qz) as Hqpos by (change (2 ^ 52) with 4503599627370496 in Hq; lia).
  rewrite (binary_round_exact 53 1024 false (Z.to_pos S) (Z.to_pos qz) (-53) (j - 53) (-53));
    try lia.
  - unfold F32.trunc, cond_Zopp. rewrite shiftl_neg_div by lia.
    rewrite Z2Pos.id by lia. subst S.
    replace (2 ^ 53) with (2 ^ (53 - j) * 2 ^ j)
      by (rewrite <- Z.pow_add_r by lia; f_equal; lia).
    rewrite Z.div_mul_cancel_r by (try apply Z.pow_nonzero; lia).
    f_equal. f_equal. lia.
  - unfold canonical_mantissa, fexp, emin.
    change (Z.pos (digits2_pos (Z.to_pos qz))) with (Zdigits2 (Z.pos (Z.to_pos qz))).
    rewrite Z2Pos.id by lia. rewrite (Zdigits2_unique qz 53) by (auto; lia).
    apply Z.eqb_eq. lia.
  - rewrite !Z2Pos.id by nia. rewrite Z.sub_diag, Z.pow_0_r.
    replace (j - 53 - -53) with j by lia. lia.
Qed.
(** Rounding to binary64 a number just above [2^(-E-1)], taken at exponent
    [E <= -54]: the result is below 1. *)
Lemma round64_trunc_small (S E : Z) :
  E <= -54 -> 2 ^ (- E - 1) <= S < 2 ^ (- E - 1) + 2 ^ 24 ->
  F32.trunc (binary_round 53 1024 false (Z.to_pos S) E) = 0.
Proof.
  intros HE HS.
  pose proof (Z.pow_pos_nonneg 2 (- E - 1) ltac:(lia) ltac:(lia)) as Hp.
  assert (2 ^ 24 <= 2 ^ (- E - 1)) as H24 by (apply pow2_le; lia).
  assert (2 ^ (- E) = 2 * 2 ^ (- E - 1)) as Hdouble.
  { replace (- E) with (1 + (- E - 1)) at 1 by lia. rewrite pow2_split by lia. lia. }
  assert (Zdigits2 S = - E) as Hd.
  { apply Zdigits2_unique; [| lia]. lia. }
  unfold binary_round.
  change (Z.pos (digits2_pos (Z.to_pos S))) with (Zdigits2 (Z.pos (Z.to_pos S))).
  rewrite Z2Pos.id by lia. rewrite Hd.
  replace (- E + E) with 0 by lia.
  change (fexp 53 1024 0) with (-53).
  rewrite shl_align_ge by lia.
  unfold binary_round_aux, shr_fexp.
  rewrite Z2Pos.id by lia. rewrite Hd.
  replace (- E + E) with 0 by lia.
  change (fexp 53 1024 0) with (-53). cbn [shr_record_of_loc].
  pose proof (shr_m_shr {| shr_m := S; shr_r := false; shr_s := false |} E (-53 - E)
                ltac:(cbn; lia)) as [Hm He].
  destruct (shr _ E (-53 - E)) as [mrs' e']. cbn [fst snd shr_m] in Hm, He.
  rewrite Z.max_r in Hm, He by lia. replace (E + (-53 - E)) with (-53) in He by lia.
  subst e'.
  pose proof (round_nearest_even_bounds (shr_m mrs') (loc_of_shr_record mrs')) as Hr.
  set (q1 := round_nearest_even (shr_m mrs') (loc_of_shr_record mrs')) in *.
  assert (2 ^ 52 <= shr_m mrs' < 2 ^ 52 + 2 ^ 23) as Hq0.
  { rewrite Hm.
    assert (2 ^ (- E - 1) = 2 ^ 52 * 2 ^ (-53 - E)) as Hs
        by (rewrite <- pow2_split by lia; f_equal; lia).
    pose proof (Z.pow_pos_nonneg 2 (-53 - E) ltac:(lia) ltac:(lia)) as Hp2.
    assert (2 <= 2 ^ (-53 - E)) as H2
        by (change 2 with (2 ^ 1) at 1; apply pow2_le; lia).
    split.
    - apply Z.div_le_lower_bound; lia.
    - apply Z.div_lt_upper_bound; [lia |].
      change (2 ^ 24) with (2 * 2 ^ 23) in HS. nia. }
  assert (2 ^ 52 <= q1 < 2 ^ 53) as Hq1.
  { change (2 ^ 53) with (2 ^ 52 + 2 ^ 52). change (2 ^ 23) with 8388608 in Hq0.
    change (2 ^ 52) with 4503599627370496 in *. lia. }
  rewrite (Zdigits2_unique q1 53) by (auto; lia).
  change (fexp 53 1024 (53 + -53) - -53) with 0. cbn [shr shr_m].
  destruct q1 as [| p | p] eqn:Eq1;
    try (change (2 ^ 52) with 4503599627370496 in Hq1; lia).
  change (-53 <=? 1024 - 53) with true. cbv iota.
  unfold F32.trunc, cond_Zopp. rewrite shiftl_neg_div by lia.
  apply Z.div_small. change (- -53) with 53. lia.
Qed.

(** [u4_28_from_float] of a normal number of (0, 1]. *)
Lemma u4_28_from_float_finite (m : positive) (e : Z) :
  Z.pos (digits2_pos m) = 24 -> -149 <= e <= -23 ->
  u4_28_from_float (S754_finite false m e)
  = if e <? -81 then 0 else (Z.pos m * 2 ^ (e + 81) + 2 ^ 52) / 2 ^ 53.
Proof.
  intros Hd He.
  pose proof (Zdigits2_bounds (Z.pos m) (Pos2Z.is_pos m)) as Hb.
  cbn [Zdigits2] in Hb. rewrite Hd in Hb.
  change (2 ^ (24 - 1)) with 8388608 in Hb.
  unfold u4_28_from_float. cbv zeta.
  change (F32.of_scaled 1 28) with (S754_finite false 8388608 5).
  replace (F32.div (F32.of_int 4294967295) (S754_finite false 8388608 5))
    with (S754_finite false 8388608 (-19)) by (vm_compute; reflexivity).
  change (binary_normalize 53 1024 1 (-1) false)
    with (S754_finite false 4503599627370496 (-53)).
  change (F32.leb (S754_finite false m e) F32.zero) with false. cbv iota.
  assert (F32.leb (S754_finite false 8388608 (-19)) (S754_finite false m e) = false) as ->.
  { unfold F32.leb, SFleb, SFcompare.
    assert ((-19 ?= e) = Gt) as -> by (apply Z.compare_gt_iff; lia). reflexivity. }
  rewrite F32_mul_pow2 by (auto; lia).
  replace (e + 5 + 23) with (e + 28) by lia.
  unfold SFadd. cbn [cond_Zopp].
  destruct (Z.ltb_spec e (-81)) as [Hlt | Hge].
  - rewrite Z.min_l by lia.
    rewrite (shl_align_ge m) by lia. cbn [fst].
    pose proof (shl_align_fst 4503599627370496 (-53) (e + 28) ltac:(lia)) as H2.
    set (b := fst (shl_align 4503599627370496 (-53) (e + 28))) in *.
    change (Z.pos m + Z.pos b) with (Z.pos (m + b)).
    cbn [binary_normalize].
    replace (m + b)%positive with (Z.to_pos (Z.pos m + Z.pos b)) by (cbn; reflexivity).
    rewrite H2.
    replace (Z.pos 4503599627370496 * 2 ^ (-53 - (e + 28)))
      with (2 ^ (- (e + 28) - 1)).
    2:{ change (Z.pos 4503599627370496) with (2 ^ 52).
        rewrite <- pow2_split by lia. f_equal. lia. }
    rewrite round64_trunc_small; [reflexivity | lia |].
    pose proof (Z.pow_pos_nonneg 2 (- (e + 28) - 1) ltac:(lia) ltac:(lia)).
    lia.
  - rewrite Z.min_r by lia.
    rewrite (shl_align_ge 4503599627370496) by lia. cbn [fst].
    pose proof (shl_align_fst m (e + 28) (-53) ltac:(lia)) as H1.
    set (a := fst (shl_align m (e + 28) (-53))) in *.
    change (Z.pos a + Z.pos 4503599627370496) with (Z.pos (a + 4503599627370496)).
    cbn [binary_normalize].
    replace (a + 4503599627370496)%positive
      with (Z.to_pos (Z.pos a + 2 ^ 52)) by (cbn; reflexivity).
    rewrite H1. replace (e + 28 - -53) with (e + 81) by lia.
    set (k := e + 81) in *. assert (0 <= k <= 58) as Hk by (unfold k; lia).
    set (S := Z.pos m * 2 ^ k + 2 ^ 52).
    pose proof (Z.pow_pos_nonneg 2 k ltac:(lia) ltac:(lia)) as Hpk.
    assert (2 ^ 52 <= S) as HSlo by (unfold S; nia).
    assert (S < 2 ^ Z.max 53 (k + 25)) as HShi.
    { assert (2 ^ (24 + k) <= 2 ^ (Z.max 53 (k + 25) - 1)) by (apply pow2_le; lia).
      assert (2 ^ 52 <= 2 ^ (Z.max 53 (k + 25) - 1)) by (apply pow2_le; lia).
      assert (2 ^ Z.max 53 (k + 25) = 2 * 2 ^ (Z.max 53 (k + 25) - 1)) as ->.
      { replace (Z.max 53 (k + 25)) with (1 + (Z.max 53 (k + 25) - 1)) at 1 by lia.
        rewrite pow2_split by lia. lia. }
      assert (Z.pos m * 2 ^ k < 2 ^ (24 + k))
        by (rewrite pow2_split by lia; nia).
      unfold S. lia. }
    pose proof (Zdigits2_bounds S ltac:(lia)) as HdS.
    assert (53 <= Zdigits2 S <= Z.max 53 (k + 25)) as Hdr.
    { split.
      - change 53 with (Zdigits2 (2 ^ 52)). apply Zdigits2_le; [reflexivity | lia].
      - assert (Zdigits2 S - 1 < Z.max 53 (k + 25)); [| lia].
        apply pow2_lt_inv; lia. }
    set (j := Zdigits2 S - 53) in *.
    assert (0 <= j /\ j <= k /\ j <= 52) as (Hj0 & Hjk & Hj52) by (unfold j; lia).
    pose proof (Z.pow_pos_nonneg 2 j ltac:(lia) ltac:(lia)) as Hpj.
    assert (S = (Z.pos m * 2 ^ (k - j) + 2 ^ (52 - j)) * 2 ^ j) as Hfac.
    { unfold S. rewrite Z.mul_add_distr_r, <- Z.mul_assoc, <- !pow2_split by lia.
      f_equal; f_equal; f_equal; lia. }
    rewrite (round64_trunc_exact S _ j ltac:(lia) Hfac).
    + unfold uint32. apply Z.mod_small. split; [apply Z.div_pos; lia |].
      apply Z.div_lt_upper_bound; [lia |].
      assert (2 ^ Z.max 53 (k + 25) <= 2 ^ 83) by (apply pow2_le; lia).
      change (2 ^ 53 * 2 ^ 32) with (2 ^ 85).
      assert (2 ^ 83 < 2 ^ 85) by reflexivity. lia.
    + set (qz := Z.pos m * 2 ^ (k - j) + 2 ^ (52 - j)) in *.
      replace (Zdigits2 S - 1) with (52 + j) in HdS by (unfold j; lia).
      replace (Zdigits2 S) with (53 + j) in HdS by (unfold j; lia).
      rewrite !pow2_split in HdS by lia. rewrite Hfac in HdS. nia.
Qed.
(** The committed volume [x] and its two fixed-point images: the U4.12
    volume is within [0, 4096], and the U4.28 value of [x] lies within one
    U4.12 step above the U4.12 volume shifted into U4.28. *)
Lemma committed_volume_conversions (x : float) :
  F32.valid x = true -> sanitized x ->
  0 <= intVolumeOf x <= UNITY_GAIN_INT
  /\ intVolumeOf x * 65536 <= u4_28_from_float x <= intVolumeOf x * 65536 + 65536.
Proof.
  intros Hv Hs. unfold UNITY_GAIN_INT.
  destruct (sanitized_valid_cases x Hv Hs) as [[s ->] | (m & e & -> & Hd & He & H1)].
  - assert (intVolumeOf (S754_zero s) = 0) as -> by (destruct s; reflexivity).
    assert (u4_28_from_float (S754_zero s) = 0) as -> by (destruct s; reflexivity).
    lia.
  - rewrite intVolumeOf_finite, u4_28_from_float_finite by auto.
    pose proof (Zdigits2_bounds (Z.pos m) (Pos2Z.is_pos m)) as Hb.
    cbn [Zdigits2] in Hb. rewrite Hd in Hb.
    change (2 ^ (24 - 1)) with 8388608 in Hb. change (2 ^ 24) with 16777216 in Hb.
    set (a := - e - 12) in *. assert (11 <= a <= 137) as Ha by (unfold a; lia).
    pose proof (Z.pow_pos_nonneg 2 a ltac:(lia) ltac:(lia)) as HQ.
    pose proof (Z.mul_div_le (Z.pos m) (2 ^ a) HQ) as Hlo.
    pose proof (Z.mul_succ_div_gt (Z.pos m) (2 ^ a) HQ) as Hhi.
    assert (0 <= Z.pos m / 2 ^ a) as Hiv0 by (apply Z.div_pos; lia).
    assert (Z.pos m / 2 ^ a <= 4096) as Hiv1.
    { destruct (Z.eq_dec e (-23)) as [E | E].
      - rewrite (H1 E). unfold a. rewrite E. reflexivity.
      - assert (2 ^ 12 <= 2 ^ a) by (apply pow2_le; unfold a; lia).
        change (2 ^ 12) with 4096 in *.
        apply Z.lt_le_incl, Z.div_lt_upper_bound; [lia |]. nia. }
    split; [lia |].
    destruct (Z.ltb_spec e (-81)) as [Hlt | Hge].
    + assert (2 ^ 24 <= 2 ^ a) by (apply pow2_le; unfold a; lia).
      change (2 ^ 24) with 16777216 in *.
      rewrite Z.div_small by lia. lia.
    + replace (e + 81) with (69 - a) by (unfold a; lia).
      pose proof (Z.pow_pos_nonneg 2 (69 - a) ltac:(lia) ltac:(lia)) as HP.
      assert (2 ^ (69 - a) * 2 ^ a = 2 ^ 69) as HPQ
          by (rewrite <- pow2_split by (unfold a; lia); f_equal; lia).
      change (2 ^ 69) with 590295810358705651712 in HPQ.
      change (2 ^ 52) with 4503599627370496.
      change (2 ^ 53) with 9007199254740992.
      revert Hlo Hhi Hiv0 Hiv1 HPQ HP HQ.
      generalize (2 ^ (69 - a)) (2 ^ a) (Z.pos m).
      clear. intros P Q M. generalize (M / Q).
      intros iv Hlo Hhi Hiv0 Hiv1 HPQ HP HQ.
      assert (iv * 590295810358705651712 <= M * P) as H1.
      { rewrite <- HPQ. replace (iv * (P * Q)) with (Q * iv * P) by ring.
        apply Z.mul_le_mono_nonneg_r; lia. }
      assert (M * P < (iv + 1) * 590295810358705651712) as H2.
      { rewrite <- HPQ. replace ((iv + 1) * (P * Q)) with (Q * Z.succ iv * P) by ring.
        apply Z.mul_lt_mono_pos_r; lia. }
      split.
      * apply Z.div_le_lower_bound; lia.
      * assert ((M * P + 4503599627370496) / 9007199254740992 < iv * 65536 + 65536 + 1);
          [| lia].
        apply Z.div_lt_upper_bound; lia.
Qed.
(** ** Gains on the grid of [2^-24] *)








(** ** Comparisons *)




(** ** C6: [adjustVolumeRamp] *)

Lemma volumeVars_adjustVolumeRamp (aux useFloat : bool) (t : TrackBase) (c : Z) :
  volumeVars (adjustVolumeRamp aux useFloat t) c
  = adjustVolumeRampChannel useFloat (volumeVars t c).
Proof.
  unfold volumeVars, adjustVolumeRamp. destruct t, aux, (c =? 0); reflexivity.
Qed.

(** What [setVolumeRampVariables] stores when it changes a volume: a
    well-formed sanitized float target and its U4.12 truncation. *)
Lemma setVolumeRampVariables_targets (x : float) (ramp : Z) (v : VolumeVars) :
  F32.valid x = true -> fst (setVolumeRampVariables x ramp v) = true ->
  let v' := snd (setVolumeRampVariables x ramp v) in
  F32.valid (SetVolume v') = true /\ sanitized (SetVolume v')
  /\ IntSetVolume v' = int16 (intVolumeOf (SetVolume v')).
Proof.
  intros Hv. unfold setVolumeRampVariables.
  destruct (F32.eqb x (SetVolume v)); [discriminate |]. intros _.
  assert (F32.valid (sanitizeVolume x) = true) as Hvs.
  { destruct (sanitizeVolume_cases x) as [-> | [-> | (-> & _)]]; auto. }
  pose proof (sanitizeVolume_idem x) as Hs.
  revert Hvs Hs. generalize (sanitizeVolume x). intros s Hvs Hs. cbv zeta.
  repeat match goal with
         | |- context [if ?b then _ else _] => destruct b
         end; cbn [snd SetVolume IntSetVolume]; auto.
Qed.

(** C6, as the code has it.  A track whose committed volume of channel [c]
    is as [setVolumeRampVariables] stores it: [mVolume[c]] a well-formed
    sanitized number and [volume[c]] its U4.12 truncation.  After
    [adjustVolumeRamp(aux, useFloat)] the committed volumes are untouched
    and
    - when the test of the branch holds (the ramp is complete), both
      increments are 0, [mPrevVolume[c] == mVolume[c]] and
      [prevVolume[c] == volume[c] << 16]; the two agree to one U4.12 step:
      [u4_28_from_float(mPrevVolume[c]) - prevVolume[c]] lies in
      [0, 65536];
    - otherwise (the ramp is still running) the increments are kept and
      the representation that is not live is recomputed from the live one:
      [prevVolume[c] == (int32_t) u4_28_from_float(mPrevVolume[c])] with
      float volumes, [mPrevVolume[c] == float_from_u4_28(prevVolume[c])]
      with integer volumes. *)
Theorem adjustVolumeRamp_coherence
  (t : TrackBase) (aux useFloat : bool) (c : Z) :
  c = 0 \/ c = 1 ->
  F32.valid (mVolume t c) = true -> sanitized (mVolume t c) ->
  volume t c = int16 (intVolumeOf (mVolume t c)) ->
  let t' := adjustVolumeRamp aux useFloat t in
  let next := F32.add (mPrevVolume t c) (mVolumeInc t c) in
  let inext := Z.shiftr (int32 (prevVolume t c + volumeInc t c)) 16 in
  let complete :=
    if useFloat
    then (F32.ltb F32.zero (mVolumeInc t c) && F32.leb (mVolume t c) next)
         || (F32.ltb (mVolumeInc t c) F32.zero && F32.leb next (mVolume t c))
    else ((0 <? volumeInc t c) && (volume t c <=? inext))
         || ((volumeInc t c <? 0) && (inext <=? volume t c)) in
  volume t' c = volume t c /\ mVolume t' c = mVolume t c
  /\ if complete
     then volumeInc t' c = 0 /\ mVolumeInc t' c = F32.zero
          /\ mPrevVolume t' c = mVolume t c
          /\ prevVolume t' c = volume t c * 65536
          /\ 0 <= u4_28_from_float (mPrevVolume t' c) - prevVolume t' c <= 65536
     else volumeInc t' c = volumeInc t c /\ mVolumeInc t' c = mVolumeInc t c
          /\ if useFloat
             then mPrevVolume t' c = mPrevVolume t c
                  /\ prevVolume t' c = int32 (u4_28_from_float (mPrevVolume t' c))
             else prevVolume t' c = prevVolume t c
                  /\ mPrevVolume t' c = float_from_u4_28 (prevVolume t' c).
Proof.
  intros _ Hv Hs Hint. cbv zeta.
  unfold volume, mVolume, prevVolume, volumeInc, mPrevVolume, mVolumeInc in *.
  rewrite volumeVars_adjustVolumeRamp.
  revert Hv Hs Hint. generalize (volumeVars t c). intros v Hv Hs Hint.
  destruct (committed_volume_conversions (SetVolume v) Hv Hs) as [Hiv Hu].
  unfold UNITY_GAIN_INT in Hiv.
  assert (IntSetVolume v = intVolumeOf (SetVolume v)) as Hint'.
  { rewrite Hint. unfold int16, wrap_signed.
    change (2 ^ (16 - 1)) with 32768. change (2 ^ 16) with 65536.
    rewrite Z.mod_small by lia. lia. }
  assert (forall done : bool,
             let v' := if done then rampSnap v
                       else if useFloat
                            then setIntPrevVolume (int32 (u4_28_from_float (PrevVolume v))) v
                            else setPrevVolume (float_from_u4_28 (IntPrevVolume v)) v in
             IntSetVolume v' = IntSetVolume v /\ SetVolume v' = SetVolume v
             /\ if done
                then IntVolumeInc v' = 0 /\ VolumeInc v' = F32.zero
                     /\ PrevVolume v' = SetVolume v
                     /\ IntPrevVolume v' = IntSetVolume v * 65536
                     /\ 0 <= u4_28_from_float (PrevVolume v') - IntPrevVolume v' <= 65536
                else IntVolumeInc v' = IntVolumeInc v /\ VolumeInc v' = VolumeInc v
                     /\ if useFloat
                        then PrevVolume v' = PrevVolume v
                             /\ IntPrevVolume v'
                                = int32 (u4_28_from_float (PrevVolume v'))
                        else IntPrevVolume v' = IntPrevVolume v
                             /\ PrevVolume v' = float_from_u4_28 (IntPrevVolume v'))
    as Hcases.
  { intros [|]; cbv zeta.
    - cbn [rampSnap IntSetVolume SetVolume IntVolumeInc VolumeInc PrevVolume IntPrevVolume].
      assert (int32 (Z.shiftl (IntSetVolume v) 16) = IntSetVolume v * 65536) as ->.
      { rewrite Z.shiftl_mul_pow2 by lia. change (2 ^ 16) with 65536.
        apply int32_small. lia. }
      repeat split; try reflexivity; lia.
    - destruct useFloat; repeat split; reflexivity. }
  unfold adjustVolumeRampChannel. destruct useFloat.
  - fold (rampDoneFloat v). exact (Hcases (rampDoneFloat v)).
  - fold (rampDoneInt v). exact (Hcases (rampDoneInt v)).
Qed.

Lemma adjustVolumeRamp_coherence_witness :
  prevVolume (adjustVolumeRamp false true ramping_track_1frame) 0 = 201326592
  /\ mPrevVolume (adjustVolumeRamp false true ramping_track_1frame) 0 = f_0_75012207
  /\ 0 <= u4_28_from_float f_0_75012207 - 201326592 <= 65536.
Proof.
  destruct (adjustVolumeRamp_coherence ramping_track_1frame false true 0
              (or_introl eq_refl)) as (_ & _ & H).
  - vm_compute. reflexivity.
  - vm_compute. reflexivity.
  - vm_compute. reflexivity.
  - assert (rampDoneFloat (volumeVars ramping_track_1frame 0) = true) as Hover
        by (vm_compute; reflexivity).
    cbv zeta in H. unfold rampDoneFloat in Hover.
    fold (mVolumeInc ramping_track_1frame 0) (mVolume ramping_track_1frame 0)
         (mPrevVolume ramping_track_1frame 0) in Hover.
    rewrite Hover in H. destruct H as (_ & _ & Hf & Hp & Hb).
    rewrite Hf, Hp in Hb. rewrite Hp, Hf.
    split; [vm_compute; reflexivity |]. split; [vm_compute; reflexivity |].
    exact Hb.
Defined.

(** C6 fails as stated, in both branches.  With float volumes, on the track
    whose one-frame ramp to 0.7501220703125 is complete, [adjustVolumeRamp]
    leaves [prevVolume[0]] at [3072 << 16] while
    [u4_28_from_float(mPrevVolume[0])] is 201359360, 32768 U4.28 steps away.
    With integer volumes, on the track whose 480-frame ramp to 1.0 has run
    241 frames and is still running, [prevVolume[0]] is 134776840 and
    [mPrevVolume[0] = float_from_u4_28(prevVolume[0])] converts back to
    134776832, 8 steps away: a binary32 number holds 24 of the 28 bits. *)
Lemma adjustVolumeRamp_not_within_one_lsb :
  (let t' := adjustVolumeRamp false true
               (set_vol0 (advancePrevVolume (vol0 ramping_track_1frame))
                         ramping_track_1frame) in
   ~ (Z.abs (prevVolume t' 0 - u4_28_from_float (mPrevVolume t' 0)) <= 1))
  /\ (let t := ramping_track 480 F32.one in
      let t' := adjustVolumeRamp false false
                  (set_vol0 (setIntPrevVolume
                               (ramp_acc 241 (prevVolume t 0) (volumeInc t 0)) (vol0 t)) t) in
      volumeInc t' 0 <> 0
      /\ ~ (Z.abs (prevVolume t' 0 - u4_28_from_float (mPrevVolume t' 0)) <= 1)).
Proof.
  split.
  - vm_compute. intros H. apply H. reflexivity.
  - vm_compute. split; [discriminate |]. intros H. apply H. reflexivity.
Qed.
(** ** C3: the float ramp of the track hooks *)







(** The modelled kernels advance both volumes once per frame. *)
Lemma float_kernel2_volumes (n : nat) :
  forall (save : bool) (vl vr va vlInc vrInc vaInc : float) (out in_ : list sample)
         (aux : option (list sample)),
  snd (fst (float_kernel2 n save true vl vr va vlInc vrInc vaInc out in_ aux))
  = (float_ramp n vl vlInc, float_ramp n vr vrInc).
Proof.
  induction n as [| n IH]; intros; [reflexivity |].
  cbn [float_kernel2 float_ramp]. cbv zeta.
  specialize (IH save (F32.add vl vlInc) (F32.add vr vrInc)
                 (match aux with Some _ => F32.add va vaInc | None => va end)
                 vlInc vrInc vaInc (drop 2 out) (drop 2 in_) (drop 1 <$> aux)).
  destruct (float_kernel2 n save true _ _ _ _ _ _ _ _ _) as [[[rest arest] vols] va_end].
  exact IH.
Qed.

Lemma float_kernels_follow_ramp (mt : MIXTYPE) (TA : ctype) (t : TrackBase)
  (out in_ : list sample) (n : Z) (aux : option (list sample)) (c : Z) :
  mMixerChannelCount t = 2 ->
  kernel_volume c (@ramp_kernel_call float_kernels mt T_float T_float TA t out n in_ aux)
  = float_ramp (Z.to_nat n) (mPrevVolume t c) (mVolumeInc t c).
Proof.
  intros Hch. unfold ramp_kernel_call, kernel_volume, float_kernels.
  cbn [ops_volumeRampMulti_float]. rewrite Hch. cbn [Z.eqb Pos.eqb andb is_float fst snd].
  rewrite float_kernel2_volumes. cbn [fst snd].
  unfold mPrevVolume, mVolumeInc, volumeVars. destruct (c =? 0); reflexivity.
Qed.



(** * Further properties of the control plane *)

(** Case analysis on the matches and conditionals of a hypothesis. *)
Ltac break_hyp H :=
  repeat match type of H with
         | None = Some _ => discriminate H
         | Some _ = None => discriminate H
         | context [match ?x with _ => _ end] =>
             match x with
             | context [match _ with _ => _ end] => fail 1
             | _ => destruct x eqn:?
             end
         end.

Lemma mTracks_putTrack (name : Z) (t : TrackBase) (m : AudioMixerBase) :
  mTracks (putTrack name t m) = <[name := t]> (mTracks m).
Proof. reflexivity. Qed.

Lemma mTracks_invalidate (m : AudioMixerBase) : mTracks (invalidate m) = mTracks m.
Proof. reflexivity. Qed.

Lemma mHook_invalidate (m : AudioMixerBase) : mHook (invalidate m) = process__validate.
Proof. reflexivity. Qed.

Lemma setChannelMasks_hook (m m' : AudioMixerBase) (name a b : Z) (changed : bool) :
  setChannelMasks m name a b = Some (changed, m') ->
  mHook m' = mHook m /\ (changed = false -> m' = m).
Proof.
  unfold setChannelMasks, ALOG_ASSERT. intros H. break_hyp H; injection H as <- <-; auto.
  split; [reflexivity | discriminate].
Qed.

(** X1.  A [setParameter] call that changes a track leaves the validate flag
    set, with one exception: TRACK/MIXER_FORMAT stores the new mixer format
    and leaves the process hook as it was. *)
Theorem setParameter_change_invalidates
  (m m' : AudioMixerBase) (name target param : Z) (value : Value) :
  setParameter m name target param value = Some m' ->
  mTracks m' <> mTracks m ->
  mHook m' = process__validate
  \/ (target = TRACK /\ param = MIXER_FORMAT /\ mHook m' = mHook m
      /\ exists t, mTracks m !! name = Some t
           /\ mTracks m' = <[name := set_mMixerFormat (valueInt value) t]> (mTracks m)).
Proof.
  unfold setParameter. intros H Hne.
  destruct (mTracks m !! name) as [track |] eqn:Htrack; [| discriminate].
  destruct (target =? TRACK) eqn:Ht.
  - destruct (param =? CHANNEL_MASK) eqn:P1.
    { destruct (setChannelMasks _ _ _ _) as [[changed m1] |] eqn:Hc; [| discriminate].
      injection H as <-. destruct (setChannelMasks_hook _ _ _ _ _ _ Hc) as [_ Hsame].
      destruct changed; [left; reflexivity | exfalso; apply Hne; rewrite Hsame; auto]. }
    destruct (param =? MAIN_BUFFER) eqn:P2.
    { destruct (negb _); injection H as <-; [left; reflexivity | contradiction]. }
    destruct (param =? AUX_BUFFER) eqn:P3.
    { destruct (negb _); injection H as <-; [left; reflexivity | contradiction]. }
    destruct (param =? FORMAT) eqn:P4.
    { unfold ALOG_ASSERT in H. destruct (negb _); [destruct (audio_is_linear_pcm _) |];
        [| discriminate |]; injection H as <-; [left; reflexivity | contradiction]. }
    destruct (param =? MIXER_FORMAT) eqn:P5.
    { destruct (negb _); injection H as <-; [| contradiction].
      right. apply Z.eqb_eq in Ht, P5. repeat split; auto. exists track. auto. }
    destruct (param =? MIXER_CHANNEL_MASK) eqn:P6.
    { destruct (setChannelMasks _ _ _ _) as [[changed m1] |] eqn:Hc; [| discriminate].
      injection H as <-. destruct (setChannelMasks_hook _ _ _ _ _ _ Hc) as [_ Hsame].
      destruct changed; [left; reflexivity | exfalso; apply Hne; rewrite Hsame; auto]. }
    destruct (param =? TEE_BUFFER) eqn:P7.
    { destruct (negb _); injection H as <-; [left; reflexivity | contradiction]. }
    destruct (param =? TEE_BUFFER_FRAME_COUNT) eqn:P8; [| discriminate].
    destruct (negb _); injection H as <-; [left; reflexivity | contradiction].
  - destruct (target =? RESAMPLE) eqn:Hr.
    + destruct (param =? SAMPLE_RATE).
      { unfold ALOG_ASSERT in H. destruct (0 <? valueInt value); [| discriminate].
        destruct (setResampler _ _ _) as [changed t'].
        destruct changed; injection H as <-; [left; reflexivity | contradiction]. }
      destruct (param =? RESET); [injection H as <-; left; reflexivity |].
      destruct (param =? REMOVE); [injection H as <-; left; reflexivity | discriminate].
    + destruct ((target =? RAMP_VOLUME) || (target =? VOLUME)); [| discriminate].
      destruct (param =? AUXLEVEL).
      { destruct (setVolumeRampVariables _ _ _) as [changed v].
        destruct changed; injection H as <-; [left; reflexivity | contradiction]. }
      destruct (_ && _); [| discriminate].
      destruct (setVolumeRampVariables _ _ _) as [changed v].
      destruct changed; injection H as <-; [left; reflexivity | contradiction].
Qed.

Lemma tracks_differ (name : Z) (m m' : AudioMixerBase) :
  mTracks m' !! name <> mTracks m !! name -> mTracks m' <> mTracks m.
Proof. intros H Heq. apply H. rewrite Heq. reflexivity. Qed.

Lemma setParameter_change_invalidates_witness :
  exists m', setParameter mixer_one_track 1 TRACK MAIN_BUFFER (mkValue 1000 F32.zero) = Some m'
             /\ mHook mixer_one_track = process__nop /\ mHook m' = process__validate.
Proof.
  eexists. split; [vm_compute; reflexivity |]. split; [reflexivity |].
  match goal with
  | |- mHook ?m' = _ =>
      destruct (setParameter_change_invalidates mixer_one_track m' 1 TRACK MAIN_BUFFER
                  (mkValue 1000 F32.zero)) as [H | (_ & Hp & _)];
      [ vm_compute; reflexivity
      | apply (tracks_differ 1); vm_compute; discriminate
      | exact H
      | discriminate Hp ]
  end.
Defined.

(** X2.  Creating a track under a fresh name and destroying it again gives
    back the mixer: the registry is as before and, the new track not being
    enabled, the process hook is untouched. *)
Theorem destroy_create_roundtrip
  (m m' : AudioMixerBase) (name channelMask format sessionId : Z) :
  mTracks m !! name = None ->
  create m name channelMask format sessionId = Some (OK, m') ->
  destroy m' name = Some m.
Proof.
  intros Hnone Hc. unfold create, exists_ in Hc.
  rewrite bool_decide_eq_false_2 in Hc by (rewrite Hnone; intros [? ?]; discriminate).
  destruct (negb (isValidChannelMask channelMask)); [discriminate |].
  destruct (negb (isValidFormat format)); [discriminate |].
  injection Hc as <-.
  unfold destroy. rewrite mTracks_putTrack, lookup_insert_eq. cbn [enabled].
  unfold set_mTracks, putTrack, set_mTracks. cbn.
  rewrite delete_insert_eq, delete_id by exact Hnone. destruct m; reflexivity.
Qed.

Lemma destroy_create_roundtrip_witness :
  destroy mixer_one_track 1 = Some (newMixer 64 48000).
Proof.
  apply (destroy_create_roundtrip (newMixer 64 48000) mixer_one_track 1
           AUDIO_CHANNEL_OUT_STEREO AUDIO_FORMAT_PCM_16_BIT 0); reflexivity.
Defined.

Lemma set_enabled_undo (t : TrackBase) :
  enabled t = false -> set_enabled false (set_enabled true t) = t.
Proof. destruct t; cbn. intros ->. reflexivity. Qed.

(** X3.  [enable] on a disabled track sets the flag and invalidates the
    process hook; a second [enable] changes nothing; [disable] then gives
    back the registry, and the mixer differs from the one before [enable]
    only by the validate flag. *)
Theorem enable_then_disable (m : AudioMixerBase) (name : Z) (t : TrackBase) :
  mTracks m !! name = Some t -> enabled t = false ->
  exists m1, enable m name = Some m1
    /\ mHook m1 = process__validate
    /\ mTracks m1 = <[name := set_enabled true t]> (mTracks m)
    /\ enable m1 name = Some m1
    /\ disable m name = Some m
    /\ disable m1 name = Some (invalidate m).
Proof.
  intros Ht Hen. unfold enable, disable. rewrite Ht, Hen. cbn [negb].
  eexists. split; [reflexivity |]. split; [reflexivity |]. split; [reflexivity |].
  rewrite mTracks_invalidate, mTracks_putTrack, lookup_insert_eq.
  assert (enabled (set_enabled true t) = true) as -> by (destruct t; reflexivity).
  cbn [negb]. split; [reflexivity |]. split; [reflexivity |].
  f_equal. unfold invalidate, putTrack, set_mTracks, set_mHook. cbn.
  rewrite insert_insert_eq, set_enabled_undo by exact Hen.
  rewrite insert_id by exact Ht. reflexivity.
Qed.

Lemma enable_then_disable_witness :
  exists m1, enable mixer_one_track 1 = Some m1 /\ disable m1 1 = Some (invalidate mixer_one_track).
Proof.
  destruct (enable_then_disable mixer_one_track 1
              (default null_track (mTracks mixer_one_track !! 1)))
    as (m1 & H1 & _ & _ & _ & _ & H2); [reflexivity | reflexivity |].
  exists m1. split; assumption.
Defined.

Lemma setChannelMasks_aborts (m : AudioMixerBase) (name a b : Z) (t : TrackBase) :
  mTracks m !! name = Some t ->
  setChannelMasks m name a b = None <-> zero_channels t a b = true.
Proof.
  intros Ht. unfold setChannelMasks, zero_channels, ALOG_ASSERT. rewrite Ht.
  destruct ((a =? channelMask t) && (b =? mMixerChannelMask t)); cbn [negb andb].
  - split; discriminate.
  - destruct (audio_channel_count_from_out_mask a =? 0),
      (audio_channel_count_from_out_mask b =? 0); cbn [negb andb orb];
      split; (discriminate || reflexivity).
Qed.

(** Evaluates the comparisons and memberships of the goal that are closed. *)
Ltac decide_closed :=
  repeat match goal with
         | |- context [?a =? ?b] =>
             is_const a; is_const b;
             let v := eval vm_compute in (a =? b) in change (a =? b) with v
         | |- context [bool_decide (?a ∈ ?l)] =>
             is_const a;
             let v := eval vm_compute in (bool_decide (a ∈ l)) in
             change (bool_decide (a ∈ l)) with v
         end;
  cbn [andb orb negb].

(** X4.  On a registered name [setParameter] aborts exactly when the
    [(target, param)] pair is one its switch does not handle, among them the
    declared target TIMESTRETCH and the declared name TEE_BUFFER_FORMAT, or
    when an assertion on the value fails: a channel mask that differs from
    the track's and leaves the track or the mixer side without channels, a
    format that differs from the track's and is not linear PCM, a sample
    rate that is not positive. *)
Theorem setParameter_aborts_iff
  (m : AudioMixerBase) (name target param : Z) (value : Value) (t : TrackBase) :
  mTracks m !! name = Some t ->
  (setParameter m name target param value = None
   <-> recognised_parameter target param = false
       \/ failed_assertion t target param value = true)
  /\ recognised_parameter TIMESTRETCH param = false
  /\ recognised_parameter TRACK TEE_BUFFER_FORMAT = false.
Proof.
  intros Ht. split; [| split; reflexivity].
  pose proof (setChannelMasks_aborts m name (uint32 (valueInt value))
                (mMixerChannelMask t) t Ht) as A1.
  pose proof (setChannelMasks_aborts m name (channelMask t)
                (uint32 (valueInt value)) t Ht) as A2.
  unfold setParameter, recognised_parameter, failed_assertion, ALOG_ASSERT.
  rewrite Ht. cbv zeta.
  destruct (Z.eqb_spec target TRACK) as [-> | NT].
  - decide_closed.
    destruct (Z.eqb_spec param CHANNEL_MASK) as [-> | N1].
    { decide_closed. rewrite ?orb_false_r. clear A2.
      destruct (setChannelMasks _ _ _ _) as [[c r] |].
      - split; [discriminate | intros [H | H]; [discriminate |]].
        apply A1 in H. discriminate.
      - split; [intros _; right; apply A1; reflexivity | reflexivity]. }
    destruct (Z.eqb_spec param MAIN_BUFFER) as [-> | N2].
    { decide_closed. destruct (negb _); split; (discriminate || intros [H | H]; discriminate). }
    destruct (Z.eqb_spec param AUX_BUFFER) as [-> | N3].
    { decide_closed. destruct (negb _); split; (discriminate || intros [H | H]; discriminate). }
    destruct (Z.eqb_spec param FORMAT) as [-> | N4].
    { decide_closed. rewrite ?orb_false_r.
      destruct (mFormat t =? valueInt value); cbn [negb andb].
      - split; [discriminate | intros [H | H]; discriminate].
      - destruct (audio_is_linear_pcm (valueInt value)); cbn [negb].
        + split; [discriminate | intros [H | H]; discriminate].
        + split; [intros _; right; reflexivity | reflexivity]. }
    destruct (Z.eqb_spec param MIXER_FORMAT) as [-> | N5].
    { decide_closed. destruct (negb _); split; (discriminate || intros [H | H]; discriminate). }
    destruct (Z.eqb_spec param MIXER_CHANNEL_MASK) as [-> | N6].
    { decide_closed. rewrite ?orb_false_r. clear A1.
      destruct (setChannelMasks _ _ _ _) as [[c r] |].
      - split; [discriminate | intros [H | H]; [discriminate |]].
        apply A2 in H. discriminate.
      - split; [intros _; right; apply A2; reflexivity | reflexivity]. }
    destruct (Z.eqb_spec param TEE_BUFFER) as [-> | N7].
    { decide_closed. destruct (negb _); split; (discriminate || intros [H | H]; discriminate). }
    destruct (Z.eqb_spec param TEE_BUFFER_FRAME_COUNT) as [-> | N8].
    { decide_closed. destruct (negb _); split; (discriminate || intros [H | H]; discriminate). }
    split; [intros _; left | reflexivity].
    rewrite ?orb_false_r.
    apply bool_decide_eq_false_2. rewrite !elem_of_cons, elem_of_nil. tauto.
  - cbn [andb orb]. destruct (Z.eqb_spec target RESAMPLE) as [-> | NR].
    + decide_closed.
      destruct (Z.eqb_spec param SAMPLE_RATE) as [-> | N1].
      { decide_closed. rewrite ?orb_false_r.
        destruct (Z.ltb_spec 0 (valueInt value)) as [Hpos | Hneg].
        - destruct (setResampler _ _ _) as [ch t'].
          split; [destruct ch; discriminate | intros [H | H]; [discriminate |]].
          apply Z.leb_le in H. lia.
        - split; [intros _; right; apply Z.leb_le; lia | reflexivity]. }
      destruct (Z.eqb_spec param RESET) as [-> | N2].
      { decide_closed. split; (discriminate || intros [H | H]; discriminate). }
      destruct (Z.eqb_spec param REMOVE) as [-> | N3].
      { decide_closed. split; (discriminate || intros [H | H]; discriminate). }
      split; [intros _; left | reflexivity].
      rewrite ?orb_false_r.
      apply bool_decide_eq_false_2. rewrite !elem_of_cons, elem_of_nil. tauto.
    + cbn [andb orb]. destruct ((target =? RAMP_VOLUME) || (target =? VOLUME)); cbn [andb].
      * destruct (param =? AUXLEVEL); cbn [orb].
        { destruct (setVolumeRampVariables _ _ _) as [ch v].
          destruct ch; split; (discriminate || intros [H | H]; discriminate). }
        destruct (_ && _).
        { destruct (setVolumeRampVariables _ _ _) as [ch v].
          destruct ch; split; (discriminate || intros [H | H]; discriminate). }
        split; [intros _; left; reflexivity | reflexivity].
      * split; [intros _; left; reflexivity | reflexivity].
Qed.

Lemma setParameter_aborts_iff_witness :
  setParameter mixer_one_track 1 TRACK TEE_BUFFER_FORMAT (mkValue 0 F32.zero) = None
  /\ setParameter mixer_one_track 1 RESAMPLE SAMPLE_RATE (mkValue 0 F32.zero) = None.
Proof.
  split.
  - destruct (setParameter_aborts_iff mixer_one_track 1 TRACK TEE_BUFFER_FORMAT
                (mkValue 0 F32.zero) (default null_track (mTracks mixer_one_track !! 1)))
      as [[_ H] _]; [reflexivity |].
    apply H. left. reflexivity.
  - destruct (setParameter_aborts_iff mixer_one_track 1 RESAMPLE SAMPLE_RATE
                (mkValue 0 F32.zero) (default null_track (mTracks mixer_one_track !! 1)))
      as [[_ H] _]; [reflexivity |].
    apply H. right. reflexivity.
Defined.

(** ** The resampler of a track *)

Lemma resampler_matches_same (m m' : AudioMixerBase) (t t' : TrackBase) :
  mSampleRate m' = mSampleRate m ->
  mResampler t' = mResampler t -> sampleRate t' = sampleRate t ->
  channelCount t' = channelCount t -> mMixerInFormat t' = mMixerInFormat t ->
  resampler_matches m t -> resampler_matches m' t'.
Proof.
  unfold resampler_matches. intros -> -> -> -> ->. trivial.
Qed.

Ltac same_track m0 t :=
  apply resampler_matches_same with (m := m0) (t := t);
  [reflexivity | destruct t; reflexivity .. | ].

Lemma mSampleRate_putTrack (name : Z) (t : TrackBase) (m : AudioMixerBase) :
  mSampleRate (putTrack name t m) = mSampleRate m.
Proof. reflexivity. Qed.

Lemma mSampleRate_invalidate (m : AudioMixerBase) :
  mSampleRate (invalidate m) = mSampleRate m.
Proof. reflexivity. Qed.

Lemma resamplers_match_putTrack (m : AudioMixerBase) (name : Z) (t : TrackBase) :
  resamplers_match m -> resampler_matches m t -> resamplers_match (putTrack name t m).
Proof.
  intros Hm Ht n t'. rewrite mTracks_putTrack.
  destruct (decide (n = name)) as [-> | Hne].
  - rewrite lookup_insert_eq. intros [= <-]. exact Ht.
  - rewrite lookup_insert_ne by congruence. intros Hl.
    exact (Hm n t' Hl).
Qed.

Lemma resamplers_match_invalidate (m : AudioMixerBase) :
  resamplers_match m -> resamplers_match (invalidate m).
Proof.
  intros Hm n t. rewrite mTracks_invalidate. intros Hl. exact (Hm n t Hl).
Qed.

Lemma setResampler_matches (m : AudioMixerBase) (r : Z) (t : TrackBase) :
  resampler_matches m t ->
  resampler_matches m (snd (setResampler r (mSampleRate m) t)).
Proof.
  intros H. unfold setResampler.
  destruct (negb (r =? mSampleRate m) || doesResample t); [| exact H].
  destruct (negb (sampleRate t =? r)); [| exact H].
  cbv zeta. cbn [snd].
  destruct t as [? ? ? ? ? ? ? ? ? ? ? ? rs ? ? ? ? ? ? ? ? ? ? ? ?].
  unfold resampler_matches in *. cbn in *.
  destruct rs as [rs |]; cbn in *.
  - exact H.
  - repeat split.
Qed.

Lemma recreateResampler_matches (m : AudioMixerBase) (t : TrackBase) :
  (mResampler t = None -> sampleRate t = mSampleRate m) ->
  resampler_matches m (recreateResampler (mSampleRate m) t).
Proof.
  intros H. unfold recreateResampler.
  destruct (mResampler t) as [rs |] eqn:E.
  - cbv zeta. apply setResampler_matches.
    destruct t; reflexivity.
  - unfold resampler_matches. rewrite E. auto.
Qed.

Lemma setChannelMasks_matches (m m' : AudioMixerBase) (name a b : Z) (c : bool) :
  resamplers_match m -> setChannelMasks m name a b = Some (c, m') ->
  resamplers_match m' /\ mSampleRate m' = mSampleRate m.
Proof.
  intros Hm. unfold setChannelMasks.
  destruct (mTracks m !! name) as [t |] eqn:Ht; [| discriminate].
  destruct (_ && _).
  - intros [= <- <-]. auto.
  - cbv zeta. unfold ALOG_ASSERT. destruct (_ && _); [| discriminate].
    intros [= <- <-]. split; [| reflexivity].
    apply resamplers_match_putTrack; [exact Hm |].
    apply recreateResampler_matches.
    pose proof (Hm name t Ht) as Hr. unfold resampler_matches in Hr.
    destruct t as [? ? ? ? ? ? ? ? ? ? ? ? rs ? ? ? ? ? ? ? ? ? ? ? ?].
    cbn in *. intros ->. exact Hr.
Qed.

Lemma resetResampler_matches (m : AudioMixerBase) (t : TrackBase) :
  resampler_matches m t -> resampler_matches m (resetResampler t).
Proof.
  unfold resetResampler, resampler_matches.
  destruct t as [? ? ? ? ? ? ? ? ? ? ? ? rs ? ? ? ? ? ? ? ? ? ? ? ?].
  cbn. destruct rs as [rs |]; cbn; trivial.
Qed.

Lemma setParameter_matches (m m' : AudioMixerBase) (name target param : Z) (value : Value) :
  resamplers_match m -> setParameter m name target param value = Some m' ->
  resamplers_match m' /\ mSampleRate m' = mSampleRate m.
Proof.
  intros Hm. unfold setParameter, ALOG_ASSERT. cbv zeta.
  destruct (mTracks m !! name) as [t |] eqn:Ht; [| discriminate].
  pose proof (Hm name t Ht) as Hr.
  assert (Hput : forall t', resampler_matches m t' ->
            resamplers_match (invalidate (putTrack name t' m))
            /\ mSampleRate (invalidate (putTrack name t' m)) = mSampleRate m).
  { intros t' H'. split; [| reflexivity].
    apply resamplers_match_invalidate, resamplers_match_putTrack; assumption. }
  assert (Hchan : forall a b r, setChannelMasks m name a b = Some r ->
            resamplers_match (if fst r then invalidate (snd r) else snd r)
            /\ mSampleRate (if fst r then invalidate (snd r) else snd r) = mSampleRate m).
  { intros a b [c m1] E. destruct (setChannelMasks_matches m m1 name a b c Hm E) as [H1 H2].
    cbn [fst snd]. destruct c; [split; [apply resamplers_match_invalidate |] |]; auto. }
  destruct (target =? TRACK).
  { repeat match goal with
           | |- context [if ?p =? ?c then _ else _] => destruct (p =? c)
           end; try discriminate;
      lazymatch goal with
      | |- context [setChannelMasks ?x ?n ?a ?b] =>
          destruct (setChannelMasks x n a b) as [[c m1] |] eqn:E; [| discriminate];
          intros [= <-]; exact (Hchan _ _ _ E)
      | |- _ =>
          destruct (negb _);
          [try (destruct (audio_is_linear_pcm _); [| discriminate]) |];
          intros [= <-]; [| auto];
          first [ apply Hput
                | split; [apply resamplers_match_putTrack; [exact Hm |] | reflexivity] ];
          same_track m t; exact Hr
      end. }
  destruct (target =? RESAMPLE).
  { destruct (param =? SAMPLE_RATE).
    { destruct (0 <? valueInt value); [| discriminate].
      pose proof (setResampler_matches m (uint32 (valueInt value)) t Hr) as Hs.
      destruct (setResampler _ _ _) as [ch t']. cbn [snd] in Hs.
      destruct ch; intros [= <-]; auto. }
    destruct (param =? RESET).
    { intros [= <-]. apply Hput, resetResampler_matches, Hr. }
    destruct (param =? REMOVE); [| discriminate].
    intros [= <-]. apply Hput. destruct t; reflexivity. }
  destruct ((target =? RAMP_VOLUME) || (target =? VOLUME)); [| discriminate].
  destruct (param =? AUXLEVEL).
  { destruct (setVolumeRampVariables _ _ _) as [ch v].
    destruct ch; intros [= <-]; auto. apply Hput. same_track m t; exact Hr. }
  destruct (_ && _); [| discriminate].
  destruct (setVolumeRampVariables _ _ _) as [ch v].
  destruct ch; intros [= <-]; auto. apply Hput.
  apply resampler_matches_same with (m := m) (t := t); try reflexivity; [..| exact Hr];
    unfold set_volumeVars; destruct (_ =? _); destruct t; reflexivity.
Qed.

Lemma apply_control_matches (m m' : AudioMixerBase) (op : control_op) :
  resamplers_match m -> apply_control m op = Some m' ->
  resamplers_match m' /\ mSampleRate m' = mSampleRate m.
Proof.
  intros Hm. destruct op as [name mask fmt sid | name | name | name | name tg pa va | name p];
    cbn [apply_control].
  - unfold create. destruct (exists_ m name); [discriminate |].
    destruct (negb _); [intros [= <-]; auto |].
    destruct (negb _); [intros [= <-]; auto |].
    cbv zeta. cbn [fmap option_fmap option_map snd]. intros [= <-].
    split; [| reflexivity].
    apply resamplers_match_putTrack; [exact Hm | reflexivity].
  - unfold destroy. destruct (mTracks m !! name) as [t |]; [| discriminate].
    cbv zeta. intros [= <-]. split; [| destruct (enabled t); reflexivity].
    intros n t'. assert (mTracks (if enabled t then invalidate m else m) = mTracks m) as Hk
      by (destruct (enabled t); reflexivity).
    unfold set_mTracks. cbn [mTracks]. rewrite Hk.
    intros Hl. apply lookup_delete_Some in Hl as [_ Hl].
    apply resampler_matches_same with (m := m) (t := t'); try reflexivity.
    + destruct (enabled t); reflexivity.
    + exact (Hm n t' Hl).
  - unfold enable. destruct (mTracks m !! name) as [t |] eqn:Ht; [| discriminate].
    destruct (negb _); intros [= <-]; auto. split; [| reflexivity].
    apply resamplers_match_invalidate, resamplers_match_putTrack; [exact Hm |].
    same_track m t. exact (Hm name t Ht).
  - unfold disable. destruct (mTracks m !! name) as [t |] eqn:Ht; [| discriminate].
    destruct (enabled t); intros [= <-]; auto. split; [| reflexivity].
    apply resamplers_match_invalidate, resamplers_match_putTrack; [exact Hm |].
    same_track m t. exact (Hm name t Ht).
  - apply setParameter_matches. exact Hm.
  - unfold setBufferProvider. destruct (mTracks m !! name) as [t |] eqn:Ht; [| discriminate].
    intros [= <-]. split; [| reflexivity].
    apply resamplers_match_putTrack; [exact Hm |].
    same_track m t. exact (Hm name t Ht).
Qed.

Lemma run_control_matches (ops : list control_op) (m m' : AudioMixerBase) :
  resamplers_match m -> run_control ops m = Some m' ->
  resamplers_match m' /\ mSampleRate m' = mSampleRate m.
Proof.
  unfold run_control. revert m. induction ops as [| op ops IH]; intros m Hm; cbn [for_each].
  - intros [= <-]. auto.
  - destruct (apply_control m op) as [m1 |] eqn:E; [| discriminate].
    destruct (apply_control_matches m m1 op Hm E) as [H1 H2].
    intros Hrun. destruct (IH m1 H1 Hrun) as [H3 H4]. split; [exact H3 | congruence].
Qed.

(** X5.  After any sequence of control calls on a new mixer that does not
    abort, the device rate is the one given at construction, a track without
    a resampler runs at the device rate, and the resampler of a track was
    created for the device rate, the channel count and the mixer input
    format the track has now. *)
Theorem run_control_resamplers_match
  (ops : list control_op) (frames rate : Z) (m : AudioMixerBase) :
  run_control ops (newMixer frames rate) = Some m ->
  mSampleRate m = rate
  /\ forall name t, mTracks m !! name = Some t ->
       match mResampler t with
       | None => sampleRate t = rate
       | Some r => rs_devSampleRate r = rate
                   /\ rs_channelCount r = channelCount t
                   /\ rs_format r = mMixerInFormat t
       end.
Proof.
  intros Hrun.
  assert (H0 : resamplers_match (newMixer frames rate)).
  { intros n t. unfold newMixer. cbn [mTracks]. rewrite lookup_empty. discriminate. }
  destruct (run_control_matches ops _ m H0 Hrun) as [H1 H2].
  change (mSampleRate (newMixer frames rate)) with rate in H2.
  split; [exact H2 |]. intros n t Hl. specialize (H1 n t Hl).
  unfold resampler_matches in H1. rewrite H2 in H1. exact H1.
Qed.

Lemma run_control_resamplers_match_witness :
  let ops := [OpCreate 7 AUDIO_CHANNEL_OUT_STEREO AUDIO_FORMAT_PCM_16_BIT 0;
              OpSetParameter 7 RESAMPLE SAMPLE_RATE (mkValue 44100 F32.zero);
              OpSetParameter 7 TRACK CHANNEL_MASK (mkValue AUDIO_CHANNEL_OUT_MONO F32.zero);
              OpSetParameter 7 RESAMPLE SAMPLE_RATE (mkValue 48000 F32.zero)] in
  let m := default (newMixer 480 48000) (run_control ops (newMixer 480 48000)) in
  (rs_channelCount <$> (mTracks m !! 7 ≫= mResampler)) = Some 1
  /\ mSampleRate m = 48000.
Proof.
  intros ops m. split; [reflexivity |].
  apply (run_control_resamplers_match ops 480 48000 m). reflexivity.
Defined.

(** X6.  For a track whose resampler matches the mixer, [setResampler]
    leaves the track at the requested rate and reports a change exactly when
    the rate differed; afterwards the track resamples iff it did before or
    the requested rate is not the device rate, so a resampler stays in place
    when the rate returns to the device rate. *)
Theorem setResampler_rate_and_resampler
  (m : AudioMixerBase) (r : Z) (t t' : TrackBase) (changed : bool) :
  resampler_matches m t ->
  setResampler r (mSampleRate m) t = (changed, t') ->
  sampleRate t' = r
  /\ changed = negb (sampleRate t =? r)
  /\ doesResample t' = doesResample t || negb (r =? mSampleRate m)
  /\ (doesResample t = true -> mResampler t' = mResampler t).
Proof.
  intros Hr. unfold setResampler, resampler_matches, doesResample in *.
  destruct t as [? ? ? ? ? ? ? ? ? ? ? ? rs sr ? ? ? ? ? ? ? ? ? ? ?].
  cbn in *. destruct rs as [rs |]; cbn.
  - rewrite orb_true_r. destruct (Z.eqb_spec sr r) as [-> | Hne]; cbn.
    + intros [= <- <-]. cbn. auto.
    + intros [= <- <-]. cbn. auto.
  - subst sr. rewrite orb_false_r.
    destruct (Z.eqb_spec r (mSampleRate m)) as [-> | Hne]; cbn.
    + intros [= <- <-]. cbn. rewrite Z.eqb_refl. repeat split; discriminate.
    + destruct (Z.eqb_spec (mSampleRate m) r) as [E | _]; [congruence |]. cbn.
      intros [= <- <-]. cbn. repeat split; discriminate.
Qed.

Lemma setResampler_rate_and_resampler_witness :
  let t := default null_track (mTracks mixer_one_track !! 1) in
  let t1 := snd (setResampler 44100 (mSampleRate mixer_one_track) t) in
  let t2 := snd (setResampler (mSampleRate mixer_one_track) (mSampleRate mixer_one_track) t1) in
  doesResample t = false /\ doesResample t2 = true
  /\ sampleRate t2 = mSampleRate mixer_one_track.
Proof.
  intros t t1 t2. split; [reflexivity |].
  destruct (setResampler_rate_and_resampler mixer_one_track (mSampleRate mixer_one_track)
              t1 t2 (fst (setResampler (mSampleRate mixer_one_track)
                                       (mSampleRate mixer_one_track) t1)))
    as (H1 & _ & H3 & _).
  - vm_compute. repeat split.
  - reflexivity.
  - split; [rewrite H3; reflexivity | exact H1].
Defined.

(** ** [process__validate]: the scan of the registry *)

Lemma for_each_invariant {A S : Type} (f : S -> A -> option S)
  (I : list A -> S -> Prop) (l : list A) :
  (forall done x rest s1 s2,
      done ++ x :: rest = l -> I done s1 -> f s1 x = Some s2 -> I (done ++ [x]) s2) ->
  forall done rest s s',
    done ++ rest = l -> I done s -> for_each f s rest = Some s' -> I l s'.
Proof.
  intros Hstep done rest. revert done.
  induction rest as [| x rest IH]; intros done s s' Hl HI; cbn [for_each].
  - intros [= <-]. rewrite app_nil_r in Hl. subst l. exact HI.
  - destruct (f s x) as [s1 |] eqn:E; [| discriminate].
    intros Hrun. apply (IH (done ++ [x]) s1 s').
    + rewrite <- app_assoc. exact Hl.
    + exact (Hstep done x rest s s1 Hl HI E).
    + exact Hrun.
Qed.

Lemma trackNames_NoDup (m : AudioMixerBase) : NoDup (trackNames m).
Proof.
  unfold trackNames. rewrite merge_sort_Permutation.
  apply NoDup_fst_map_to_list.
Qed.

Lemma elem_of_trackNames (m : AudioMixerBase) (name : Z) :
  name ∈ trackNames m <-> is_Some (mTracks m !! name).
Proof.
  unfold trackNames. rewrite merge_sort_Permutation, list_elem_of_fmap. split.
  - intros [[n t] [-> Hin]]. apply elem_of_map_to_list in Hin. cbn. eauto.
  - intros [t Ht]. exists (name, t). split; [reflexivity |].
    apply elem_of_map_to_list. exact Ht.
Qed.

Lemma StronglySorted_le_lt (l : list Z) :
  StronglySorted Z.le l -> NoDup l -> StronglySorted Z.lt l.
Proof.
  induction 1 as [| x l Hs IH Hall]; intros Hnd; constructor.
  - apply IH. apply NoDup_cons in Hnd. tauto.
  - apply NoDup_cons in Hnd as [Hx _].
    rewrite Forall_forall in Hall |- *. intros y Hy.
    specialize (Hall y Hy). assert (x <> y) by (intros ->; exact (Hx Hy)).
    lia.
Qed.

Lemma trackNames_sorted (m : AudioMixerBase) : StronglySorted Z.lt (trackNames m).
Proof.
  apply StronglySorted_le_lt; [| apply trackNames_NoDup].
  unfold trackNames. apply StronglySorted_merge_sort.
  - intros x y z. apply Z.le_trans.
  - intros x y. apply Z.le_ge_cases.
Qed.

Lemma StronglySorted_lt_filter (P : Z -> Prop) `{!forall x, Decision (P x)} (l : list Z) :
  StronglySorted Z.lt l -> StronglySorted Z.lt (filter P l).
Proof.
  induction 1 as [| x l Hs IH Hall]; [constructor |].
  rewrite filter_cons. destruct (decide (P x)); [| exact IH].
  constructor; [exact IH |].
  rewrite Forall_forall in Hall |- *. intros y Hy.
  apply Hall. apply list_elem_of_filter in Hy as [_ Hy]. exact Hy.
Qed.

Lemma validate_track_fields (t t' : TrackBase) (fl fl' : validate_flags) :
  validate_track t fl = Some (t', fl') ->
  t' = set_hook (hook t') (set_needs (needs t') t).
Proof.
  unfold validate_track. cbv zeta.
  match goal with
  | |- context [set_needs ?n t] => generalize n
  end.
  intros n H.
  repeat match type of H with
         | context [match getTrackHook ?a ?b ?c ?d with _ => _ end] =>
             destruct (getTrackHook a b c d); try discriminate H
         | context [if ?c then _ else _] => destruct c
         end;
    cbv beta iota in H;
    repeat match type of H with
           | context [match getTrackHook ?a ?b ?c ?d with _ => _ end] =>
               destruct (getTrackHook a b c d); try discriminate H
           | context [if ?c then _ else _] => destruct c
           end;
    try discriminate H; injection H as <- _; destruct t; reflexivity.
Qed.

Lemma filter_snoc_true {A : Type} (P : A -> Prop) `{!forall x, Decision (P x)}
  (l : list A) (x : A) : P x -> filter P (l ++ [x]) = filter P l ++ [x].
Proof.
  intros HP. rewrite filter_app, filter_cons, decide_True by exact HP. reflexivity.
Qed.

Lemma filter_snoc_false {A : Type} (P : A -> Prop) `{!forall x, Decision (P x)}
  (l : list A) (x : A) : ~ P x -> filter P (l ++ [x]) = filter P l.
Proof.
  intros HP. rewrite filter_app, filter_cons, decide_False by exact HP.
  apply app_nil_r.
Qed.

Lemma group_of_list {A : Type} (g : list A) :
  default [] (match g with [] => None | a :: l => Some (a :: l) end) = g.
Proof. destruct g; reflexivity. Qed.

Lemma validate_scan_invariant (m m' : AudioMixerBase) (fl : validate_flags) :
  validate_scan m = Some (m', fl) ->
  mEnabled m' = filter (is_enabled m) (trackNames m)
  /\ (forall key, mGroups m' !! key
                  = match filter (mixes_into m key) (trackNames m) with
                    | [] => None
                    | g => Some g
                    end)
  /\ (forall n, enabled <$> mTracks m' !! n = enabled <$> mTracks m !! n)
  /\ (forall n, mainBuffer <$> mTracks m' !! n = mainBuffer <$> mTracks m !! n).
Proof.
  unfold validate_scan. intros Hrun.
  pose (I := fun (done : list Z) (s : AudioMixerBase * validate_flags) =>
     mEnabled (fst s) = filter (is_enabled m) done
     /\ (forall key, mGroups (fst s) !! key
                     = match filter (mixes_into m key) done with
                       | [] => None
                       | g => Some g
                       end)
     /\ (forall n, enabled <$> mTracks (fst s) !! n = enabled <$> mTracks m !! n)
     /\ (forall n, mainBuffer <$> mTracks (fst s) !! n = mainBuffer <$> mTracks m !! n)
     /\ (forall n, n ∉ done -> mTracks (fst s) !! n = mTracks m !! n)).
  assert (HI : I (trackNames m) (m', fl)).
  { eapply (for_each_invariant _ I (trackNames m)) with (done := []);
      [| reflexivity | | exact Hrun].
    - (* one iteration *)
      intros done x rest [m1 fl1] s2 Hl (He & Hg & Hen & Hmb & Hout).
      cbn [fst] in *.
      assert (Hx : x ∉ done).
      { pose proof (trackNames_NoDup m) as Hnd. rewrite <- Hl in Hnd.
        apply NoDup_app in Hnd as (_ & Hd & _). intros Hin.
        apply (Hd x Hin). left. }
      rewrite (Hout x Hx).
      destruct (mTracks m !! x) as [t |] eqn:Ht; [| discriminate].
      destruct (enabled t) eqn:Een; cbn [negb].
      + (* enabled *)
        destruct (validate_track t fl1) as [[t' fl'] |] eqn:Ev; [| discriminate].
        intros [= <-]. cbn [fst].
        apply validate_track_fields in Ev.
        assert (Een' : enabled t' = true) by (rewrite Ev; destruct t; exact Een).
        assert (Emb' : mainBuffer t' = mainBuffer t) by (rewrite Ev; destruct t; reflexivity).
        assert (Hix : is_enabled m x) by (unfold is_enabled; rewrite Ht; cbn; congruence).
        unfold I. cbn [fst putTrack set_mTracks set_mGroups_mEnabled mEnabled mGroups mTracks].
        split; [| split; [| split; [| split]]].
        * rewrite He. symmetry. apply filter_snoc_true. exact Hix.
        * intros key. unfold group_add.
          destruct (decide (key = mainBuffer t)) as [-> | Hk].
          -- rewrite lookup_insert_eq, Hg, group_of_list.
             rewrite filter_snoc_true
               by (split; [exact Hix | rewrite Ht; reflexivity]).
             destruct (filter (mixes_into m (mainBuffer t)) done); reflexivity.
          -- rewrite lookup_insert_ne by congruence. rewrite Hg.
             rewrite filter_snoc_false; [reflexivity |].
             intros [_ Hm]. rewrite Ht in Hm. cbn in Hm. congruence.
        * intros n. destruct (decide (n = x)) as [-> | Hn].
          -- rewrite lookup_insert_eq, Ht. cbn. congruence.
          -- rewrite lookup_insert_ne by congruence. apply Hen.
        * intros n. destruct (decide (n = x)) as [-> | Hn].
          -- rewrite lookup_insert_eq, Ht. cbn. congruence.
          -- rewrite lookup_insert_ne by congruence. apply Hmb.
        * intros n Hn. rewrite lookup_insert_ne.
          -- apply Hout. intros Hd. apply Hn, elem_of_app. left. exact Hd.
          -- intros ->. apply Hn, elem_of_app. right. left.
      + (* disabled: skipped *)
        intros [= <-]. cbn [fst].
        assert (Hix : ~ is_enabled m x) by (unfold is_enabled; rewrite Ht; cbn; congruence).
        unfold I. cbn [fst]. split; [| split; [| split; [| split]]].
        * rewrite He. symmetry. apply filter_snoc_false. exact Hix.
        * intros key. rewrite Hg.
          rewrite filter_snoc_false; [reflexivity |]. intros [Hm _]. exact (Hix Hm).
        * exact Hen.
        * exact Hmb.
        * intros n Hn. apply Hout. intros Hd. apply Hn, elem_of_app. left. exact Hd.
    - (* before the loop *)
      unfold I. cbn. repeat split; try reflexivity. }
  destruct HI as (He & Hg & Hen & Hmb & _). cbn [fst] in *. auto.
Qed.

(** X7.  The scan of [process__validate], when it does not abort, leaves in
    [mEnabled] exactly the names of the enabled tracks in strictly ascending
    order, and in [mGroups], under each main buffer, the enabled tracks that
    mix into it, ascending and never an empty group; it adds or removes no
    track and changes no enabled flag. *)
Theorem validate_scan_enabled_and_groups (m m' : AudioMixerBase) (fl : validate_flags) :
  validate_scan m = Some (m', fl) ->
  mEnabled m' = filter (is_enabled m) (trackNames m)
  /\ StronglySorted Z.lt (mEnabled m')
  /\ (forall name, name ∈ mEnabled m' <-> is_enabled m name)
  /\ (forall key group, mGroups m' !! key = Some group <->
        group <> [] /\ group = filter (mixes_into m key) (mEnabled m'))
  /\ (forall name, enabled <$> mTracks m' !! name = enabled <$> mTracks m !! name).
Proof.
  intros Hrun. destruct (validate_scan_invariant m m' fl Hrun) as (He & Hg & Hen & _).
  split; [exact He |]. split; [| split; [| split; [| exact Hen]]].
  - rewrite He. apply StronglySorted_lt_filter, trackNames_sorted.
  - intros name. rewrite He, list_elem_of_filter, elem_of_trackNames.
    split; [tauto |]. intros Hn. split; [exact Hn |].
    unfold is_enabled in Hn. destruct (mTracks m !! name); [eauto | discriminate].
  - intros key group. rewrite Hg, He.
    assert (Hf : filter (mixes_into m key) (filter (is_enabled m) (trackNames m))
                 = filter (mixes_into m key) (trackNames m)).
    { rewrite list_filter_filter. apply list_filter_iff. intros x.
      unfold mixes_into. tauto. }
    rewrite Hf. destruct (filter (mixes_into m key) (trackNames m)) as [| a g] eqn:E.
    + split; [discriminate | intros [H1 H2]; congruence].
    + split; [intros [= <-]; split; [discriminate | reflexivity] |].
      intros [_ ->]. reflexivity.
Qed.

Lemma validate_scan_enabled_and_groups_witness :
  let r := default (mixer_three_tracks, mkFlags true false false)
                   (validate_scan mixer_three_tracks) in
  mEnabled (fst r) = [1; 3] /\ mGroups (fst r) !! 100 = Some [1; 3].
Proof.
  intros r.
  destruct (validate_scan_enabled_and_groups mixer_three_tracks (fst r) (snd r))
    as (He & _ & _ & Hg & _).
  - vm_compute. reflexivity.
  - split.
    + rewrite He. vm_compute. reflexivity.
    + apply Hg. split; [discriminate |]. rewrite He. vm_compute. reflexivity.
Defined.

(** ** [process__validate]: the needs and the hook of a track *)

Lemma getTrackHook_new (trackType cc inF outF : Z) :
  trackType ∈ [TRACKTYPE_RESAMPLE; TRACKTYPE_RESAMPLESTEREO; TRACKTYPE_RESAMPLEMONO;
               TRACKTYPE_NORESAMPLEMONO; TRACKTYPE_NORESAMPLE; TRACKTYPE_NORESAMPLESTEREO] ->
  let resample := bool_decide (trackType ∈ [TRACKTYPE_RESAMPLE; TRACKTYPE_RESAMPLESTEREO;
                                            TRACKTYPE_RESAMPLEMONO]) in
  if (MAX_NUM_CHANNELS <? cc)
     || negb ((inF =? AUDIO_FORMAT_PCM_FLOAT) || (inF =? AUDIO_FORMAT_PCM_16_BIT))
  then getTrackHook trackType cc inF outF = None
  else exists mt TO TI TA,
      getTrackHook trackType cc inF outF
      = Some ((if resample then track__Resample else track__NoResample) mt TO TI TA).
Proof.
  intros Hty resample. subst resample. unfold getTrackHook.
  change (negb kUseNewMixer) with false. cbn [andb].
  destruct (MAX_NUM_CHANNELS <? cc); cbn [orb]; [reflexivity |].
  rewrite !elem_of_cons, elem_of_nil in Hty.
  destruct Hty as [-> | [-> | [-> | [-> | [-> | [-> | []]]]]]];
    cbn -[Z.eqb AUDIO_FORMAT_PCM_FLOAT AUDIO_FORMAT_PCM_16_BIT];
    destruct (inF =? AUDIO_FORMAT_PCM_FLOAT); cbn [orb negb]; eauto;
    destruct (inF =? AUDIO_FORMAT_PCM_16_BIT); cbn [orb negb]; eauto.
Qed.

Lemma fields_set_needs (n : Z) (t : TrackBase) :
  mMixerChannelCount (set_needs n t) = mMixerChannelCount t
  /\ mMixerInFormat (set_needs n t) = mMixerInFormat t
  /\ mMixerFormat (set_needs n t) = mMixerFormat t
  /\ mMixerChannelMask (set_needs n t) = mMixerChannelMask t
  /\ channelMask (set_needs n t) = channelMask t
  /\ useStereoVolume (set_needs n t) = useStereoVolume t.
Proof. destruct t. repeat split. Qed.

Lemma fields_set_hook (h : option hook_t) (t : TrackBase) :
  mMixerChannelCount (set_hook h t) = mMixerChannelCount t
  /\ mMixerInFormat (set_hook h t) = mMixerInFormat t
  /\ mMixerFormat (set_hook h t) = mMixerFormat t
  /\ useStereoVolume (set_hook h t) = useStereoVolume t.
Proof. destruct t. repeat split. Qed.

Lemma land_7_range (n : Z) : 0 <= Z.land n NEEDS_CHANNEL_COUNT__MASK < 8.
Proof.
  change NEEDS_CHANNEL_COUNT__MASK with (Z.ones 3). rewrite Z.land_ones by lia.
  apply Z.mod_pos_bound. lia.
Qed.

Ltac use_getTrackHook bad :=
  match goal with
  | |- context [getTrackHook ?ty ?a ?b ?c] =>
      let Hg := fresh "Hg" in
      assert (Hg := getTrackHook_new ty a b c);
      cbv zeta in Hg;
      match type of Hg with
      | context [bool_decide ?P] =>
          let v := eval vm_compute in (bool_decide P) in
          change (bool_decide P) with v in Hg
      end;
      cbv iota in Hg;
      specialize (Hg ltac:(apply (bool_decide_unpack _); vm_compute; exact I));
      fold bad in Hg
  end.

(** What [validate_track] returns, by the needs of the track. *)
Lemma validate_track_outcome (t : TrackBase) (fl : validate_flags) :
  if negb (Z.land (needs_of t) NEEDS_MUTE =? 0)
  then exists fl',
      validate_track t fl = Some (set_hook (Some track__nop) (set_needs (needs_of t) t), fl')
  else if (MAX_NUM_CHANNELS <? mMixerChannelCount t)
          || negb ((mMixerInFormat t =? AUDIO_FORMAT_PCM_FLOAT)
                   || (mMixerInFormat t =? AUDIO_FORMAT_PCM_16_BIT))
       then validate_track t fl = None
       else exists fl' mt TO TI TA,
           validate_track t fl
           = Some (set_hook
                     (Some ((if negb (Z.land (needs_of t) NEEDS_RESAMPLE =? 0)
                             then track__Resample else track__NoResample) mt TO TI TA))
                     (set_needs (needs_of t) t), fl').
Proof.
  unfold validate_track, needs_of. cbv zeta.
  match goal with
  | |- context [set_needs ?n t] => generalize n
  end.
  intros n.
  destruct (fields_set_needs n t) as (E1 & E2 & E3 & E4 & E5 & E6).
  rewrite ?E1, ?E2, ?E3, ?E4, ?E5, ?E6.
  destruct (negb (Z.land n NEEDS_MUTE =? 0)); [eexists; reflexivity |].
  pose proof (land_7_range n) as Hchan.
  set (bad := (MAX_NUM_CHANNELS <? mMixerChannelCount t)
              || negb ((mMixerInFormat t =? AUDIO_FORMAT_PCM_FLOAT)
                       || (mMixerInFormat t =? AUDIO_FORMAT_PCM_16_BIT))).
  destruct (negb (Z.land n NEEDS_RESAMPLE =? 0)).
  - repeat match goal with
           | |- context [getTrackHook (if ?c then _ else _)] => destruct c
           end;
      use_getTrackHook bad;
      (destruct bad;
       [rewrite Hg; reflexivity
       | destruct Hg as (mt & TO & TI & TA & Hg); rewrite Hg;
         eexists _, mt, TO, TI, TA; reflexivity]).
  - destruct (Z.eqb_spec (Z.land n NEEDS_CHANNEL_COUNT__MASK) NEEDS_CHANNEL_1) as [Ec | Ec].
    + rewrite Ec. change (NEEDS_CHANNEL_2 <=? NEEDS_CHANNEL_1) with false.
      repeat match goal with
             | |- context [getTrackHook (if ?c then _ else _)] => destruct c
             end;
        use_getTrackHook bad;
        (destruct bad;
         [rewrite Hg; reflexivity
         | destruct Hg as (mt & TO & TI & TA & Hg); rewrite Hg;
           eexists _, mt, TO, TI, TA; reflexivity]).
    + assert (Hc2 : (NEEDS_CHANNEL_2 <=? Z.land n NEEDS_CHANNEL_COUNT__MASK) = true).
      { apply Z.leb_le. unfold NEEDS_CHANNEL_2, NEEDS_CHANNEL_1 in *. lia. }
      rewrite Hc2, ?E1, ?E2, ?E3, ?E6.
      repeat match goal with
             | |- context [getTrackHook (if ?c then _ else _)] => destruct c
             end;
        use_getTrackHook bad;
        (destruct bad;
         [rewrite Hg; reflexivity
         | destruct Hg as (mt & TO & TI & TA & Hg); rewrite Hg;
           eexists _, mt, TO, TI, TA; reflexivity]).
Qed.

Lemma land_byte_flag (c k : Z) :
  0 <= c < 256 -> Z.land (Z.ones 8) k = 0 -> Z.land c k = 0.
Proof.
  intros Hc Hk. rewrite <- (Z.mod_small c (2 ^ 8)) by (change (2 ^ 8) with 256; lia).
  rewrite <- Z.land_ones by lia. rewrite <- Z.land_assoc, Hk. apply Z.land_0_r.
Qed.

(** The bits of [needs_of] for a track that has channels. *)
Lemma needs_of_bits (t : TrackBase) :
  1 <= channelCount t <= 255 ->
  Z.land (needs_of t) NEEDS_CHANNEL_COUNT__MASK = (channelCount t - 1) mod 8
  /\ (Z.land (needs_of t) NEEDS_RESAMPLE =? 0) = negb (doesResample t)
  /\ (Z.land (needs_of t) NEEDS_AUX =? 0)
     = negb (negb (auxLevel t =? 0) && negb (auxBuffer t =? 0))
  /\ (Z.land (needs_of t) NEEDS_MUTE =? 0)
     = negb ((Z.lor (volumeInc t 0) (volumeInc t 1) =? 0)
             && negb (doesResample t) && isVolumeMuted t).
Proof.
  intros Hcc. unfold needs_of. cbv zeta.
  assert (Hc : uint32 (NEEDS_CHANNEL_1 + channelCount t - 1) = channelCount t - 1).
  { unfold uint32, NEEDS_CHANNEL_1. apply Z.mod_small.
    change (2 ^ 32) with 4294967296. lia. }
  rewrite Hc, Z.lor_0_l.
  assert (H7 : Z.land (channelCount t - 1) NEEDS_CHANNEL_COUNT__MASK
               = (channelCount t - 1) mod 8).
  { change NEEDS_CHANNEL_COUNT__MASK with (Z.ones 3). apply Z.land_ones. lia. }
  assert (Hm : Z.land (channelCount t - 1) NEEDS_MUTE = 0)
    by (apply land_byte_flag; [lia | reflexivity]).
  assert (Hr : Z.land (channelCount t - 1) NEEDS_RESAMPLE = 0)
    by (apply land_byte_flag; [lia | reflexivity]).
  assert (Ha : Z.land (channelCount t - 1) NEEDS_AUX = 0)
    by (apply land_byte_flag; [lia | reflexivity]).
  generalize dependent (channelCount t - 1). intros c _ H7 Hm Hr Ha.
  generalize (isVolumeMuted t) (doesResample t)
             (negb (auxLevel t =? 0) && negb (auxBuffer t =? 0))
             (Z.lor (volumeInc t 0) (volumeInc t 1) =? 0).
  intros b1 b2 b3 b4.
  destruct b1, b2, b3, b4; cbn [negb andb];
    rewrite ?Z.land_lor_distr_l, ?H7, ?Hm, ?Hr, ?Ha;
    change (Z.land NEEDS_RESAMPLE NEEDS_CHANNEL_COUNT__MASK) with 0;
    change (Z.land NEEDS_AUX NEEDS_CHANNEL_COUNT__MASK) with 0;
    change (Z.land NEEDS_MUTE NEEDS_CHANNEL_COUNT__MASK) with 0;
    rewrite ?Z.lor_0_r; repeat split; reflexivity.
Qed.

Lemma needs_hook_set (n : Z) (h : option hook_t) (t : TrackBase) :
  needs (set_hook h (set_needs n t)) = n /\ hook (set_hook h (set_needs n t)) = h.
Proof. destruct t. split; reflexivity. Qed.

(** X8.  For an enabled track with at least one channel, the scan of
    [process__validate] stores needs whose channel field is the channel
    count minus one modulo 8, whose RESAMPLE bit says that the track has a
    resampler, whose AUX bit says that aux level and aux buffer are both
    non-zero, and whose MUTE bit says that the track does not ramp on its
    two volumes, has no resampler and has both float volumes zero; the hook
    is [track__nop] exactly for a MUTE track, and otherwise a
    [track__Resample] or [track__NoResample] instance according to the
    resampler. *)
Theorem validate_track_needs_and_hook
  (t t' : TrackBase) (fl fl' : validate_flags) :
  1 <= channelCount t <= 255 ->
  validate_track t fl = Some (t', fl') ->
  Z.land (needs t') NEEDS_CHANNEL_COUNT__MASK = (channelCount t - 1) mod 8
  /\ (Z.land (needs t') NEEDS_RESAMPLE <> 0 <-> doesResample t = true)
  /\ (Z.land (needs t') NEEDS_AUX <> 0 <-> auxLevel t <> 0 /\ auxBuffer t <> 0)
  /\ (Z.land (needs t') NEEDS_MUTE <> 0 <->
        Z.lor (volumeInc t 0) (volumeInc t 1) = 0
        /\ doesResample t = false /\ isVolumeMuted t = true)
  /\ (hook t' = Some track__nop <-> Z.land (needs t') NEEDS_MUTE <> 0)
  /\ (Z.land (needs t') NEEDS_MUTE = 0 ->
        exists mt TO TI TA,
          hook t' = Some ((if doesResample t then track__Resample else track__NoResample)
                            mt TO TI TA)).
Proof.
  intros Hcc Hv.
  destruct (needs_of_bits t Hcc) as (B7 & Br & Ba & Bm).
  pose proof (validate_track_outcome t fl) as Ho. rewrite Hv in Ho.
  assert (Hn : needs t' = needs_of t /\
               (if Z.land (needs_of t) NEEDS_MUTE =? 0
                then exists mt TO TI TA,
                    hook t' = Some ((if doesResample t then track__Resample
                                     else track__NoResample) mt TO TI TA)
                else hook t' = Some track__nop)).
  { rewrite Br, negb_involutive in Ho.
    destruct (Z.land (needs_of t) NEEDS_MUTE =? 0); cbn [negb] in Ho.
    - destruct (_ || _); [discriminate |].
      destruct Ho as (fl0 & mt & TO & TI & TA & [= -> _]).
      destruct (needs_hook_set (needs_of t)
                  (Some ((if doesResample t then track__Resample else track__NoResample)
                           mt TO TI TA)) t) as [E1 E2].
      split; [exact E1 | eauto 6].
    - destruct Ho as (fl0 & [= -> _]).
      destruct (needs_hook_set (needs_of t) (Some track__nop) t) as [E1 E2].
      split; assumption. }
  destruct Hn as [Hn Hh]. rewrite Hn.
  split; [exact B7 |].
  split.
  { rewrite <- Z.eqb_neq, Br. destruct (doesResample t); cbn; split; congruence. }
  split.
  { rewrite <- Z.eqb_neq, Ba.
    destruct (Z.eqb_spec (auxLevel t) 0), (Z.eqb_spec (auxBuffer t) 0); cbn;
      split; try tauto; try congruence. }
  split.
  { rewrite <- Z.eqb_neq, Bm.
    destruct (Z.eqb_spec (Z.lor (volumeInc t 0) (volumeInc t 1)) 0),
      (doesResample t), (isVolumeMuted t); cbn; split; try tauto; try congruence;
      intros (? & ? & ?); congruence. }
  destruct (Z.eqb_spec (Z.land (needs_of t) NEEDS_MUTE) 0) as [E | E].
  - split.
    + destruct Hh as (mt & TO & TI & TA & Hh). rewrite Hh.
      split; [| congruence]. destruct (doesResample t); discriminate.
    + intros _. exact Hh.
  - split; [tauto | congruence].
Qed.

Lemma validate_track_needs_and_hook_witness :
  let t := default null_track (mTracks mixer_three_tracks !! 1) in
  let r := default (t, mkFlags true false false)
                   (validate_track t (mkFlags true false false)) in
  needs (fst r) = 0
  /\ exists mt TO TI TA, hook (fst r) = Some (track__NoResample mt TO TI TA).
Proof.
  intros t r.
  destruct (validate_track_needs_and_hook t (fst r) (mkFlags true false false) (snd r))
    as (_ & _ & _ & Hm & _ & Hh).
  - vm_compute. split; discriminate.
  - vm_compute. reflexivity.
  - split; [vm_compute; reflexivity |].
    apply Hh. vm_compute. reflexivity.
Defined.

(** X9.  The scan aborts on an enabled track exactly when the track is not
    marked MUTE and no track hook exists for it: its mixer channel count
    exceeds MAX_NUM_CHANNELS, or its mixer input format is neither float nor
    16 bit. *)
Theorem validate_track_aborts_iff (t : TrackBase) (fl : validate_flags) :
  validate_track t fl = None <->
  Z.land (needs_of t) NEEDS_MUTE = 0
  /\ (MAX_NUM_CHANNELS < mMixerChannelCount t
      \/ (mMixerInFormat t <> AUDIO_FORMAT_PCM_FLOAT
          /\ mMixerInFormat t <> AUDIO_FORMAT_PCM_16_BIT)).
Proof.
  pose proof (validate_track_outcome t fl) as Ho.
  destruct (Z.eqb_spec (Z.land (needs_of t) NEEDS_MUTE) 0) as [E | E]; cbn [negb] in Ho.
  - destruct (Z.ltb_spec MAX_NUM_CHANNELS (mMixerChannelCount t)) as [Hc | Hc];
      cbn [orb] in Ho.
    + split; [intros _; split; [exact E | left; exact Hc] | intros _; exact Ho].
    + destruct (Z.eqb_spec (mMixerInFormat t) AUDIO_FORMAT_PCM_FLOAT) as [Hf | Hf];
        cbn [orb negb] in Ho.
      * destruct Ho as (? & ? & ? & ? & ? & ->). split; [discriminate |].
        intros (_ & [H | [H _]]); [lia | contradiction].
      * destruct (Z.eqb_spec (mMixerInFormat t) AUDIO_FORMAT_PCM_16_BIT) as [H16 | H16];
          cbn [orb negb] in Ho.
        -- destruct Ho as (? & ? & ? & ? & ? & ->). split; [discriminate |].
           intros (_ & [H | [_ H]]); [lia | contradiction].
        -- split; [intros _; split; [exact E | right; split; assumption] | intros _; exact Ho].
  - destruct Ho as (? & ->). split; [discriminate | intros [H _]; contradiction].
Qed.

(** X10.  A track whose channel count is zero gets all 32 need bits (the
    channel field underflows), hence MUTE: the scan gives it [track__nop]
    and never aborts on it, whatever its volumes, resampler and formats. *)
Theorem validate_track_no_channels (t : TrackBase) (fl : validate_flags) :
  channelCount t = 0 ->
  needs_of t = 0xFFFFFFFF
  /\ exists fl',
      validate_track t fl = Some (set_hook (Some track__nop) (set_needs 0xFFFFFFFF t), fl').
Proof.
  intros Hcc.
  assert (Hn : needs_of t = 0xFFFFFFFF).
  { unfold needs_of. cbv zeta. rewrite Hcc.
    generalize (isVolumeMuted t) (doesResample t)
               (negb (auxLevel t =? 0) && negb (auxBuffer t =? 0))
               (negb (Z.lor (volumeInc t 0) (volumeInc t 1) =? 0)).
    intros b1 b2 b3 b4. destruct b1, b2, b3, b4; reflexivity. }
  split; [exact Hn |].
  pose proof (validate_track_outcome t fl) as Ho. rewrite Hn in Ho.
  exact Ho.
Qed.

Lemma validate_track_no_channels_witness :
  needs_of null_track = 0xFFFFFFFF
  /\ exists fl',
      validate_track null_track (mkFlags true false false)
      = Some (set_hook (Some track__nop) (set_needs 0xFFFFFFFF null_track), fl').
Proof.
  apply (validate_track_no_channels null_track (mkFlags true false false)).
  reflexivity.
Defined.

(** ** [process] *)

Lemma validate_scan_idle (m : AudioMixerBase) :
  (forall name t, mTracks m !! name = Some t -> enabled t = false) ->
  validate_scan m = Some (set_mGroups_mEnabled ∅ [] m, mkFlags true false false).
Proof.
  intros Hdis. unfold validate_scan.
  assert (Hl : forall name, name ∈ trackNames m ->
                 exists t, mTracks (set_mGroups_mEnabled ∅ [] m) !! name = Some t
                           /\ enabled t = false).
  { intros name Hin. apply elem_of_trackNames in Hin as [t Ht].
    exists t. split; [exact Ht | exact (Hdis name t Ht)]. }
  revert Hl. generalize (trackNames m) (set_mGroups_mEnabled ∅ [] m)
                        (mkFlags true false false).
  intros l m0 fl. induction l as [| x l IH]; intros Hl; cbn [for_each]; [reflexivity |].
  destruct (Hl x) as (t & Ht & Hen); [left |].
  rewrite Ht, Hen. cbn [negb]. apply IH.
  intros name Hin. apply Hl. right. exact Hin.
Qed.

(** X11.  [process] on an invalidated mixer none of whose tracks is enabled
    succeeds without touching the caller's memory or any track: it empties
    [mEnabled] and [mGroups] and installs [process__nop]; a further
    [process] changes nothing at all. *)
Theorem process_without_enabled_tracks `{MixerOps} (m : AudioMixerBase) (mem : Memory) :
  mHook m = process__validate ->
  (forall name t, mTracks m !! name = Some t -> enabled t = false) ->
  let m' := set_mHook process__nop (set_mGroups_mEnabled ∅ [] m) in
  process (m, mem) = Some (m', mem)
  /\ mTracks m' = mTracks m
  /\ process (m', mem) = Some (m', mem).
Proof.
  intros Hh Hdis m'. split; [| split; [reflexivity |]].
  - unfold process. cbn [fst]. rewrite Hh. unfold process__validate_body.
    rewrite (validate_scan_idle m Hdis). reflexivity.
  - reflexivity.
Qed.

Lemma process_without_enabled_tracks_witness :
  exists m', @process passthrough_ops (invalidate mixer_one_track, fun _ _ => zero_bits)
             = Some (m', fun _ _ => zero_bits)
             /\ mHook m' = process__nop.
Proof.
  eexists. split.
  - apply (@process_without_enabled_tracks passthrough_ops (invalidate mixer_one_track)
                                           (fun _ _ => zero_bits)).
    + reflexivity.
    + apply (bool_decide_unpack
               (map_Forall (fun _ t => enabled t = false)
                           (mTracks (invalidate mixer_one_track)))).
      vm_compute. exact I.
  - reflexivity.
Defined.

(** ** The data plane leaves the configuration alone *)

Lemma targets_adjustVolumeRampChannel (f : bool) (v : VolumeVars) :
  targets (adjustVolumeRampChannel f v) = targets v.
Proof.
  unfold adjustVolumeRampChannel.
  destruct f; [destruct (rampDoneFloat v) | destruct (rampDoneInt v)]; reflexivity.
Qed.

Lemma targets_adjustVolumeRampAux (f : bool) (v : VolumeVars) :
  targets (adjustVolumeRampAux f v) = targets v.
Proof.
  unfold adjustVolumeRampAux.
  destruct f; [destruct (rampDoneFloat v) | destruct (rampDoneInt v)]; reflexivity.
Qed.

Lemma config_set_vol0 (v : VolumeVars) (t : TrackBase) :
  targets v = targets (vol0 t) -> config_of (set_vol0 v t) = config_of t.
Proof. destruct t. unfold config_of, control_of. cbn. intros ->. reflexivity. Qed.

Lemma config_set_vol1 (v : VolumeVars) (t : TrackBase) :
  targets v = targets (vol1 t) -> config_of (set_vol1 v t) = config_of t.
Proof. destruct t. unfold config_of, control_of. cbn. intros ->. reflexivity. Qed.

Lemma config_set_auxv (v : VolumeVars) (t : TrackBase) :
  targets v = targets (auxv t) -> config_of (set_auxv v t) = config_of t.
Proof. destruct t. unfold config_of, control_of. cbn. intros ->. reflexivity. Qed.

Lemma config_set_input (t : TrackBase) :
  (forall x, config_of (set_buffer x t) = config_of t)
  /\ (forall x, config_of (set_frameCount x t) = config_of t)
  /\ (forall x, config_of (set_mIn x t) = config_of t).
Proof. destruct t. repeat split. Qed.

Lemma config_set_bufferProvider (p p' : Provider) (t : TrackBase) :
  bufferProvider t = Some p -> config_of (set_bufferProvider (Some p') t) = config_of t.
Proof.
  destruct t. unfold config_of, control_of, hasProvider. cbn. intros ->. reflexivity.
Qed.

Lemma config_set_mResampler (rs rs' : AudioResampler) (t : TrackBase) :
  mResampler t = Some rs -> config_of (set_mResampler (Some rs') t) = config_of t.
Proof.
  destruct t. unfold config_of, control_of, doesResample. cbn. intros ->. reflexivity.
Qed.

Lemma config_adjustVolumeRamp (aux f : bool) (t : TrackBase) :
  config_of (adjustVolumeRamp aux f t) = config_of t.
Proof.
  unfold adjustVolumeRamp. cbv zeta.
  assert (H1 : config_of (set_vol0 (adjustVolumeRampChannel f (vol0 t)) t) = config_of t)
    by apply config_set_vol0, targets_adjustVolumeRampChannel.
  set (t1 := set_vol0 (adjustVolumeRampChannel f (vol0 t)) t) in *.
  assert (H2 : config_of (set_vol1 (adjustVolumeRampChannel f (vol1 t1)) t1) = config_of t)
    by (rewrite config_set_vol1; [exact H1 | apply targets_adjustVolumeRampChannel]).
  set (t2 := set_vol1 (adjustVolumeRampChannel f (vol1 t1)) t1) in *.
  destruct aux; [| exact H2].
  rewrite config_set_auxv; [exact H2 | apply targets_adjustVolumeRampAux].
Qed.

Ltac config_step :=
  first
    [ rewrite config_adjustVolumeRamp
    | rewrite config_set_vol0 by reflexivity
    | rewrite config_set_vol1 by reflexivity
    | rewrite config_set_auxv by reflexivity
    | rewrite (proj1 (config_set_input _))
    | rewrite (proj1 (proj2 (config_set_input _)))
    | rewrite (proj2 (proj2 (config_set_input _))) ].

Lemma config_provider_buffer (p p' : Provider) (b : Buffer) (t : TrackBase) :
  bufferProvider t = Some p ->
  config_of (set_bufferProvider (Some p') (set_buffer b t)) = config_of t.
Proof.
  destruct t. unfold config_of, control_of, hasProvider. cbn. intros ->. reflexivity.
Qed.

Lemma config_provider_resampler (p p' : Provider) (rs rs' : AudioResampler) (t : TrackBase) :
  bufferProvider t = Some p -> mResampler t = Some rs ->
  config_of (set_bufferProvider (Some p') (set_mResampler (Some rs') t)) = config_of t.
Proof.
  destruct t. unfold config_of, control_of, hasProvider, doesResample. cbn.
  intros -> ->. reflexivity.
Qed.

Ltac config_result t :=
  match goal with
  | |- Some (?x, _, _) = _ -> _ =>
      let Hx := fresh "Hx" in
      assert (Hx : config_of x = config_of t) by (repeat config_step; reflexivity);
      revert Hx; generalize x; intros ? Hx [= <- _ _]; exact Hx
  end.

Lemma config_volumeMix `{MixerOps} (mt : MIXTYPE) (uf adj : bool) (TO TI TA : ctype)
  (t : TrackBase) (out : list sample) (n : Z) (in_ : list sample)
  (aux : option (list sample)) (ramp : bool) :
  config_of (fst (fst (volumeMix mt uf adj TO TI TA t out n in_ aux ramp))) = config_of t.
Proof.
  unfold volumeMix. cbv zeta.
  destruct uf, ramp;
    repeat match goal with
           | |- context [let '(_, _) := ?x in _] => destruct x
           | |- context [if ?c then _ else _] => destruct c
           end; cbn [fst]; repeat config_step; reflexivity.
Qed.

Lemma config_volumeRampStereo (t t' : TrackBase) (out : list sample) (n : Z)
  (temp : list sample) (aux : option (list sample)) (o : list sample)
  (a : option (list sample)) :
  volumeRampStereo t out n temp aux = Some (t', o, a) -> config_of t' = config_of t.
Proof.
  unfold volumeRampStereo. destruct (n <=? 0); [discriminate |]. cbv zeta.
  destruct aux as [a0 |].
  - destruct (volumeRampStereo_loop_aux _ _ _ _ _ _ _ _ _ _) as [[[[? ?] ?] ?] ?].
    config_result t.
  - destruct (volumeRampStereo_loop _ _ _ _ _ _ _) as [[? ?] ?].
    config_result t.
Qed.

Ltac hook_result Hx :=
  match goal with
  | |- Some (?x, _, _, _) = _ -> _ =>
      revert Hx; generalize x; intros ? Hx [= <- _ _ _]; exact Hx
  end.

Lemma config_track__Resample `{MixerOps} (mt : MIXTYPE) (TO TI TA : ctype)
  (t t' : TrackBase) (out : list sample) (n : Z) (temp aux : option (list sample))
  (o : list sample) (tmp a : option (list sample)) :
  track__Resample_body mt TO TI TA t out n temp aux = Some (t', o, tmp, a) ->
  config_of t' = config_of t.
Proof.
  unfold track__Resample_body.
  destruct (mResampler t) as [rs |] eqn:Ers; [| discriminate].
  destruct (bufferProvider t) as [p |] eqn:Ep; [| discriminate]. cbv zeta.
  assert (Hin : forall rs' p', config_of (set_bufferProvider (Some p')
                                 (set_mResampler (Some rs') t)) = config_of t)
    by (intros rs' p'; exact (config_provider_resampler p p' rs rs' t Ep Ers)).
  destruct (_ || _).
  - destruct temp as [tmp0 |]; [| discriminate].
    destruct (ops_resample _ _ _ _) as [[tmp' rs'] p'].
    pose proof (config_volumeMix mt (is_float TI) true TO TI TA
                  (set_bufferProvider (Some p') (set_mResampler (Some rs') t))
                  out n tmp' aux (needsRamp t)) as Hv.
    destruct (volumeMix _ _ _ _ _ _ _ _ _ _ _ _) as [[t2 o2] a2]. cbn [fst] in Hv.
    rewrite Hin in Hv. hook_result Hv.
  - destruct (ops_resample _ _ _ _) as [[o' rs'] p'].
    pose proof (Hin rs' p') as Hv. hook_result Hv.
Qed.

Lemma config_track__NoResample `{MixerOps} (mt : MIXTYPE) (TO TI TA : ctype)
  (t t' : TrackBase) (out : list sample) (n : Z) (temp aux : option (list sample))
  (o : list sample) (tmp a : option (list sample)) :
  track__NoResample_body mt TO TI TA t out n temp aux = Some (t', o, tmp, a) ->
  config_of t' = config_of t.
Proof.
  unfold track__NoResample_body.
  destruct (mIn t) as [in_ |]; [| discriminate].
  pose proof (config_volumeMix mt (is_float TI) true TO TI TA t out n in_ aux (needsRamp t))
    as Hv.
  destruct (volumeMix _ _ _ _ _ _ _ _ _ _ _ _) as [[t2 o2] a2]. cbn [fst] in Hv.
  cbv zeta.
  match goal with
  | |- Some (set_mIn ?x t2, _, _, _) = _ -> _ =>
      assert (Hx : config_of (set_mIn x t2) = config_of t)
        by (rewrite (proj2 (proj2 (config_set_input _))); exact Hv)
  end.
  hook_result Hx.
Qed.

Lemma config_track__genericResample `{MixerOps}
  (t t' : TrackBase) (out : list sample) (n : Z) (temp aux : option (list sample))
  (o : list sample) (tmp a : option (list sample)) :
  track__genericResample_body t out n temp aux = Some (t', o, tmp, a) ->
  config_of t' = config_of t.
Proof.
  unfold track__genericResample_body.
  destruct (mResampler t) as [rs |] eqn:Ers; [| discriminate].
  destruct (bufferProvider t) as [p |] eqn:Ep; [| discriminate]. cbv zeta.
  assert (Hin : forall rs' p', config_of (set_bufferProvider (Some p')
                                 (set_mResampler (Some rs') t)) = config_of t)
    by (intros rs' p'; exact (config_provider_resampler p p' rs rs' t Ep Ers)).
  destruct aux as [a0 |].
  - destruct temp as [tmp0 |]; [| discriminate].
    destruct (ops_resample _ _ _ _) as [[tmp' rs'] p'].
    destruct (negb _).
    + destruct (volumeRampStereo _ _ _ _ _) as [[[t2 o2] a2] |] eqn:Ev; [| discriminate].
      apply config_volumeRampStereo in Ev. rewrite Hin in Ev. hook_result Ev.
    + destruct (volumeStereo _ _ _ _ _) as [[o2 a2] |]; [| discriminate].
      pose proof (Hin rs' p') as Hv. hook_result Hv.
  - destruct (negb _).
    + destruct temp as [tmp0 |]; [| discriminate].
      destruct (ops_resample _ _ _ _) as [[tmp' rs'] p'].
      destruct (volumeRampStereo _ _ _ _ _) as [[[t2 o2] a2] |] eqn:Ev; [| discriminate].
      apply config_volumeRampStereo in Ev. rewrite Hin in Ev. hook_result Ev.
    + destruct (ops_resample _ _ _ _) as [[o' rs'] p'].
      pose proof (Hin rs' p') as Hv. hook_result Hv.
Qed.

Lemma config_track__16Bits `{MixerOps} (stereo : bool)
  (t t' : TrackBase) (out : list sample) (n : Z) (temp aux : option (list sample))
  (o : list sample) (tmp a : option (list sample)) :
  track__16Bits_body stereo t out n temp aux = Some (t', o, tmp, a) ->
  config_of t' = config_of t.
Proof.
  unfold track__16Bits_body.
  destruct (mIn t) as [in_ |]; [| discriminate].
  destruct (n <=? 0); [discriminate |]. cbv zeta.
  destruct (negb _).
  - destruct (ramp16_loop _ _ _ _ _ _ _ _ _ _ _) as [[[[[o' in'] a'] vl'] vr'] va'].
    match goal with
    | |- Some (?x, _, _, _) = _ -> _ =>
        assert (Hx : config_of x = config_of t)
    end.
    { rewrite (proj2 (proj2 (config_set_input _))), config_adjustVolumeRamp.
      destruct aux; repeat config_step; reflexivity. }
    hook_result Hx.
  - destruct (const16_loop _ _ _ _ _ _) as [[o' in'] a'].
    match goal with
    | |- Some (?x, _, _, _) = _ -> _ =>
        assert (Hx : config_of x = config_of t)
          by apply (proj2 (proj2 (config_set_input _)))
    end.
    hook_result Hx.
Qed.

Lemma config_call_hook `{MixerOps} (h : option hook_t)
  (t t' : TrackBase) (out : list sample) (n : Z) (temp aux : option (list sample))
  (o : list sample) (tmp a : option (list sample)) :
  call_hook h t out n temp aux = Some (t', o, tmp, a) -> config_of t' = config_of t.
Proof.
  unfold call_hook. destruct h as [[] |]; try discriminate.
  - intros [= <- _ _ _]. reflexivity.
  - apply config_track__genericResample.
  - apply config_track__16Bits.
  - apply config_track__16Bits.
  - apply config_track__Resample.
  - apply config_track__NoResample.
Qed.

Lemma schedule_putTrack (m : AudioMixerBase) (name : Z) (t t' : TrackBase) :
  mTracks m !! name = Some t -> config_of t' = config_of t ->
  schedule_of (putTrack name t' m) = schedule_of m.
Proof.
  intros Ht Hc. unfold schedule_of, putTrack, set_mTracks. cbn.
  f_equal. rewrite fmap_insert. apply insert_id.
  rewrite lookup_fmap, Ht. cbn. congruence.
Qed.

Lemma for_each_preserves {A S B : Type} (f : S -> A -> option S) (g : S -> B)
  (l : list A) :
  (forall s x s', x ∈ l -> f s x = Some s' -> g s' = g s) ->
  forall s s', for_each f s l = Some s' -> g s' = g s.
Proof.
  induction l as [| x l IH]; intros Hf s s'; cbn [for_each].
  - intros [= <-]. reflexivity.
  - destruct (f s x) as [s1 |] eqn:E; [| discriminate].
    intros Hrun. rewrite (IH (fun s0 x0 s0' Hin => Hf s0 x0 s0' (list_elem_of_further _ _ _ Hin))
                             s1 s' Hrun).
    apply (Hf s x s1); [left | exact E].
Qed.

Lemma for_each_success {A S : Type} (f : S -> A -> option S)
  (I : S -> Prop) (Q : A -> Prop) (l : list A) :
  (forall s y s', y ∈ l -> I s -> f s y = Some s' -> I s' /\ Q y) ->
  forall s s', I s -> for_each f s l = Some s' -> I s' /\ forall y, y ∈ l -> Q y.
Proof.
  induction l as [| x l IH]; intros Hf s s' HI; cbn [for_each].
  - intros [= <-]. split; [exact HI |]. intros y Hy. inversion Hy.
  - destruct (f s x) as [s1 |] eqn:E; [| discriminate].
    destruct (Hf s x s1 ltac:(left) HI E) as [HI1 HQ].
    intros Hrun.
    destruct (IH (fun s0 y s0' Hin => Hf s0 y s0' (list_elem_of_further _ _ _ Hin))
                 s1 s' HI1 Hrun) as [HI' HQ'].
    split; [exact HI' |]. intros y Hy.
    apply elem_of_cons in Hy as [-> | Hy]; [exact HQ | exact (HQ' y Hy)].
Qed.

Lemma schedule_lookup (s m : AudioMixerBase) (x : Z) (t : TrackBase) :
  schedule_of s = schedule_of m -> mTracks m !! x = Some t ->
  exists t1, mTracks s !! x = Some t1 /\ config_of t1 = config_of t.
Proof.
  unfold schedule_of. intros [= _ _ _ _ _ Ht] Hl.
  assert (Hx : (config_of <$> mTracks s) !! x = (config_of <$> mTracks m) !! x)
    by (rewrite Ht; reflexivity).
  rewrite !lookup_fmap, Hl in Hx. cbn in Hx.
  destruct (mTracks s !! x) as [t1 |]; [| discriminate].
  exists t1. split; [reflexivity |].
  exact (f_equal (fun o => default (config_of t) o) Hx).
Qed.

Lemma config_fields (t t' : TrackBase) :
  config_of t' = config_of t ->
  needs t' = needs t /\ hook t' = hook t /\ hasProvider t' = hasProvider t.
Proof.
  intros H.
  pose proof (f_equal (fun c => fst (fst c)) H) as H1.
  pose proof (f_equal (fun c => snd (fst c)) H) as H2.
  pose proof (f_equal (fun c => snd (snd c)) H) as H3.
  auto.
Qed.

Lemma schedule_invoke_hook `{MixerOps} (name : Z) (t : TrackBase) (off frames : Z)
  (aux : option (Z * Z)) (st st' : mix_state) :
  mTracks (fst (fst st)) !! name = Some t ->
  invoke_hook name t off frames aux st = Some st' ->
  schedule_of (fst (fst st')) = schedule_of (fst (fst st)).
Proof.
  destruct st as [[m ot] mem]. cbn [fst]. intros Ht. unfold invoke_hook. cbv zeta.
  destruct (call_hook _ _ _ _ _ _) as [[[[t1 o1] tmp1] a1] |] eqn:Eh; [| discriminate].
  apply config_call_hook in Eh. intros [= <-]. cbn [fst].
  change (schedule_of (set_mResampleTemp tmp1 (putTrack name t1 m)))
    with (schedule_of (putTrack name t1 m)).
  exact (schedule_putTrack m name t t1 Ht Eh).
Qed.

Lemma schedule_track_block_loop `{MixerOps} (fuel : nat) :
  forall (name numFrames blockFrames outFrames : Z) (aux : option (Z * Z))
         (st st' : mix_state),
    track_block_loop fuel name numFrames blockFrames outFrames aux st = Some st' ->
    schedule_of (fst (fst st')) = schedule_of (fst (fst st)).
Proof.
  induction fuel as [| fuel IH]; intros name nf bf outFrames aux st st';
    cbn [track_block_loop]; [discriminate |].
  destruct (outFrames <=? 0); [intros [= <-]; reflexivity |].
  destruct st as [[m ot] mem]. cbn [fst].
  set (st := (m, ot, mem)).
  destruct (mTracks m !! name) as [t |] eqn:Ht; [| discriminate].
  destruct (mIn t); [| intros [= <-]; reflexivity].
  cbv zeta.
  match goal with
  | |- match ?s with _ => _ end = _ -> _ => set (step := s)
  end.
  assert (Hstep : forall m2 ot2 mem2 of2 aux2,
             step = Some (m2, ot2, mem2, of2, aux2) ->
             schedule_of m2 = schedule_of m).
  { subst step. intros m2 ot2 mem2 of2 aux2.
    destruct (_ >? 0).
    - destruct (invoke_hook _ _ _ _ _ _) as [[[m1 ot1] mem1] |] eqn:Ei; [| discriminate].
      apply (schedule_invoke_hook name t _ _ _ st _ Ht) in Ei. subst st. cbn [fst] in Ei.
      destruct (mTracks m1 !! name) as [t1 |] eqn:Ht1; [| discriminate].
      intros [= <- _ _ _ _]. rewrite <- Ei.
      apply (schedule_putTrack m1 name t1); [exact Ht1 |].
      apply (proj1 (proj2 (config_set_input _))).
    - subst st. intros [= <- _ _ _ _]. reflexivity. }
  destruct step as [[[[[m2 ot2] mem2] of2] aux2] |]; [| discriminate].
  specialize (Hstep m2 ot2 mem2 of2 aux2 eq_refl).
  destruct (mTracks m2 !! name) as [t2 |] eqn:Ht2; [| discriminate].
  destruct (_ && _).
  - destruct (bufferProvider t2) as [p |] eqn:Ep; [| discriminate].
    destruct (getNextBuffer p _) as [b p'].
    pose proof (config_provider_buffer p p' b t2 Ep) as Hpb.
    assert (Hput : forall x, config_of x = config_of t2 ->
               schedule_of (putTrack name x m2) = schedule_of m).
    { intros x Hx. rewrite <- Hstep. exact (schedule_putTrack m2 name t2 x Ht2 Hx). }
    destruct (raw b).
    + intros Hrun. apply IH in Hrun. cbn [fst] in Hrun. rewrite Hrun.
      apply Hput. repeat config_step. exact Hpb.
    + intros [= <-]. cbn [fst]. apply Hput. repeat config_step. exact Hpb.
  - intros Hrun. apply IH in Hrun. cbn [fst] in Hrun. congruence.
Qed.

Lemma schedule_mix_block `{MixerOps} (group : list Z) (numFrames blockFrames : Z)
  (st st' : mix_state) :
  mix_block group numFrames blockFrames st = Some st' ->
  schedule_of (fst (fst st')) = schedule_of (fst (fst st)).
Proof.
  unfold mix_block.
  apply (for_each_preserves _ (fun s : mix_state => schedule_of (fst (fst s)))).
  intros s x s' _.
  destruct (mTracks (fst (fst s)) !! x); [| discriminate].
  apply schedule_track_block_loop.
Qed.

Lemma schedule_block_loop `{MixerOps} (fuel : nat) :
  forall (key : Z) (group : list Z) (out numFrames : Z) (w w' : world),
    block_loop fuel key group out numFrames w = Some w' ->
    schedule_of (fst w') = schedule_of (fst w).
Proof.
  induction fuel as [| fuel IH]; intros key group out nf [m mem] w';
    cbn [block_loop]; [discriminate |].
  cbv zeta.
  destruct (mix_block _ _ _ _) as [[[m1 ot1] mem1] |] eqn:Em; [| discriminate].
  apply schedule_mix_block in Em. cbn [fst] in Em.
  destruct (head group); [| discriminate].
  destruct (mTracks m1 !! _); [| discriminate].
  destruct (convertMixerFormat _ _ _ _); [| discriminate].
  change (mFrameCount m1) with (snd (fst (fst (fst (schedule_of m1))))).
  destruct (_ <? _).
  - intros Hrun. apply IH in Hrun. cbn [fst] in *. congruence.
  - intros [= <-]. cbn [fst]. exact Em.
Qed.

Lemma schedule_fields (s m : AudioMixerBase) :
  schedule_of s = schedule_of m ->
  mHook s = mHook m /\ mFrameCount s = mFrameCount m
  /\ mGroups s = mGroups m /\ mEnabled s = mEnabled m.
Proof. unfold schedule_of. intros [= -> _ -> -> -> _]. auto. Qed.

Lemma schedule_config (s m : AudioMixerBase) (x : Z) (ts t : TrackBase) :
  schedule_of s = schedule_of m ->
  mTracks s !! x = Some ts -> mTracks m !! x = Some t -> config_of ts = config_of t.
Proof.
  intros Hs Hts Ht. destruct (schedule_lookup s m x t Hs Ht) as (t1 & H1 & H2).
  congruence.
Qed.

Lemma hasProvider_Some (t : TrackBase) (p : Provider) :
  bufferProvider t = Some p -> hasProvider t = true.
Proof. unfold hasProvider. intros ->. reflexivity. Qed.

(** [process__nop]: the schedule is kept, and with frames to consume every
    track of every group has a buffer provider. *)
Lemma nop_run (w w' : world) :
  process__nop_body w = Some w' ->
  schedule_of (fst w') = schedule_of (fst w)
  /\ (mFrameCount (fst w) <> 0 ->
      forall key g x t, mGroups (fst w) !! key = Some g -> x ∈ g ->
                        mTracks (fst w) !! x = Some t -> hasProvider t = true).
Proof.
  unfold process__nop_body. intros Hrun.
  apply (for_each_success _
           (fun s : world => schedule_of (fst s) = schedule_of (fst w))
           (fun pair : Z * list Z =>
              mFrameCount (fst w) <> 0 ->
              forall x t, x ∈ snd pair -> mTracks (fst w) !! x = Some t ->
                          hasProvider t = true)) in Hrun; [| | reflexivity].
  - destruct Hrun as [HI HQ]. split; [exact HI |].
    intros Hfc key g x t Hg Hx Ht.
    assert (Hin : (key, g) ∈ map_to_list (mGroups (fst w)))
      by (apply elem_of_map_to_list; exact Hg).
    exact (HQ (key, g) Hin Hfc x t Hx Ht).
  - intros [m mem] [key g] s' _ HI. cbn [fst snd] in *. cbv zeta.
    destruct (head g) as [name0 |]; [| discriminate].
    destruct (mTracks m !! name0) as [t0 |]; [| discriminate].
    destruct (_ && _); [discriminate |].
    match goal with
    | |- context [for_each ?f m g] =>
        destruct (for_each f m g) as [m1 |] eqn:Ea; [| discriminate]
    end.
    apply (for_each_success _
             (fun s : AudioMixerBase => schedule_of s = schedule_of (fst w))
             (fun y : Z => mFrameCount (fst w) <> 0 ->
                           forall t, mTracks (fst w) !! y = Some t -> hasProvider t = true))
      in Ea; [| | exact HI].
    + destruct Ea as [HI1 HQ1]. intros [= <-]. cbn [fst]. split; [exact HI1 |].
      intros Hfc x t Hx Ht. exact (HQ1 x Hx Hfc t Ht).
    + intros s y s1 _ Hs.
      destruct (mTracks s !! y) as [ty |] eqn:Hty; [| discriminate].
      destruct (bufferProvider ty) as [p |] eqn:Ep.
      * destruct (nop_consume _ _ _) as [b p']. intros [= <-]. split.
        -- rewrite <- Hs. apply (schedule_putTrack s y ty _ Hty).
           exact (config_provider_buffer p p' b ty Ep).
        -- intros _ t Ht. pose proof (schedule_config s (fst w) y ty t Hs Hty Ht) as Hc.
           apply config_fields in Hc as (_ & _ & <-). exact (hasProvider_Some ty p Ep).
      * destruct (Z.eqb_spec (mFrameCount s) 0) as [E0 | E0]; [| discriminate].
        intros [= <-]. split; [exact Hs |].
        intros Hfc. apply schedule_fields in Hs as (_ & Hf & _). congruence.
Qed.

(** [process__genericNoResampling]: the schedule is kept and every track of
    every group has a buffer provider. *)
Lemma genericNoResampling_run `{MixerOps} (w w' : world) :
  process__genericNoResampling_body w = Some w' ->
  schedule_of (fst w') = schedule_of (fst w)
  /\ (forall key g x t, mGroups (fst w) !! key = Some g -> x ∈ g ->
                        mTracks (fst w) !! x = Some t -> hasProvider t = true).
Proof.
  unfold process__genericNoResampling_body. intros Hrun.
  apply (for_each_success _
           (fun s : world => schedule_of (fst s) = schedule_of (fst w))
           (fun pair : Z * list Z =>
              forall x t, x ∈ snd pair -> mTracks (fst w) !! x = Some t ->
                          hasProvider t = true)) in Hrun; [| | reflexivity].
  - destruct Hrun as [HI HQ]. split; [exact HI |].
    intros key g x t Hg Hx Ht.
    assert (Hin : (key, g) ∈ map_to_list (mGroups (fst w)))
      by (apply elem_of_map_to_list; exact Hg).
    exact (HQ (key, g) Hin x t Hx Ht).
  - intros [m mem] [key g] s' _ HI. cbn [fst snd] in *.
    match goal with
    | |- context [for_each ?f m g] =>
        destruct (for_each f m g) as [m1 |] eqn:Ea; [| discriminate]
    end.
    apply (for_each_success _
             (fun s : AudioMixerBase => schedule_of s = schedule_of (fst w))
             (fun y : Z => forall t, mTracks (fst w) !! y = Some t -> hasProvider t = true))
      in Ea; [| | exact HI].
    + destruct Ea as [HI1 HQ1]. intros Hb. apply schedule_block_loop in Hb.
      cbn [fst] in Hb. split; [congruence |].
      intros x t Hx Ht. exact (HQ1 x Hx t Ht).
    + intros s y s1 _ Hs.
      destruct (mTracks s !! y) as [ty |] eqn:Hty; [| discriminate].
      destruct (bufferProvider ty) as [p |] eqn:Ep; [| discriminate].
      destruct (getNextBuffer _ _) as [b p']. cbv zeta. intros [= <-]. split.
      * rewrite <- Hs. apply (schedule_putTrack s y ty _ Hty).
        repeat config_step. exact (config_provider_buffer p p' b ty Ep).
      * intros t Ht. pose proof (schedule_config s (fst w) y ty t Hs Hty Ht) as Hc.
        apply config_fields in Hc as (_ & _ & <-). exact (hasProvider_Some ty p Ep).
Qed.

Lemma schedule_resampling_pull_loop `{MixerOps} (fuel : nat) :
  forall (name numFrames outFrames : Z) (aux : option Z) (st st' : mix_state),
    resampling_pull_loop fuel name numFrames outFrames aux st = Some st' ->
    schedule_of (fst (fst st')) = schedule_of (fst (fst st)).
Proof.
  induction fuel as [| fuel IH]; intros name nf outFrames aux [[m ot] mem] st';
    cbn [resampling_pull_loop]; [discriminate |].
  destruct (negb _); [intros [= <-]; reflexivity |].
  destruct (mTracks m !! name) as [t |] eqn:Ht; [| discriminate].
  destruct (bufferProvider t) as [p |] eqn:Ep; [| discriminate].
  destruct (getNextBuffer _ _) as [b p']. cbv zeta. cbn [fst].
  match goal with
  | |- context [putTrack name ?x m] =>
      assert (Hx : schedule_of (putTrack name x m) = schedule_of m)
        by (apply (schedule_putTrack m name t); [exact Ht |]; repeat config_step;
            exact (config_provider_buffer p p' b t Ep));
      assert (Hl : mTracks (putTrack name x m) !! name = Some x)
        by (rewrite mTracks_putTrack; apply lookup_insert_eq);
      revert Hx Hl; generalize x
  end.
  intros t1 Hx Hl.
  destruct (raw b).
  - destruct (invoke_hook _ _ _ _ _ _) as [st1 |] eqn:Ei; [| discriminate].
    apply (schedule_invoke_hook name t1 _ _ _ (putTrack name t1 m, ot, mem) _ Hl) in Ei.
    cbn [fst] in Ei. intros Hrun. apply IH in Hrun. congruence.
  - intros [= <-]. exact Hx.
Qed.

Lemma resampling_pull_loop_provider `{MixerOps} (fuel : nat)
  (name numFrames : Z) (aux : option Z) (st st' : mix_state) (t : TrackBase) :
  resampling_pull_loop fuel name numFrames 0 aux st = Some st' ->
  0 < numFrames -> mTracks (fst (fst st)) !! name = Some t -> hasProvider t = true.
Proof.
  destruct fuel as [| fuel]; [discriminate |]. destruct st as [[m ot] mem].
  cbn [resampling_pull_loop fst]. intros Hrun Hn Ht. revert Hrun.
  destruct (Z.ltb_spec 0 numFrames) as [_ | Hc]; [| lia]. cbn [negb].
  rewrite Ht. destruct (bufferProvider t) as [p |] eqn:Ep; [| discriminate].
  intros _. exact (hasProvider_Some t p Ep).
Qed.

Lemma invoke_hook_provider `{MixerOps} (name : Z) (t : TrackBase) (off frames : Z)
  (aux : option (Z * Z)) (st st' : mix_state) (mt : MIXTYPE) (TO TI TA : ctype) :
  invoke_hook name t off frames aux st = Some st' ->
  hook t = Some (track__Resample mt TO TI TA) -> hasProvider t = true.
Proof.
  destruct st as [[m ot] mem]. unfold invoke_hook. cbv zeta. intros Hrun Hh.
  rewrite Hh in Hrun. cbn [call_hook] in Hrun. unfold track__Resample_body in Hrun.
  destruct (mResampler t); [| discriminate].
  destruct (bufferProvider t) as [p |] eqn:Ep; [| discriminate].
  exact (hasProvider_Some t p Ep).
Qed.

(** What [process__genericResampling] needs of a track to call its provider:
    a resampling track runs its hook, any other track pulls frames. *)
Lemma genericResampling_run `{MixerOps} (w w' : world) :
  process__genericResampling_body w = Some w' ->
  schedule_of (fst w') = schedule_of (fst w)
  /\ (forall key g x t, mGroups (fst w) !! key = Some g -> x ∈ g ->
        mTracks (fst w) !! x = Some t ->
        (if negb (Z.land (needs t) NEEDS_RESAMPLE =? 0)
         then exists mt TO TI TA, hook t = Some (track__Resample mt TO TI TA)
         else 0 < mFrameCount (fst w)) ->
        hasProvider t = true).
Proof.
  unfold process__genericResampling_body. intros Hrun.
  apply (for_each_success _
           (fun s : world => schedule_of (fst s) = schedule_of (fst w))
           (fun pair : Z * list Z =>
              forall x t, x ∈ snd pair -> mTracks (fst w) !! x = Some t ->
                (if negb (Z.land (needs t) NEEDS_RESAMPLE =? 0)
                 then exists mt TO TI TA, hook t = Some (track__Resample mt TO TI TA)
                 else 0 < mFrameCount (fst w)) ->
                hasProvider t = true)) in Hrun; [| | reflexivity].
  - destruct Hrun as [HI HQ]. split; [exact HI |].
    intros key g x t Hg Hx Ht Hpre.
    assert (Hin : (key, g) ∈ map_to_list (mGroups (fst w)))
      by (apply elem_of_map_to_list; exact Hg).
    exact (HQ (key, g) Hin x t Hx Ht Hpre).
  - intros [m mem] [key g] s' _ HI. cbn [fst snd] in *. cbv zeta.
    destruct (mOutputTemp m) as [ot |]; [| discriminate].
    destruct (head g) as [name1 |]; [| discriminate].
    destruct (mTracks m !! name1) as [t1 |]; [| discriminate].
    match goal with
    | |- context [for_each ?f ?s g] =>
        destruct (for_each f s g) as [[[m1 ot1] mem1] |] eqn:Ea; [| discriminate]
    end.
    apply (for_each_success _
             (fun s : mix_state => schedule_of (fst (fst s)) = schedule_of (fst w))
             (fun y : Z =>
                forall t, mTracks (fst w) !! y = Some t ->
                  (if negb (Z.land (needs t) NEEDS_RESAMPLE =? 0)
                   then exists mt TO TI TA, hook t = Some (track__Resample mt TO TI TA)
                   else 0 < mFrameCount (fst w)) ->
                  hasProvider t = true))
      in Ea; [| | exact HI].
    + destruct Ea as [HI1 HQ1]. cbn [fst] in HI1.
      destruct (mTracks m1 !! name1) as [t1' |]; [| discriminate].
      destruct (convertMixerFormat _ _ _ _); [| discriminate].
      intros [= <-]. cbn [fst]. split; [exact HI1 |].
      intros x t Hx Ht. exact (HQ1 x Hx t Ht).
    + intros s y s1 _ Hs.
      destruct (mTracks (fst (fst s)) !! y) as [ty |] eqn:Hty; [| discriminate].
      assert (Hcfg : forall t, mTracks (fst w) !! y = Some t ->
                needs ty = needs t /\ hook ty = hook t /\ hasProvider ty = hasProvider t).
      { intros t Ht. apply config_fields.
        exact (schedule_config (fst (fst s)) (fst w) y ty t Hs Hty Ht). }
      destruct (negb (Z.land (needs ty) NEEDS_RESAMPLE =? 0)) eqn:Eb.
      * intros Hi. split.
        -- rewrite <- Hs. exact (schedule_invoke_hook y ty _ _ _ s s1 Hty Hi).
        -- intros t Ht. destruct (Hcfg t Ht) as (Hn & Hh & <-). rewrite <- Hn, Eb.
           intros (mt & TO & TI & TA & Hk). rewrite <- Hh in Hk.
           exact (invoke_hook_provider y ty _ _ _ s s1 mt TO TI TA Hi Hk).
      * intros Hp. split.
        -- rewrite <- Hs. exact (schedule_resampling_pull_loop _ _ _ _ _ _ _ Hp).
        -- intros t Ht. destruct (Hcfg t Ht) as (Hn & _ & <-). rewrite <- Hn, Eb.
           intros Hfc.
           apply (resampling_pull_loop_provider _ _ _ _ _ _ ty Hp); [| exact Hty].
           apply schedule_fields in HI as (_ & Hf & _). lia.
Qed.

Lemma schedule_oneTrack_loop `{MixerOps} (fuel : nat) (mt : MIXTYPE) (TO TI TA : ctype) :
  forall (name numFrames out auxo : Z) (ramp : bool) (w : world) (r : bool * world),
    oneTrack_loop fuel mt TO TI TA name numFrames out auxo ramp w = Some r ->
    schedule_of (fst (snd r)) = schedule_of (fst w).
Proof.
  induction fuel as [| fuel IH]; intros name nf out auxo ramp [m mem] r;
    cbn [oneTrack_loop]; [discriminate |].
  destruct (nf <=? 0); [intros [= <-]; reflexivity |].
  destruct (mTracks m !! name) as [t |] eqn:Ht; [| discriminate].
  destruct (bufferProvider t) as [p |] eqn:Ep; [| discriminate]. cbv zeta.
  destruct (getNextBuffer _ _) as [b p'].
  pose proof (config_provider_buffer p p' b t Ep) as Hc.
  revert Hc. generalize (set_bufferProvider (Some p') (set_buffer b t)). intros t1 Hc.
  destruct (raw b) as [in_ |].
  - match goal with
    | |- context [volumeMix ?a ?b ?c ?d ?e ?f t1 ?g ?h ?i ?j ?k] =>
        pose proof (config_volumeMix a b c d e f t1 g h i j k) as Hv;
        destruct (volumeMix a b c d e f t1 g h i j k) as [[t2 o2] a2]
    end.
    cbn [fst] in Hv. intros Hrun. apply IH in Hrun. cbn [fst] in Hrun. rewrite Hrun.
    apply (schedule_putTrack m name t); [exact Ht | congruence].
  - intros [= <-]. cbn [fst snd].
    apply (schedule_putTrack m name t); [exact Ht | exact Hc].
Qed.

Lemma noResampleOneTrack_run `{MixerOps} (mt : MIXTYPE) (TO TI TA : ctype)
  (w w' : world) :
  process__noResampleOneTrack_body mt TO TI TA w = Some w' ->
  schedule_of (fst w') = schedule_of (fst w)
  /\ (exists x, mEnabled (fst w) = [x])
  /\ (0 < mFrameCount (fst w) ->
      forall x t, x ∈ mEnabled (fst w) -> mTracks (fst w) !! x = Some t ->
                  hasProvider t = true).
Proof.
  unfold process__noResampleOneTrack_body. destruct w as [m mem]. cbn [fst].
  destruct (mEnabled m) as [| name [| ? ?]]; try discriminate.
  destruct (mTracks m !! name) as [t |] eqn:Ht; [| discriminate]. cbv zeta.
  destruct (oneTrack_loop _ _ _ _ _ _ _ _ _ _ _) as [[b [m1 mem1]] |] eqn:El;
    [| discriminate].
  intros Hrun.
  assert (Hp : 0 < mFrameCount m -> hasProvider t = true).
  { clear Hrun. intros Hfc. cbn [oneTrack_loop] in El.
    destruct (Z.leb_spec (mFrameCount m) 0) as [Hc | _]; [lia |].
    rewrite Ht in El. destruct (bufferProvider t) as [p |] eqn:Ep; [| discriminate].
    exact (hasProvider_Some t p Ep). }
  apply schedule_oneTrack_loop in El. cbn [fst snd] in El.
  split; [| split; [eauto |]].
  - revert Hrun. destruct b.
    + destruct (needsRamp t).
      * destruct (mTracks m1 !! name) as [t1 |] eqn:Ht1; [| discriminate].
        intros [= <-]. cbn [fst]. rewrite <- El.
        apply (schedule_putTrack m1 name t1); [exact Ht1 |]. apply config_adjustVolumeRamp.
      * intros [= <-]. exact El.
    + intros [= <-]. exact El.
  - intros Hfc x tx Hx Htx. apply list_elem_of_singleton in Hx. subst x.
    assert (tx = t) by congruence. subst tx. exact (Hp Hfc).
Qed.

(** Every process hook keeps the schedule. *)
Lemma schedule_run_process_hook `{MixerOps} (h : process_hook_t) (w w' : world) :
  run_process_hook h w = Some w' -> schedule_of (fst w') = schedule_of (fst w).
Proof.
  destruct h; cbn [run_process_hook].
  - discriminate.
  - intros Hrun. exact (proj1 (nop_run w w' Hrun)).
  - intros Hrun. exact (proj1 (genericNoResampling_run w w' Hrun)).
  - intros Hrun. exact (proj1 (genericResampling_run w w' Hrun)).
  - unfold process__oneTrack16BitsStereoNoResampling_body.
    destruct (negb _); [discriminate |]. destruct (_ !! _); discriminate.
  - intros Hrun. exact (proj1 (noResampleOneTrack_run _ _ _ _ w w' Hrun)).
Qed.

(** X12.  A process hook that is not [process__validate] changes nothing of
    what the control plane and [process__validate] have set: the process
    hook, the sample rate and frame count, [mEnabled] and [mGroups], the set
    of tracks, and of each track the needs, the track hook, the enabled
    flag, masks, channel counts, formats, buffer addresses, sample rate,
    target volumes and the presence of a resampler. *)
Theorem process_preserves_schedule `{MixerOps} (w w' : world) :
  mHook (fst w) <> process__validate ->
  process w = Some w' ->
  schedule_of (fst w') = schedule_of (fst w).
Proof.
  intros Hh. unfold process.
  destruct (mHook (fst w)) eqn:E; try contradiction;
    intros Hrun; exact (schedule_run_process_hook _ w w' Hrun).
Qed.

Lemma process_preserves_schedule_witness :
  let w1 := default (mixer_playing, silence) (@process passthrough_ops (mixer_playing, silence)) in
  let w2 := default w1 (@process passthrough_ops w1) in
  mHook (fst w1) = process__genericNoResampling
  /\ schedule_of (fst w2) = schedule_of (fst w1).
Proof.
  intros w1 w2. split; [vm_compute; reflexivity |].
  apply (@process_preserves_schedule passthrough_ops w1 w2).
  - vm_compute. discriminate.
  - vm_compute. reflexivity.
Defined.

Lemma getProcessHook_new (pt cc inF outF : Z) (sv : bool) (h : process_hook_t) :
  getProcessHook pt cc inF outF sv = Some h ->
  exists mt TO TI TA, h = process__noResampleOneTrack mt TO TI TA.
Proof.
  unfold getProcessHook. change (negb kUseNewMixer) with false. cbn [andb].
  repeat match goal with
         | |- context [if ?c then _ else _] => destruct c
         end; try discriminate; intros [= <-]; eauto.
Qed.

(** The process hooks that [process] can leave installed. *)
Lemma validate_select_hook (m m' : AudioMixerBase) (fl : validate_flags) :
  validate_select m fl = Some m' ->
  mHook m' <> process__validate
  /\ mHook m' <> process__oneTrack16BitsStereoNoResampling.
Proof.
  unfold validate_select. cbv zeta.
  repeat match goal with
         | |- context [getProcessHook ?a ?b ?c ?d ?e] =>
             let E := fresh "E" in
             destruct (getProcessHook a b c d e) eqn:E;
             [apply getProcessHook_new in E as (? & ? & ? & ? & ->) |]
         | |- context [match ?x with _ => _ end] => destruct x
         end; try discriminate; intros [= <-]; split; discriminate.
Qed.

Lemma validate_finish_hook (m m' : AudioMixerBase) (fl : validate_flags) :
  validate_finish m fl = Some m' ->
  mHook m' = mHook m
  \/ mHook m' = process__nop
  \/ exists mt TO TI TA, mHook m' = process__noResampleOneTrack mt TO TI TA.
Proof.
  unfold validate_finish.
  destruct (0 <? length (mEnabled m))%nat; [| intros [= <-]; left; reflexivity].
  match goal with
  | |- context [for_each ?f ?s ?l] =>
      destruct (for_each f s l) as [[m1 allMuted] |] eqn:Ea; [| discriminate]
  end.
  apply (for_each_preserves _ (fun s : AudioMixerBase * bool => mHook (fst s))) in Ea.
  - cbn [fst] in Ea.
    destruct allMuted; [intros [= <-]; right; left; reflexivity |].
    destruct (all16BitsStereoNoResample fl); [| intros [= <-]; left; exact Ea].
    destruct (mEnabled m1) as [| name [| ? ?]]; try (intros [= <-]; left; exact Ea).
    destruct (mTracks m1 !! name); [| discriminate].
    destruct (getProcessHook _ _ _ _ _) eqn:E; [| discriminate].
    apply getProcessHook_new in E as (mt & TO & TI & TA & ->).
    intros [= <-]. right; right. eauto.
  - intros [s b] x s' _.
    destruct (mTracks s !! x); [| discriminate].
    destruct (_ && _); intros [= <-]; reflexivity.
Qed.

(** X13.  A [process] call that returns never leaves the mixer invalidated
    and never leaves the legacy 16-bit one-track hook installed (which would
    abort); on a mixer that is not invalidated it keeps the hook it found,
    so [process__validate] runs only after [invalidate]. *)
Theorem process_leaves_runnable_hook `{MixerOps} (w w' : world) :
  process w = Some w' ->
  mHook (fst w') <> process__validate
  /\ mHook (fst w') <> process__oneTrack16BitsStereoNoResampling
  /\ (mHook (fst w) <> process__validate -> mHook (fst w') = mHook (fst w)).
Proof.
  unfold process.
  assert (Hkeep : forall h, h <> process__validate ->
            run_process_hook h w = Some w' -> mHook (fst w) = h ->
            mHook (fst w') <> process__validate
            /\ mHook (fst w') <> process__oneTrack16BitsStereoNoResampling
            /\ (h <> process__validate -> mHook (fst w') = h)).
  { intros h Hh Hrun Eh.
    assert (Hs := schedule_run_process_hook h w w' Hrun).
    assert (Hk : mHook (fst w') = mHook (fst w)).
    { unfold schedule_of in Hs. congruence. }
    rewrite Hk, Eh. split; [exact Hh |]. split; [| reflexivity].
    intros ->. cbn in Hrun. unfold process__oneTrack16BitsStereoNoResampling_body in Hrun.
    destruct (negb _); [discriminate |]. destruct (_ !! _); discriminate. }
  destruct (mHook (fst w)) eqn:Eh;
    try (intros Hrun; apply Hkeep; [discriminate | exact Hrun | reflexivity]).
  clear Hkeep. unfold process__validate_body. destruct w as [m mem].
  destruct (validate_scan m) as [[m1 fl] |]; [| discriminate].
  destruct (validate_select m1 fl) as [m2 |] eqn:Es; [| discriminate].
  apply validate_select_hook in Es as [Hs1 Hs2].
  destruct (run_process_hook (mHook m2) (m2, mem)) as [[m3 mem3] |] eqn:Er; [| discriminate].
  apply schedule_run_process_hook in Er. cbn [fst] in Er.
  assert (Hk : mHook m3 = mHook m2) by (unfold schedule_of in Er; congruence).
  destruct (validate_finish m3 fl) as [m4 |] eqn:Ef; [| discriminate].
  apply validate_finish_hook in Ef. intros [= <-]. cbn [fst].
  split; [| split; [| intros Hc; contradiction]];
    destruct Ef as [E | [E | (mt & TO & TI & TA & E)]]; rewrite E;
    try discriminate; congruence.
Qed.

Lemma process_leaves_runnable_hook_witness :
  let w1 := default (mixer_playing, silence) (@process passthrough_ops (mixer_playing, silence)) in
  mHook mixer_playing = process__validate /\ mHook (fst w1) <> process__validate.
Proof.
  intros w1. split; [reflexivity |].
  apply (@process_leaves_runnable_hook passthrough_ops (mixer_playing, silence) w1).
  vm_compute. reflexivity.
Defined.

Lemma controls_of_schedule (m m' : AudioMixerBase) :
  schedule_of m' = schedule_of m -> controls_of m' = controls_of m.
Proof.
  unfold schedule_of, controls_of. intros [= _ Hr Hf _ _ Ht].
  rewrite Hr, Hf. f_equal.
  change control_of with (snd ∘ config_of).
  rewrite !map_fmap_compose, Ht. reflexivity.
Qed.

Lemma controls_putTrack (m : AudioMixerBase) (name : Z) (t t' : TrackBase) :
  mTracks m !! name = Some t -> control_of t' = control_of t ->
  controls_of (putTrack name t' m) = controls_of m.
Proof.
  intros Ht Hc. unfold controls_of, putTrack, set_mTracks. cbn.
  f_equal. rewrite fmap_insert. apply insert_id.
  rewrite lookup_fmap, Ht. cbn. congruence.
Qed.

Lemma control_set_needs_hook (n : Z) (h : option hook_t) (t : TrackBase) :
  control_of (set_hook h (set_needs n t)) = control_of t.
Proof. destruct t. reflexivity. Qed.

Lemma validate_scan_controls (m m' : AudioMixerBase) (fl : validate_flags) :
  validate_scan m = Some (m', fl) -> controls_of m' = controls_of m.
Proof.
  unfold validate_scan. intros Hrun.
  apply (for_each_preserves _ (fun s : AudioMixerBase * validate_flags => controls_of (fst s)))
    in Hrun; [exact Hrun |].
  intros [s fl0] x s' _.
  destruct (mTracks s !! x) as [t |] eqn:Ht; [| discriminate].
  destruct (negb _); [intros [= <-]; reflexivity |].
  destruct (validate_track t fl0) as [[t' fl'] |] eqn:Ev; [| discriminate].
  apply validate_track_fields in Ev. intros [= <-]. cbn [fst].
  match goal with
  | |- controls_of (putTrack x t' ?m0) = _ =>
      change (controls_of s) with (controls_of m0);
      apply (controls_putTrack m0 x t); [exact Ht |]
  end.
  rewrite Ev. apply control_set_needs_hook.
Qed.

Lemma validate_select_controls (m m' : AudioMixerBase) (fl : validate_flags) :
  validate_select m fl = Some m' -> controls_of m' = controls_of m.
Proof.
  unfold validate_select. cbv zeta.
  repeat match goal with
         | |- context [match ?x with _ => _ end] => destruct x
         end; try discriminate; intros [= <-]; reflexivity.
Qed.

Lemma validate_finish_controls (m m' : AudioMixerBase) (fl : validate_flags) :
  validate_finish m fl = Some m' -> controls_of m' = controls_of m.
Proof.
  unfold validate_finish.
  destruct (0 <? length (mEnabled m))%nat; [| intros [= <-]; reflexivity].
  match goal with
  | |- context [for_each ?f ?s ?l] =>
      destruct (for_each f s l) as [[m1 allMuted] |] eqn:Ea; [| discriminate]
  end.
  apply (for_each_preserves _ (fun s : AudioMixerBase * bool => controls_of (fst s))) in Ea.
  - cbn [fst] in Ea. rewrite <- Ea.
    repeat match goal with
           | |- context [match ?x with _ => _ end] => destruct x
           end; try discriminate; intros [= <-]; reflexivity.
  - intros [s b] x s' _.
    destruct (mTracks s !! x) as [t |] eqn:Ht; [| discriminate].
    destruct (_ && _); intros [= <-]; [| reflexivity]. cbn [fst].
    apply (controls_putTrack s x t); [exact Ht |]. apply control_set_needs_hook.
Qed.

(** X14.  No [process] call, validating or not, changes what the control
    plane has set: the sample rate and the frame count of the mixer, the set
    of tracks, and of each track the enabled flag, channel mask and count,
    sample rate, main, aux and tee buffer addresses, session, formats, mixer
    channel mask and count, target volumes and the presence of a
    resampler. *)
Theorem process_preserves_controls `{MixerOps} (w w' : world) :
  process w = Some w' -> controls_of (fst w') = controls_of (fst w).
Proof.
  unfold process.
  destruct (mHook (fst w)) eqn:Eh;
    try (intros Hrun; apply controls_of_schedule;
         exact (schedule_run_process_hook _ w w' Hrun)).
  unfold process__validate_body. destruct w as [m mem].
  destruct (validate_scan m) as [[m1 fl] |] eqn:E1; [| discriminate].
  apply validate_scan_controls in E1.
  destruct (validate_select m1 fl) as [m2 |] eqn:E2; [| discriminate].
  apply validate_select_controls in E2.
  destruct (run_process_hook (mHook m2) (m2, mem)) as [[m3 mem3] |] eqn:E3; [| discriminate].
  apply schedule_run_process_hook, controls_of_schedule in E3. cbn [fst] in E3.
  destruct (validate_finish m3 fl) as [m4 |] eqn:E4; [| discriminate].
  apply validate_finish_controls in E4. intros [= <-]. cbn [fst]. congruence.
Qed.

Lemma process_preserves_controls_witness :
  let w1 := default (mixer_playing, silence) (@process passthrough_ops (mixer_playing, silence)) in
  mHook (fst w1) <> mHook mixer_playing
  /\ controls_of (fst w1) = controls_of mixer_playing.
Proof.
  intros w1. split; [vm_compute; discriminate |].
  apply (@process_preserves_controls passthrough_ops (mixer_playing, silence) w1).
  vm_compute. reflexivity.
Defined.

(** ** A track without buffer provider *)

Lemma validate_scan_tracks (m m' : AudioMixerBase) (fl : validate_flags) :
  validate_scan m = Some (m', fl) ->
  forall x t, mTracks m !! x = Some t -> enabled t = true ->
    exists fl0 fl1 t', validate_track t fl0 = Some (t', fl1) /\ mTracks m' !! x = Some t'.
Proof.
  unfold validate_scan. intros Hrun.
  pose (I := fun (done : list Z) (s : AudioMixerBase * validate_flags) =>
     (forall n, n ∉ done -> mTracks (fst s) !! n = mTracks m !! n)
     /\ (forall n t, n ∈ done -> mTracks m !! n = Some t -> enabled t = true ->
           exists fl0 fl1 t', validate_track t fl0 = Some (t', fl1)
                              /\ mTracks (fst s) !! n = Some t')).
  assert (HI : I (trackNames m) (m', fl)).
  { eapply (for_each_invariant _ I (trackNames m)) with (done := []);
      [| reflexivity | | exact Hrun].
    - intros done x rest [m1 fl1] s2 Hl [Hout Hdone]. cbn [fst] in *.
      assert (Hx : x ∉ done).
      { pose proof (trackNames_NoDup m) as Hnd. rewrite <- Hl in Hnd.
        apply NoDup_app in Hnd as (_ & Hd & _). intros Hin.
        apply (Hd x Hin). left. }
      rewrite (Hout x Hx).
      destruct (mTracks m !! x) as [t |] eqn:Ht; [| discriminate].
      destruct (enabled t) eqn:Een; cbn [negb].
      + destruct (validate_track t fl1) as [[t' fl'] |] eqn:Ev; [| discriminate].
        intros [= <-]. unfold I. cbn [fst]. rewrite mTracks_putTrack. split.
        * intros n Hn. rewrite lookup_insert_ne.
          -- apply Hout. intros Hd. apply Hn, elem_of_app. left. exact Hd.
          -- intros ->. apply Hn, elem_of_app. right. left.
        * intros n tn Hn Htn Hen. apply elem_of_app in Hn as [Hn | Hn].
          -- rewrite lookup_insert_ne by (intros ->; exact (Hx Hn)).
             exact (Hdone n tn Hn Htn Hen).
          -- apply list_elem_of_singleton in Hn. subst n.
             assert (tn = t) by congruence. subst tn.
             rewrite lookup_insert_eq. eauto.
      + intros [= <-]. unfold I. cbn [fst]. split.
        * intros n Hn. apply Hout. intros Hd. apply Hn, elem_of_app. left. exact Hd.
        * intros n tn Hn Htn Hen. apply elem_of_app in Hn as [Hn | Hn].
          -- exact (Hdone n tn Hn Htn Hen).
          -- apply list_elem_of_singleton in Hn. subst n. congruence.
    - unfold I. cbn [fst]. split; [reflexivity |]. intros n t Hn. inversion Hn. }
  destruct HI as [_ Hdone]. cbn [fst] in Hdone.
  intros x t Ht Hen. apply (Hdone x t); [| exact Ht | exact Hen].
  apply elem_of_trackNames. eauto.
Qed.

Lemma validate_select_result (m m' : AudioMixerBase) (fl : validate_flags) :
  validate_select m fl = Some m' ->
  mTracks m' = mTracks m /\ mGroups m' = mGroups m /\ mEnabled m' = mEnabled m
  /\ mFrameCount m' = mFrameCount m
  /\ (mEnabled m = []
      \/ mHook m' = process__genericResampling
      \/ mHook m' = process__genericNoResampling
      \/ exists mt TO TI TA, mHook m' = process__noResampleOneTrack mt TO TI TA).
Proof.
  unfold validate_select. cbv zeta.
  change (mEnabled (set_mHook process__nop m)) with (mEnabled m).
  destruct (mEnabled m) as [| a l] eqn:Ee.
  - cbn. intros [= <-]. do 4 (split; [first [reflexivity | exact Ee] |]). left. reflexivity.
  - cbn [length Nat.ltb Nat.leb].
    repeat match goal with
           | |- context [getProcessHook ?a ?b ?c ?d ?e] =>
               let E := fresh "E" in
               destruct (getProcessHook a b c d e) eqn:E;
               [apply getProcessHook_new in E as (? & ? & ? & ? & ->) |]
           | |- context [match ?x with _ => _ end] => destruct x
           end; try discriminate; intros [= <-];
      do 4 (split; [first [reflexivity | exact Ee] |]); right; cbn; eauto 10.
Qed.

Lemma hasProvider_set_needs_hook (n : Z) (h : option hook_t) (t : TrackBase) :
  hasProvider (set_hook h (set_needs n t)) = hasProvider t.
Proof. destruct t. reflexivity. Qed.

(** What the resampling process hook needs to know of a scanned track. *)
Lemma validate_track_resample_hook (t t' : TrackBase) (fl fl' : validate_flags) :
  1 <= channelCount t <= 255 ->
  validate_track t fl = Some (t', fl') ->
  Z.land (needs t') NEEDS_RESAMPLE <> 0 ->
  exists mt TO TI TA, hook t' = Some (track__Resample mt TO TI TA).
Proof.
  intros Hcc Hv.
  destruct (needs_of_bits t Hcc) as (_ & Br & _ & Bm).
  pose proof (validate_track_outcome t fl) as Ho. rewrite Hv in Ho.
  destruct (Z.land (needs_of t) NEEDS_MUTE =? 0) eqn:Em; cbn [negb] in Ho.
  - destruct (_ || _); [discriminate |].
    destruct Ho as (fl0 & mt & TO & TI & TA & [= -> _]).
    destruct (needs_hook_set (needs_of t)
                (Some ((if negb (Z.land (needs_of t) NEEDS_RESAMPLE =? 0)
                        then track__Resample else track__NoResample) mt TO TI TA)) t)
      as [E1 E2].
    rewrite E1, E2. intros Hr. apply Z.eqb_neq in Hr. rewrite Hr. cbn [negb]. eauto.
  - destruct Ho as (fl0 & [= -> _]).
    destruct (needs_hook_set (needs_of t) (Some track__nop) t) as [E1 _].
    rewrite E1. intros Hr. apply Z.eqb_neq in Hr. rewrite Br in Hr.
    destruct (doesResample t); [| discriminate].
    rewrite !andb_false_r in Bm. discriminate.
Qed.

(** X15.  [enable] without a buffer provider is fatal: on an invalidated
    mixer with frames to produce, [process] has no result when an enabled
    track that has channels has no buffer provider.  Every process hook
    calls [bufferProvider->getNextBuffer] on each enabled track, so the run
    ends in the use of the null pointer unless a fatal check stops it
    before. *)
Theorem process_requires_buffer_provider `{MixerOps}
  (m : AudioMixerBase) (mem : Memory) (x : Z) (t : TrackBase) :
  mHook m = process__validate ->
  0 < mFrameCount m ->
  mTracks m !! x = Some t ->
  enabled t = true ->
  1 <= channelCount t <= 255 ->
  bufferProvider t = None ->
  process (m, mem) = None.
Proof.
  intros Hh Hfc Ht Hen Hcc Hp. unfold process. cbn [fst]. rewrite Hh.
  unfold process__validate_body.
  destruct (validate_scan m) as [[m1 fl] |] eqn:Es; [| reflexivity].
  destruct (validate_scan_invariant m m1 fl Es) as (He & Hg & _ & _).
  destruct (validate_scan_tracks m m1 fl Es x t Ht Hen) as (fl0 & fl1 & t1 & Hv & Ht1).
  pose proof (validate_scan_controls m m1 fl Es) as Hc.
  assert (Hf1 : mFrameCount m1 = mFrameCount m)
    by (unfold controls_of in Hc; congruence).
  assert (Hp1 : hasProvider t1 = false).
  { rewrite (validate_track_fields t t1 fl0 fl1 Hv), hasProvider_set_needs_hook.
    unfold hasProvider. rewrite Hp. reflexivity. }
  assert (Hix : is_enabled m x) by (unfold is_enabled; rewrite Ht; cbn; congruence).
  assert (Hx : x ∈ trackNames m) by (apply elem_of_trackNames; eauto).
  assert (Hxe : x ∈ mEnabled m1).
  { rewrite He. apply list_elem_of_filter. split; assumption. }
  assert (Hxg : exists g, mGroups m1 !! mainBuffer t = Some g /\ x ∈ g).
  { specialize (Hg (mainBuffer t)).
    assert (Hin : x ∈ filter (mixes_into m (mainBuffer t)) (trackNames m)).
    { apply list_elem_of_filter. split; [| exact Hx].
      split; [exact Hix | rewrite Ht; reflexivity]. }
    destruct (filter (mixes_into m (mainBuffer t)) (trackNames m)) as [| a g];
      [inversion Hin | eauto]. }
  destruct Hxg as (g & Hgx & Hxin).
  destruct (validate_select m1 fl) as [m2 |] eqn:Esel; [| reflexivity].
  destruct (validate_select_result m1 m2 fl Esel) as (ET & EG & EE & EF & Hhook).
  destruct (run_process_hook (mHook m2) (m2, mem)) as [[m3 mem3] |] eqn:Er; [| reflexivity].
  exfalso.
  assert (Habs : hasProvider t1 = true); [| congruence].
  rewrite <- ET in Ht1. rewrite <- EG in Hgx. rewrite <- EE in Hxe.
  destruct Hhook as [E | [E | [E | (mt & TO & TI & TA & E)]]].
  - rewrite EE, E in Hxe. inversion Hxe.
  - rewrite E in Er. cbn [run_process_hook] in Er.
    apply genericResampling_run in Er as [_ Hq].
    apply (Hq (mainBuffer t) g x t1 Hgx Hxin Ht1). cbn [fst].
    destruct (Z.eqb_spec (Z.land (needs t1) NEEDS_RESAMPLE) 0) as [E0 | E0]; cbn [negb].
    + lia.
    + exact (validate_track_resample_hook t t1 fl0 fl1 Hcc Hv E0).
  - rewrite E in Er. cbn [run_process_hook] in Er.
    apply genericNoResampling_run in Er as [_ Hq].
    exact (Hq (mainBuffer t) g x t1 Hgx Hxin Ht1).
  - rewrite E in Er. cbn [run_process_hook] in Er.
    apply noResampleOneTrack_run in Er as (_ & _ & Hq). cbn [fst] in Hq.
    apply (Hq ltac:(lia) x t1 Hxe Ht1).
Qed.

Lemma process_requires_buffer_provider_witness :
  let m := default mixer_one_track (enable mixer_one_track 1) in
  mHook m = process__validate /\ @process passthrough_ops (m, silence) = None.
Proof.
  intros m. split; [reflexivity |].
  apply (@process_requires_buffer_provider passthrough_ops m silence 1
           (default null_track (mTracks m !! 1))).
  - reflexivity.
  - reflexivity.
  - reflexivity.
  - reflexivity.
  - vm_compute. split; discriminate.
  - reflexivity.
Defined.

(** ** Muted tracks *)

Lemma controls_lookup (s m : AudioMixerBase) (x : Z) (ts : TrackBase) :
  controls_of s = controls_of m -> mTracks s !! x = Some ts ->
  exists t, mTracks m !! x = Some t /\ control_of ts = control_of t.
Proof.
  unfold controls_of. intros [= _ _ Ht] Hl.
  assert (Hx : (control_of <$> mTracks s) !! x = (control_of <$> mTracks m) !! x)
    by (rewrite Ht; reflexivity).
  rewrite !lookup_fmap, Hl in Hx. cbn in Hx.
  destruct (mTracks m !! x) as [t |]; [| discriminate].
  exists t. split; [reflexivity |].
  exact (f_equal (fun o => default (control_of ts) o) Hx).
Qed.

Lemma control_muted (t t' : TrackBase) :
  control_of t' = control_of t ->
  enabled t' = enabled t /\ doesResample t' = doesResample t
  /\ isVolumeMuted t' = isVolumeMuted t.
Proof.
  intros H.
  pose proof (f_equal (fun c => fst (fst (fst (fst (fst (fst (fst (fst (fst (fst (fst c)))))))))))
                      H) as H1.
  pose proof (f_equal (fun c => snd (fst c)) H) as H2.
  pose proof (f_equal (fun c => snd (fst (fst (snd (fst (fst c)))))) H) as H3.
  pose proof (f_equal (fun c => snd (snd (fst (snd (fst (fst c)))))) H) as H4.
  cbn in H1, H2, H3, H4. split; [exact H1 |]. split; [exact H2 |].
  unfold isVolumeMuted, mVolume, volumeVars.
  change (0 =? 0) with true. change (1 =? 0) with false. cbv iota.
  rewrite H3, H4. reflexivity.
Qed.

Lemma mute_bit_set (n : Z) : Z.land (Z.lor n NEEDS_MUTE) NEEDS_MUTE <> 0.
Proof.
  rewrite Z.land_lor_distr_l. change (Z.land NEEDS_MUTE NEEDS_MUTE) with NEEDS_MUTE.
  intros E. apply Z.lor_eq_0_iff in E as [_ E]. discriminate E.
Qed.

(** X16.  When every enabled track has no resampler and both float volumes
    zero, a validating [process] that returns leaves [process__nop]
    installed, and every enabled track marked MUTE with [track__nop] as its
    hook. *)
Theorem process_all_muted_installs_nop `{MixerOps} (w w' : world) :
  mHook (fst w) = process__validate ->
  (forall x t, mTracks (fst w) !! x = Some t -> enabled t = true ->
               doesResample t = false /\ isVolumeMuted t = true) ->
  process w = Some w' ->
  mHook (fst w') = process__nop
  /\ forall x t', mTracks (fst w') !! x = Some t' -> enabled t' = true ->
       hook t' = Some track__nop /\ Z.land (needs t') NEEDS_MUTE <> 0.
Proof.
  destruct w as [m mem]. cbn [fst]. intros Hh Hmuted. unfold process. cbn [fst].
  rewrite Hh. unfold process__validate_body.
  destruct (validate_scan m) as [[m1 fl] |] eqn:E1; [| discriminate].
  destruct (validate_scan_invariant m m1 fl E1) as (He & _ & _ & _).
  apply validate_scan_controls in E1.
  destruct (validate_select m1 fl) as [m2 |] eqn:E2; [| discriminate].
  destruct (validate_select_result m1 m2 fl E2) as (_ & _ & EE & _ & _).
  assert (Hidle : mEnabled m1 = [] -> mHook m2 = process__nop).
  { intros E0. unfold validate_select in E2. cbv zeta in E2.
    change (mEnabled (set_mHook process__nop m1)) with (mEnabled m1) in E2.
    rewrite E0 in E2. cbn in E2. injection E2 as <-. reflexivity. }
  apply validate_select_controls in E2.
  destruct (run_process_hook (mHook m2) (m2, mem)) as [[m3 mem3] |] eqn:E3; [| discriminate].
  apply schedule_run_process_hook in E3. cbn [fst] in E3.
  pose proof (controls_of_schedule m2 m3 E3) as E3c.
  apply schedule_fields in E3 as (E3h & _ & _ & E3e).
  assert (Hc3 : controls_of m3 = controls_of m) by congruence.
  assert (Hen3 : mEnabled m3 = filter (is_enabled m) (trackNames m)) by congruence.
  assert (Hin3 : forall x t', forall m4, controls_of m4 = controls_of m ->
            mTracks m4 !! x = Some t' -> enabled t' = true -> x ∈ mEnabled m3).
  { intros x t' m4 Hc4 Ht' Hen'.
    destruct (controls_lookup m4 m x t' Hc4 Ht') as (t & Ht & Hct).
    apply control_muted in Hct as (Hce & _ & _).
    rewrite Hen3. apply list_elem_of_filter. split.
    - unfold is_enabled. rewrite Ht. cbn. congruence.
    - apply elem_of_trackNames. eauto. }
  unfold validate_finish.
  destruct (mEnabled m3) as [| a l] eqn:Ee3.
  - (* no enabled track *)
    cbn. intros [= <-]. cbn [fst]. split.
    + rewrite E3h. apply Hidle. congruence.
    + intros x t' Ht' Hen'. pose proof (Hin3 x t' m3 Hc3 Ht' Hen') as Hin. inversion Hin.
  - cbn [length Nat.ltb Nat.leb].
    match goal with
    | |- context [for_each ?f ?s (a :: l)] =>
        destruct (for_each f s (a :: l)) as [[m4 allMuted] |] eqn:Ea; [| discriminate]
    end.
    pose (I := fun (done : list Z) (s : AudioMixerBase * bool) =>
       controls_of (fst s) = controls_of m /\ snd s = true
       /\ forall n, n ∈ done ->
            exists t', mTracks (fst s) !! n = Some t'
                       /\ hook t' = Some track__nop /\ Z.land (needs t') NEEDS_MUTE <> 0).
    assert (HI : I (a :: l) (m4, allMuted)).
    { eapply (for_each_invariant _ I (a :: l)) with (done := []);
        [| reflexivity | | exact Ea].
      - intros done x rest [s b] s2 Hl (Hcs & Hb & Hdone). cbn [fst snd] in *.
        destruct (mTracks s !! x) as [ts |] eqn:Hts; [| discriminate].
        destruct (controls_lookup s m x ts Hcs Hts) as (t & Ht & Hct).
        pose proof (control_muted t ts Hct) as (Hce & Hcr & Hcm).
        assert (Hxin : x ∈ filter (is_enabled m) (trackNames m)).
        { rewrite <- Hen3, <- Hl. apply elem_of_app. right. left. }
        apply list_elem_of_filter in Hxin as [Hxe _].
        unfold is_enabled in Hxe. rewrite Ht in Hxe. cbn in Hxe.
        destruct (Hmuted x t Ht ltac:(congruence)) as [Hr Hm].
        rewrite Hcr, Hcm, Hr, Hm. cbn [negb andb]. intros [= <-].
        unfold I. cbn [fst snd]. split; [| split; [exact Hb |]].
        + rewrite <- Hcs. apply (controls_putTrack s x ts); [exact Hts |].
          apply control_set_needs_hook.
        + intros n Hn. rewrite mTracks_putTrack.
          destruct (decide (n = x)) as [-> | Hne].
          * rewrite lookup_insert_eq. eexists. split; [reflexivity |].
            destruct (needs_hook_set (Z.lor (needs ts) NEEDS_MUTE) (Some track__nop) ts)
              as [En Ehk].
            rewrite En, Ehk. split; [reflexivity | apply mute_bit_set].
          * rewrite lookup_insert_ne by congruence. apply Hdone.
            apply elem_of_app in Hn as [Hn | Hn]; [exact Hn |].
            apply list_elem_of_singleton in Hn. contradiction.
      - unfold I. cbn [fst snd]. split; [exact Hc3 |]. split; [reflexivity |].
        intros n Hn. inversion Hn. }
    destruct HI as (Hc4 & Hb & Hdone). cbn [fst snd] in *. subst allMuted.
    intros [= <-]. cbn [fst]. split; [reflexivity |].
    intros x t' Ht' Hen'.
    change (mTracks (set_mHook process__nop m4)) with (mTracks m4) in Ht'.
    pose proof (Hin3 x t' m4 Hc4 Ht' Hen') as Hin.
    destruct (Hdone x Hin) as (t'' & Ht'' & Hk & Hn).
    assert (t'' = t') by congruence. subst t''. split; assumption.
Qed.

Lemma process_all_muted_installs_nop_witness :
  let w' := default (mixer_muted, silence) (@process passthrough_ops (mixer_muted, silence)) in
  mEnabled (fst w') = [1] /\ mHook (fst w') = process__nop.
Proof.
  intros w'. split; [vm_compute; reflexivity |].
  apply (@process_all_muted_installs_nop passthrough_ops (mixer_muted, silence) w').
  - reflexivity.
  - apply (bool_decide_unpack
             (map_Forall (fun _ t => enabled t = true ->
                                     doesResample t = false /\ isVolumeMuted t = true)
                         (mTracks mixer_muted))).
    vm_compute. exact I.
  - vm_compute. reflexivity.
Defined.

(** ** What [process__nop] writes *)

Lemma memset0_spec (mem : Memory) (p n q i : Z) :
  memset0 mem p 0 n q i
  = if bool_decide (q = p /\ 0 <= i < n) then zero_bits else mem q i.
Proof.
  unfold memset0, mem_write. rewrite length_replicate.
  destruct (bool_decide_reflect (q = p /\ 0 <= i < 0 + Z.of_nat (Z.to_nat n))) as [Hin | Hout].
  - rewrite bool_decide_eq_true_2 by lia.
    rewrite lookup_replicate_2 by lia. reflexivity.
  - rewrite bool_decide_eq_false_2 by lia. reflexivity.
Qed.

Lemma config_nop_region (t t' : TrackBase) (m m' : AudioMixerBase) :
  config_of t' = config_of t -> mFrameCount m' = mFrameCount m ->
  mainBuffer t' = mainBuffer t /\ nop_elements m' t' = nop_elements m t.
Proof.
  intros H Hf.
  pose proof (f_equal (fun c => fst (fst (snd (fst (fst (fst (fst (fst (fst (fst (snd c)))))))))))
                      H) as H1.
  pose proof (f_equal (fun c => fst (fst (snd (fst (fst (fst (fst (fst (snd c))))))))) H) as H2.
  pose proof (f_equal (fun c => snd (snd (fst (fst (fst (fst (snd c))))))) H) as H3.
  cbn in H1, H2, H3. split; [exact H1 |].
  unfold nop_elements, getMixerChannelCount. rewrite H2, H3, Hf. reflexivity.
Qed.

Lemma nop_memory (w w' : world) :
  process__nop_body w = Some w' ->
  (forall p i, (exists pair, pair ∈ map_to_list (mGroups (fst w))
                             /\ nop_clears (fst w) (snd pair) p i) ->
               snd w' p i = zero_bits)
  /\ (forall p i, ~ (exists pair, pair ∈ map_to_list (mGroups (fst w))
                                  /\ nop_clears (fst w) (snd pair) p i) ->
                  snd w' p i = snd w p i).
Proof.
  unfold process__nop_body. intros Hrun.
  pose (Inv := fun (done : list (Z * list Z)) (s : world) =>
         schedule_of (fst s) = schedule_of (fst w)
         /\ (forall p i, (exists pair, pair ∈ done /\ nop_clears (fst w) (snd pair) p i) ->
                         snd s p i = zero_bits)
         /\ (forall p i, ~ (exists pair, pair ∈ done /\ nop_clears (fst w) (snd pair) p i) ->
                         snd s p i = snd w p i)).
  assert (HI : Inv (map_to_list (mGroups (fst w))) w').
  { eapply (for_each_invariant _ Inv (map_to_list (mGroups (fst w)))) with (done := []);
      [| reflexivity | | exact Hrun].
    - intros done [key g] rest [m mem] s2 Hl (Hs & Hz & Hk). cbn [fst snd] in *. cbv zeta.
      destruct (head g) as [name0 |] eqn:Ehd; [| discriminate].
      destruct (mTracks m !! name0) as [ts |] eqn:Hts; [| discriminate].
      destruct (_ && _); [discriminate |].
      match goal with
      | |- context [for_each ?f m g] =>
          destruct (for_each f m g) as [m1 |] eqn:Ea; [| discriminate]
      end.
      assert (Hs1 : schedule_of m1 = schedule_of (fst w)).
      { rewrite <- Hs.
        apply (for_each_preserves _ schedule_of) in Ea; [exact Ea |].
        intros s y s1 _.
        destruct (mTracks s !! y) as [ty |] eqn:Hty; [| discriminate].
        destruct (bufferProvider ty) as [pv |] eqn:Ep.
        - destruct (nop_consume _ _ _) as [b p']. intros [= <-].
          apply (schedule_putTrack s y ty _ Hty).
          exact (config_provider_buffer pv p' b ty Ep).
        - destruct (_ =? 0); [| discriminate]. intros [= <-]. reflexivity. }
      intros [= <-]. unfold Inv. cbn [fst snd].
      split; [exact Hs1 |].
      change (elements_of_bytes
                (mFrameCount m * audio_bytes_per_frame (getMixerChannelCount ts) (mMixerFormat ts))
                (audio_bytes_per_sample (mMixerFormat ts)))
        with (nop_elements m ts).
      destruct (schedule_lookup (fst w) m name0 ts (eq_sym Hs) Hts) as (t0 & Ht0 & Hc0).
      destruct (config_nop_region ts t0 m (fst w) Hc0
                  (proj1 (proj2 (schedule_fields _ _ (eq_sym Hs))))) as [Emb Ene].
      assert (Hhere : forall p i, nop_clears (fst w) g p i <->
                                  p = mainBuffer ts /\ 0 <= i < nop_elements m ts).
      { intros p i. unfold nop_clears. rewrite Ehd. split.
        - intros (n0 & t & [= <-] & Ht & -> & Hi).
          assert (t = t0) by congruence. subst t. rewrite <- Emb, <- Ene in *. auto.
        - intros [-> Hi]. exists name0, t0. rewrite Emb, Ene. auto. }
      split; intros p i Hr; rewrite memset0_spec;
        destruct (bool_decide_reflect (p = mainBuffer ts /\ 0 <= i < nop_elements m ts))
          as [Hin | Hout]; try reflexivity.
      + (* cleared before *)
        apply Hz. destruct Hr as (pair & Hp & Hc).
        apply elem_of_app in Hp as [Hp | Hp]; [eauto |].
        apply list_elem_of_singleton in Hp. subst pair. cbn [snd] in Hc.
        apply Hhere in Hc. contradiction.
      + (* not to be cleared, yet written: impossible *)
        exfalso. apply Hr. exists (key, g). split.
        * apply elem_of_app. right. left.
        * apply Hhere. exact Hin.
      + apply Hk. intros (pair & Hp & Hc). apply Hr. exists pair. split; [| exact Hc].
        apply elem_of_app. left. exact Hp.
    - unfold Inv. split; [reflexivity |]. split.
      + intros p i (pair & Hp & _). inversion Hp.
      + reflexivity. }
  destruct HI as (_ & Hz & Hk). split; assumption.
Qed.

(** X17.  [process__nop], when it returns, has set to zero exactly the
    elements it clears for each group (the first [nop_elements] elements of
    the main buffer of the group's first track, i.e. frame count times mixer
    channel count elements for a PCM mixer format) and has left every other
    element of the caller's memory as it was. *)
Theorem process__nop_clears_main_buffers (w w' : world) :
  process__nop_body w = Some w' ->
  (forall p i,
      (exists key g, mGroups (fst w) !! key = Some g /\ nop_clears (fst w) g p i) ->
      snd w' p i = zero_bits)
  /\ (forall p i,
      ~ (exists key g, mGroups (fst w) !! key = Some g /\ nop_clears (fst w) g p i) ->
      snd w' p i = snd w p i)
  /\ (forall t, audio_bytes_per_sample (mMixerFormat t) <> 0 ->
                nop_elements (fst w) t = mFrameCount (fst w) * mMixerChannelCount t).
Proof.
  intros Hrun. destruct (nop_memory w w' Hrun) as [Hz Hk].
  split; [| split].
  - intros p i (key & g & Hg & Hc). apply Hz. exists (key, g). split; [| exact Hc].
    apply elem_of_map_to_list. exact Hg.
  - intros p i Hn. apply Hk. intros ([key g] & Hp & Hc). apply Hn.
    exists key, g. split; [| exact Hc]. apply elem_of_map_to_list in Hp. exact Hp.
  - intros t Hb. unfold nop_elements, elements_of_bytes, audio_bytes_per_frame,
      getMixerChannelCount.
    destruct (Z.eqb_spec (audio_bytes_per_sample (mMixerFormat t)) 0) as [E | _];
      [contradiction |].
    rewrite Z.mul_assoc. apply Z.div_mul. exact Hb.
Qed.

Lemma process__nop_clears_main_buffers_witness :
  let w := (mixer_muted_validated, noise) in
  let w' := default w (process__nop_body w) in
  mHook mixer_muted_validated = process__nop
  /\ snd w 100 0 = SInt 1 /\ snd w' 100 0 = zero_bits /\ snd w' 100 127 = zero_bits.
Proof.
  intros w w'. split; [vm_compute; reflexivity |]. split; [reflexivity |].
  destruct (process__nop_clears_main_buffers w w') as (Hz & _ & _).
  - vm_compute. reflexivity.
  - assert (Hc : forall i, 0 <= i < 128 ->
                   exists key g, mGroups (fst w) !! key = Some g /\ nop_clears (fst w) g 100 i).
    { intros i Hi. exists 100, [1]. split; [vm_compute; reflexivity |].
      exists 1, (default null_track (mTracks mixer_muted_validated !! 1)).
      split; [reflexivity |]. split; [vm_compute; reflexivity |].
      split; [vm_compute; reflexivity |].
      change (nop_elements (fst w) (default null_track (mTracks mixer_muted_validated !! 1)))
        with 128. exact Hi. }
    split; apply Hz, Hc; lia.
Defined.

(** ** The process hook of a mixer with one enabled track *)

Lemma getProcessHook_some (cc inF outF : Z) (sv : bool) (h : process_hook_t) :
  getProcessHook PROCESSTYPE_NORESAMPLEONETRACK cc inF outF sv = Some h ->
  h = process__noResampleOneTrack
        (if sv then MIXTYPE_MULTI_SAVEONLY_STEREOVOL else MIXTYPE_MULTI_SAVEONLY)
        (if outF =? AUDIO_FORMAT_PCM_FLOAT then T_float else T_int16)
        (if inF =? AUDIO_FORMAT_PCM_FLOAT then T_float else T_int16)
        TYPE_AUX.
Proof.
  unfold getProcessHook. change (negb kUseNewMixer) with false. cbn [andb].
  change (negb (PROCESSTYPE_NORESAMPLEONETRACK =? PROCESSTYPE_NORESAMPLEONETRACK)) with false.
  cbv iota zeta.
  destruct (MAX_NUM_CHANNELS <? cc); [discriminate |].
  destruct (inF =? AUDIO_FORMAT_PCM_FLOAT).
  - destruct (outF =? AUDIO_FORMAT_PCM_FLOAT); [intros [= <-]; reflexivity |].
    destruct (outF =? AUDIO_FORMAT_PCM_16_BIT); [intros [= <-]; reflexivity | discriminate].
  - destruct (inF =? AUDIO_FORMAT_PCM_16_BIT); [| discriminate].
    destruct (outF =? AUDIO_FORMAT_PCM_FLOAT); [intros [= <-]; reflexivity |].
    destruct (outF =? AUDIO_FORMAT_PCM_16_BIT); [intros [= <-]; reflexivity | discriminate].
Qed.

(** The flags that the scan leaves after one track. *)
Lemma validate_track_flags (t t' : TrackBase) (fl fl' : validate_flags) :
  validate_track t fl = Some (t', fl') ->
  let n := needs_of t in
  let mute := negb (Z.land n NEEDS_MUTE =? 0) in
  let aux := negb (Z.land n NEEDS_AUX =? 0) in
  let res := negb (Z.land n NEEDS_RESAMPLE =? 0) in
  let mono := Z.land n NEEDS_CHANNEL_COUNT__MASK =? NEEDS_CHANNEL_1 in
  fl' = mkFlags (all16BitsStereoNoResample fl && (mute || (negb aux && negb res && negb mono)))
                (resampling fl || (negb mute && res))
                (volumeRamp fl || negb (Z.lor (volumeInc t 0) (volumeInc t 1) =? 0)).
Proof.
  unfold validate_track, needs_of. cbv zeta.
  match goal with
  | |- context [set_needs ?n t] => generalize n
  end.
  intros n.
  destruct (fields_set_needs n t) as (E1 & E2 & E3 & E4 & E5 & E6).
  rewrite ?E1, ?E2, ?E3, ?E4, ?E5, ?E6.
  pose proof (land_7_range n) as Hchan.
  destruct fl as [a r v]. cbn [all16BitsStereoNoResample resampling volumeRamp].
  destruct (negb (Z.lor (volumeInc t 0) (volumeInc t 1) =? 0));
    cbn [all16BitsStereoNoResample resampling volumeRamp];
    (destruct (negb (Z.land n NEEDS_MUTE =? 0)); cbn [negb andb orb];
     [ intros [= _ <-]; rewrite ?andb_true_r, ?orb_false_r, ?orb_true_r; reflexivity |]);
    (destruct (negb (Z.land n NEEDS_AUX =? 0));
     cbn [negb andb orb all16BitsStereoNoResample resampling volumeRamp]);
    (destruct (negb (Z.land n NEEDS_RESAMPLE =? 0));
     cbn [negb andb orb all16BitsStereoNoResample resampling volumeRamp];
     [ destruct (getTrackHook _ _ _ _); [| discriminate];
       intros [= _ <-]; rewrite ?andb_false_r, ?orb_true_r, ?orb_false_r; reflexivity |]);
    (destruct (Z.eqb_spec (Z.land n NEEDS_CHANNEL_COUNT__MASK) NEEDS_CHANNEL_1) as [Ec | Ec];
     [ rewrite ?Ec; change (NEEDS_CHANNEL_2 <=? NEEDS_CHANNEL_1) with false;
       destruct (getTrackHook _ _ _ _); [| discriminate];
       intros [= _ <-]; cbn [negb andb orb];
       rewrite ?andb_false_r, ?orb_true_r, ?orb_false_r; reflexivity
     | assert (Hc2 : (NEEDS_CHANNEL_2 <=? Z.land n NEEDS_CHANNEL_COUNT__MASK) = true)
         by (apply Z.leb_le; unfold NEEDS_CHANNEL_2, NEEDS_CHANNEL_1 in *; lia);
       rewrite Hc2;
       destruct (getTrackHook _ _ _ _); [| discriminate];
       intros [= _ <-]; cbn [negb andb orb];
       rewrite ?andb_true_r, ?andb_false_r, ?orb_true_r, ?orb_false_r; reflexivity ]).
Qed.

Lemma filter_none (P : Z -> Prop) `{!forall y, Decision (P y)} (l : list Z) :
  (forall y, y ∈ l -> ~ P y) -> filter P l = [].
Proof.
  induction l as [| a l IH]; intros HP; [reflexivity |].
  rewrite filter_cons, decide_False by (apply HP; left).
  apply IH. intros y Hy. apply HP. right. exact Hy.
Qed.

Lemma filter_single (P : Z -> Prop) `{!forall y, Decision (P y)} (l : list Z) (x : Z) :
  NoDup l -> x ∈ l -> (forall y, y ∈ l -> P y <-> y = x) -> filter P l = [x].
Proof.
  induction l as [| a l IH]; intros Hnd Hx HP; [inversion Hx |].
  apply NoDup_cons in Hnd as [Ha Hnd]. rewrite filter_cons.
  destruct (decide (a = x)) as [-> | Hne].
  - rewrite decide_True by (apply HP; [left | reflexivity]).
    f_equal. apply filter_none. intros y Hy HPy.
    apply HP in HPy; [| right; exact Hy]. subst y. exact (Ha Hy).
  - rewrite decide_False by (intros HPa; apply HP in HPa; [contradiction | left]).
    apply IH; [exact Hnd | | ].
    + apply elem_of_cons in Hx as [-> | Hx]; [contradiction | exact Hx].
    + intros y Hy. apply HP. right. exact Hy.
Qed.

(** The scan of a registry in which [x] is the only enabled track. *)
Lemma validate_scan_single (m m' : AudioMixerBase) (fl : validate_flags)
  (x : Z) (t : TrackBase) :
  (forall y ty, mTracks m !! y = Some ty -> enabled ty = true -> y = x) ->
  mTracks m !! x = Some t -> enabled t = true ->
  validate_scan m = Some (m', fl) ->
  mEnabled m' = [x]
  /\ exists t1, validate_track t (mkFlags true false false) = Some (t1, fl)
                /\ mTracks m' !! x = Some t1.
Proof.
  intros Huniq Ht Hen Hrun.
  destruct (validate_scan_invariant m m' fl Hrun) as (He & _ & _ & _).
  split.
  { rewrite He. apply filter_single.
    - apply trackNames_NoDup.
    - apply elem_of_trackNames. eauto.
    - intros y _. unfold is_enabled. split.
      + destruct (mTracks m !! y) as [ty |] eqn:Hty; [| discriminate].
        cbn. intros [= Hy]. exact (Huniq y ty Hty Hy).
      + intros ->. rewrite Ht. cbn. congruence. }
  unfold validate_scan in Hrun.
  pose (Inv := fun (done : list Z) (s : AudioMixerBase * validate_flags) =>
     (forall n, n ∉ done -> mTracks (fst s) !! n = mTracks m !! n)
     /\ (x ∉ done -> snd s = mkFlags true false false)
     /\ (x ∈ done -> exists t1, validate_track t (mkFlags true false false) = Some (t1, snd s)
                                /\ mTracks (fst s) !! x = Some t1)).
  assert (HI : Inv (trackNames m) (m', fl)).
  { eapply (for_each_invariant _ Inv (trackNames m)) with (done := []);
      [| reflexivity | | exact Hrun].
    - intros done y rest [m1 fl1] s2 Hl (Hout & Hbefore & Hafter). cbn [fst snd] in *.
      assert (Hy : y ∉ done).
      { pose proof (trackNames_NoDup m) as Hnd. rewrite <- Hl in Hnd.
        apply NoDup_app in Hnd as (_ & Hd & _). intros Hin.
        apply (Hd y Hin). left. }
      rewrite (Hout y Hy).
      destruct (mTracks m !! y) as [ty |] eqn:Hty; [| discriminate].
      destruct (enabled ty) eqn:Een; cbn [negb].
      + assert (y = x) by exact (Huniq y ty Hty Een). subst y.
        assert (ty = t) by congruence. subst ty.
        rewrite (Hbefore Hy).
        destruct (validate_track t _) as [[t' fl'] |] eqn:Ev; [| discriminate].
        intros [= <-]. unfold Inv. cbn [fst snd]. rewrite mTracks_putTrack.
        split; [| split].
        * intros n Hn. rewrite lookup_insert_ne.
          -- apply Hout. intros Hd. apply Hn, elem_of_app. left. exact Hd.
          -- intros ->. apply Hn, elem_of_app. right. left.
        * intros Hn. exfalso. apply Hn, elem_of_app. right. left.
        * intros _. exists t'. split; [reflexivity | apply lookup_insert_eq].
      + intros [= <-]. unfold Inv. cbn [fst snd].
        assert (Hyx : y <> x) by (intros ->; congruence).
        split; [| split].
        * intros n Hn. apply Hout. intros Hd. apply Hn, elem_of_app. left. exact Hd.
        * intros Hn. apply Hbefore. intros Hd. apply Hn, elem_of_app. left. exact Hd.
        * intros Hn. apply Hafter. apply elem_of_app in Hn as [Hn | Hn]; [exact Hn |].
          apply list_elem_of_singleton in Hn. congruence.
    - unfold Inv. cbn [fst snd]. split; [reflexivity |]. split; [reflexivity |].
      intros Hn. inversion Hn. }
  destruct HI as (_ & _ & Hafter). apply Hafter. apply elem_of_trackNames. eauto.
Qed.

Lemma control_hook_args (t t' : TrackBase) :
  control_of t' = control_of t ->
  useStereoVolume t' = useStereoVolume t
  /\ mMixerChannelCount t' = mMixerChannelCount t
  /\ mMixerInFormat t' = mMixerInFormat t
  /\ mMixerFormat t' = mMixerFormat t.
Proof.
  intros H.
  pose proof (f_equal (fun c => snd (fst (fst (fst (fst (fst (fst (fst (fst (fst (fst c)))))))))))
                      H) as H1.
  pose proof (f_equal (fun c => fst (snd (fst (fst (fst (fst c)))))) H) as H2.
  pose proof (f_equal (fun c => snd (snd (fst (fst (fst (fst c)))))) H) as H3.
  pose proof (f_equal (fun c => snd (snd (fst (fst (fst (fst (fst c))))))) H) as H4.
  pose proof (f_equal (fun c => fst (fst (snd (fst (fst (fst (fst (fst c)))))))) H) as H5.
  cbn in H1, H2, H3, H4, H5.
  unfold useStereoVolume. rewrite H1, H2. auto.
Qed.

Lemma validate_select_generic (m m' : AudioMixerBase) (fl : validate_flags) :
  validate_select m fl = Some m' -> mEnabled m <> [] ->
  (resampling fl = true -> mHook m' = process__genericResampling)
  /\ (resampling fl = false -> all16BitsStereoNoResample fl = false ->
      mHook m' = process__genericNoResampling).
Proof.
  unfold validate_select. cbv zeta.
  change (mEnabled (set_mHook process__nop m)) with (mEnabled m).
  destruct (mEnabled m) as [| a l]; [intros _ Hne; contradiction |].
  cbn [length Nat.ltb Nat.leb]. intros Hsel _.
  destruct (resampling fl).
  - split; [| discriminate]. intros _.
    revert Hsel. destruct (mOutputTemp _), (mResampleTemp _); intros [= <-]; reflexivity.
  - split; [discriminate |]. intros _ Ha. rewrite Ha in Hsel. cbn [andb] in Hsel.
    injection Hsel as <-. reflexivity.
Qed.

(** X18.  The process hook that a validating [process] leaves for a mixer
    with exactly one enabled track (with channels): [process__nop] when the
    track has no resampler and both float volumes zero; else
    [process__genericResampling] when it has a resampler; else
    [process__genericNoResampling] when it feeds an aux buffer or its
    channel field reads as one channel (channel count 1 modulo 8); and
    otherwise the one-track hook [process__noResampleOneTrack], instantiated
    by the stereo-volume test and the two mixer formats. *)
Theorem process_single_track_hook `{MixerOps} (w w' : world) (x : Z) (t : TrackBase) :
  mHook (fst w) = process__validate ->
  (forall y ty, mTracks (fst w) !! y = Some ty -> enabled ty = true -> y = x) ->
  mTracks (fst w) !! x = Some t ->
  enabled t = true ->
  1 <= channelCount t <= 255 ->
  process w = Some w' ->
  mHook (fst w') =
    if negb (doesResample t) && isVolumeMuted t then process__nop
    else if doesResample t then process__genericResampling
    else if (negb (auxLevel t =? 0) && negb (auxBuffer t =? 0))
            || ((channelCount t - 1) mod 8 =? 0)
         then process__genericNoResampling
         else process__noResampleOneTrack
                (if useStereoVolume t then MIXTYPE_MULTI_SAVEONLY_STEREOVOL
                 else MIXTYPE_MULTI_SAVEONLY)
                (if mMixerFormat t =? AUDIO_FORMAT_PCM_FLOAT then T_float else T_int16)
                (if mMixerInFormat t =? AUDIO_FORMAT_PCM_FLOAT then T_float else T_int16)
                TYPE_AUX.
Proof.
  destruct w as [m mem]. cbn [fst]. intros Hh Huniq Ht Hen Hcc. unfold process. cbn [fst].
  rewrite Hh. unfold process__validate_body.
  destruct (validate_scan m) as [[m1 fl] |] eqn:E1; [| discriminate].
  destruct (validate_scan_single m m1 fl x t Huniq Ht Hen E1) as (He1 & t1 & Hv & Ht1).
  apply validate_scan_controls in E1.
  pose proof (validate_track_flags t t1 _ fl Hv) as Hfl. cbv zeta in Hfl.
  destruct (needs_of_bits t Hcc) as (B7 & Br & Ba & Bm).
  rewrite B7, Br, Ba, Bm, !negb_involutive in Hfl.
  cbn [all16BitsStereoNoResample resampling volumeRamp andb orb] in Hfl.
  change NEEDS_CHANNEL_1 with 0 in Hfl.
  destruct (validate_select m1 fl) as [m2 |] eqn:E2; [| discriminate].
  destruct (validate_select_result m1 m2 fl E2) as (_ & _ & EE & _ & _).
  destruct (validate_select_generic m1 m2 fl E2 ltac:(rewrite He1; discriminate))
    as [Hres Hgen].
  apply validate_select_controls in E2.
  destruct (run_process_hook (mHook m2) (m2, mem)) as [[m3 mem3] |] eqn:E3; [| discriminate].
  apply schedule_run_process_hook in E3. cbn [fst] in E3.
  pose proof (controls_of_schedule m2 m3 E3) as E3c.
  apply schedule_fields in E3 as (E3h & _ & _ & E3e).
  assert (Hc3 : controls_of m3 = controls_of m) by congruence.
  assert (He3 : mEnabled m3 = [x]) by congruence.
  assert (Hl3 : exists t3, mTracks m3 !! x = Some t3 /\ control_of t3 = control_of t).
  { unfold controls_of in Hc3. injection Hc3 as _ _ Hc3.
    assert (Hx : (control_of <$> mTracks m3) !! x = (control_of <$> mTracks m) !! x)
      by (rewrite Hc3; reflexivity).
    rewrite !lookup_fmap, Ht in Hx. cbn in Hx.
    destruct (mTracks m3 !! x) as [t3 |]; [| discriminate].
    exists t3. split; [reflexivity |].
    exact (f_equal (fun o => default (control_of t) o) Hx). }
  destruct Hl3 as (t3 & Ht3 & Hct3).
  destruct (control_muted t t3 Hct3) as (_ & Hr3 & Hm3).
  destruct (control_hook_args t t3 Hct3) as (Hsv & Hcn & Hif & Hof).
  unfold validate_finish. rewrite He3. cbn [length Nat.ltb Nat.leb for_each].
  rewrite Ht3, Hr3, Hm3.
  destruct (negb (doesResample t) && isVolumeMuted t) eqn:Ec.
  - (* still muted after the pass *)
    intros [= <-]; cbn [fst]. reflexivity.
  - change (mEnabled m3) with (mEnabled m3). rewrite He3, Ht3, Hsv, Hcn, Hif, Hof.
    destruct (doesResample t) eqn:Er; cbn [negb andb orb] in *.
    + rewrite !andb_false_r in Hfl. cbn [negb andb orb] in Hfl. subst fl.
      cbn [all16BitsStereoNoResample resampling]  in *.
      intros [= <-]; cbn [fst]. rewrite E3h. apply Hres. reflexivity.
    + rewrite Ec in Hfl. rewrite !andb_false_r in Hfl. cbn [negb andb orb] in Hfl.
      rewrite !andb_true_r in Hfl. subst fl.
      cbn [all16BitsStereoNoResample resampling] in *.
      destruct (negb (auxLevel t =? 0) && negb (auxBuffer t =? 0)); cbn [negb andb orb] in *.
      * intros [= <-]; cbn [fst]. rewrite E3h. apply Hgen; reflexivity.
      * destruct ((channelCount t - 1) mod 8 =? 0); cbn [negb andb orb] in *.
        -- intros [= <-]; cbn [fst]. rewrite E3h. apply Hgen; reflexivity.
        -- destruct (getProcessHook _ _ _ _ _) as [h |] eqn:Eg; [| discriminate].
           apply getProcessHook_some in Eg. intros [= <-]; cbn [fst]. exact Eg.
Qed.

Lemma process_single_track_hook_witness :
  let w := (mixer_one_playing, silence) in
  let w' := default w (@process passthrough_ops w) in
  mHook (fst w')
  = process__noResampleOneTrack MIXTYPE_MULTI_SAVEONLY_STEREOVOL T_int16 T_float TYPE_AUX.
Proof.
  intros w w'.
  etransitivity.
  - apply (@process_single_track_hook passthrough_ops w w' 1
             (default null_track (mTracks mixer_one_playing !! 1))).
    + reflexivity.
    + apply (bool_decide_unpack
               (map_Forall (fun y ty => enabled ty = true -> y = 1)
                           (mTracks mixer_one_playing))).
      vm_compute. exact I.
    + reflexivity.
    + reflexivity.
    + vm_compute. split; discriminate.
    + vm_compute. reflexivity.
  - vm_compute. reflexivity.
Defined.

(** ** Resampling tracks and the process hook *)

Lemma validate_scan_resampling (m m' : AudioMixerBase) (fl : validate_flags) :
  (forall x t, mTracks m !! x = Some t -> enabled t = true -> 1 <= channelCount t <= 255) ->
  validate_scan m = Some (m', fl) ->
  (resampling fl = true <->
   exists x t, mTracks m !! x = Some t /\ enabled t = true /\ doesResample t = true)
  /\ (resampling fl = true -> all16BitsStereoNoResample fl = false).
Proof.
  intros Hcc Hrun. unfold validate_scan in Hrun.
  pose (Inv := fun (done : list Z) (s : AudioMixerBase * validate_flags) =>
     (forall n, n ∉ done -> mTracks (fst s) !! n = mTracks m !! n)
     /\ (resampling (snd s) = true <->
         exists x t, x ∈ done /\ mTracks m !! x = Some t /\ enabled t = true
                     /\ doesResample t = true)
     /\ (resampling (snd s) = true -> all16BitsStereoNoResample (snd s) = false)).
  assert (HI : Inv (trackNames m) (m', fl)).
  { eapply (for_each_invariant _ Inv (trackNames m)) with (done := []);
      [| reflexivity | | exact Hrun].
    - intros done y rest [m1 fl1] s2 Hl (Hout & Hiff & Hall). cbn [fst snd] in *.
      assert (Hy : y ∉ done).
      { pose proof (trackNames_NoDup m) as Hnd. rewrite <- Hl in Hnd.
        apply NoDup_app in Hnd as (_ & Hd & _). intros Hin.
        apply (Hd y Hin). left. }
      rewrite (Hout y Hy).
      destruct (mTracks m !! y) as [ty |] eqn:Hty; [| discriminate].
      assert (Hout' : forall s' : AudioMixerBase,
                 (forall n, n <> y -> mTracks s' !! n = mTracks m1 !! n) ->
                 forall n, n ∉ done ++ [y] -> mTracks s' !! n = mTracks m !! n).
      { intros s' Hs' n Hn. rewrite Hs'.
        - apply Hout. intros Hd. apply Hn, elem_of_app. left. exact Hd.
        - intros ->. apply Hn, elem_of_app. right. left. }
      destruct (enabled ty) eqn:Een; cbn [negb].
      + destruct (validate_track ty fl1) as [[t' fl'] |] eqn:Ev; [| discriminate].
        intros [= <-]. unfold Inv. cbn [fst snd].
        pose proof (validate_track_flags ty t' fl1 fl' Ev) as Hfl. cbv zeta in Hfl.
        destruct (needs_of_bits ty (Hcc y ty Hty Een)) as (_ & Br & _ & Bm).
        rewrite Br, Bm, !negb_involutive in Hfl. subst fl'.
        cbn [all16BitsStereoNoResample resampling volumeRamp].
        split; [| split].
        * apply Hout'. intros n Hn. rewrite mTracks_putTrack.
          apply lookup_insert_ne. congruence.
        * split.
          -- intros Hr. apply orb_true_iff in Hr as [Hr | Hr].
             ++ apply Hiff in Hr as (x & t & Hx & Hr). exists x, t.
                split; [apply elem_of_app; left; exact Hx | exact Hr].
             ++ exists y, ty. split; [apply elem_of_app; right; left |].
                split; [exact Hty |]. split; [exact Een |].
                destruct (doesResample ty); [reflexivity |].
                rewrite andb_false_r in Hr. discriminate.
          -- intros (x & t & Hx & Ht & Hen & Hr). apply orb_true_iff.
             apply elem_of_app in Hx as [Hx | Hx].
             ++ left. apply Hiff. eauto 6.
             ++ apply list_elem_of_singleton in Hx. subst x.
                assert (t = ty) by congruence. subst t. right. rewrite Hr.
                cbn [negb andb]. rewrite !andb_false_r. reflexivity.
        * intros Hr. apply orb_true_iff in Hr as [Hr | Hr].
          -- rewrite (Hall Hr). reflexivity.
          -- destruct (doesResample ty); [| rewrite andb_false_r in Hr; discriminate].
             cbn [negb andb orb]. rewrite ?andb_false_r. cbn [negb andb orb].
             rewrite ?andb_false_r. reflexivity.
      + intros [= <-]. unfold Inv. cbn [fst snd]. split; [| split].
        * apply Hout'. reflexivity.
        * rewrite Hiff. split.
          -- intros (x & t & Hx & Hr). exists x, t.
             split; [apply elem_of_app; left; exact Hx | exact Hr].
          -- intros (x & t & Hx & Ht & Hen & Hr).
             apply elem_of_app in Hx as [Hx | Hx]; [eauto 6 |].
             apply list_elem_of_singleton in Hx. subst x. congruence.
        * exact Hall.
    - unfold Inv. cbn [fst snd]. split; [reflexivity |]. split; [| discriminate].
      split; [discriminate |]. intros (x & t & Hx & _). inversion Hx. }
  destruct HI as (_ & Hiff & Hall). cbn [snd] in *. split; [| exact Hall].
  rewrite Hiff. split.
  - intros (x & t & _ & Hr). eauto.
  - intros (x & t & Ht & Hr). exists x, t. split; [| split; [exact Ht | exact Hr]].
    apply elem_of_trackNames. eauto.
Qed.

Lemma validate_select_not_resampling (m m' : AudioMixerBase) (fl : validate_flags) :
  validate_select m fl = Some m' -> resampling fl = false ->
  mHook m' <> process__genericResampling.
Proof.
  unfold validate_select. cbv zeta. intros Hsel Hr. rewrite Hr in Hsel. revert Hsel.
  repeat match goal with
         | |- context [getProcessHook ?a ?b ?c ?d ?e] =>
             let E := fresh "E" in
             destruct (getProcessHook a b c d e) eqn:E;
             [apply getProcessHook_new in E as (? & ? & ? & ? & ->) |]
         | |- context [match ?x with _ => _ end] => destruct x
         end; try discriminate; intros [= <-]; discriminate.
Qed.

Lemma validate_finish_keeps_hook (m m' : AudioMixerBase) (fl : validate_flags)
  (x : Z) (t : TrackBase) :
  validate_finish m fl = Some m' ->
  all16BitsStereoNoResample fl = false ->
  x ∈ mEnabled m -> mTracks m !! x = Some t -> doesResample t = true ->
  mHook m' = mHook m.
Proof.
  unfold validate_finish. intros Hfin Hall Hx Ht Hr. revert Hfin.
  destruct (0 <? length (mEnabled m))%nat; [| intros [= <-]; reflexivity].
  match goal with
  | |- context [for_each ?f ?s ?l] =>
      destruct (for_each f s l) as [[m1 allMuted] |] eqn:Ea; [| discriminate]
  end.
  pose (Inv := fun (done : list Z) (s : AudioMixerBase * bool) =>
     controls_of (fst s) = controls_of m /\ mHook (fst s) = mHook m
     /\ (x ∈ done -> snd s = false)).
  assert (HI : Inv (mEnabled m) (m1, allMuted)).
  { eapply (for_each_invariant _ Inv (mEnabled m)) with (done := []);
      [| reflexivity | | exact Ea].
    - intros done y rest [s b] s2 _ (Hc & Hh & Hb). cbn [fst snd] in *.
      destruct (mTracks s !! y) as [ts |] eqn:Hts; [| discriminate].
      destruct (negb (doesResample ts) && isVolumeMuted ts) eqn:Ec; intros [= <-];
        unfold Inv; cbn [fst snd].
      + split; [| split; [exact Hh |]].
        * rewrite <- Hc. apply (controls_putTrack s y ts); [exact Hts |].
          apply control_set_needs_hook.
        * intros Hin. apply elem_of_app in Hin as [Hin | Hin]; [exact (Hb Hin) |].
          apply list_elem_of_singleton in Hin. subst y. exfalso.
          destruct (controls_lookup s m x ts Hc Hts) as (t0 & Ht0 & Hct).
          apply control_muted in Hct as (_ & Hcr & _).
          assert (t0 = t) by congruence. subst t0.
          rewrite Hcr, Hr in Ec. discriminate.
      + split; [exact Hc |]. split; [exact Hh |]. reflexivity.
    - unfold Inv. cbn [fst snd]. split; [reflexivity |]. split; [reflexivity |].
      intros Hin. inversion Hin. }
  destruct HI as (_ & Hh & Hb). cbn [fst snd] in *. rewrite (Hb Hx), Hall.
  intros [= <-]. exact Hh.
Qed.

(** X19.  A validating [process] that returns leaves
    [process__genericResampling] installed exactly when some enabled track
    has a resampler (all enabled tracks having channels). *)
Theorem process_resampling_hook `{MixerOps} (w w' : world) :
  mHook (fst w) = process__validate ->
  (forall x t, mTracks (fst w) !! x = Some t -> enabled t = true ->
               1 <= channelCount t <= 255) ->
  process w = Some w' ->
  (mHook (fst w') = process__genericResampling <->
   exists x t, mTracks (fst w) !! x = Some t /\ enabled t = true /\ doesResample t = true).
Proof.
  destruct w as [m mem]. cbn [fst]. intros Hh Hcc. unfold process. cbn [fst].
  rewrite Hh. unfold process__validate_body.
  destruct (validate_scan m) as [[m1 fl] |] eqn:E1; [| discriminate].
  destruct (validate_scan_resampling m m1 fl Hcc E1) as [Hiff Hall].
  destruct (validate_scan_invariant m m1 fl E1) as (He & _ & _ & _).
  apply validate_scan_controls in E1.
  destruct (validate_select m1 fl) as [m2 |] eqn:E2; [| discriminate].
  destruct (validate_select_result m1 m2 fl E2) as (_ & _ & EE & _ & _).
  pose proof (validate_select_not_resampling m1 m2 fl E2) as Hnot.
  pose proof (validate_select_generic m1 m2 fl E2) as Hgen.
  apply validate_select_controls in E2.
  destruct (run_process_hook (mHook m2) (m2, mem)) as [[m3 mem3] |] eqn:E3; [| discriminate].
  apply schedule_run_process_hook in E3. cbn [fst] in E3.
  pose proof (controls_of_schedule m2 m3 E3) as E3c.
  apply schedule_fields in E3 as (E3h & _ & _ & E3e).
  assert (Hc3 : controls_of m3 = controls_of m) by congruence.
  destruct (validate_finish m3 fl) as [m4 |] eqn:E4; [| discriminate].
  intros [= <-]. cbn [fst]. rewrite <- Hiff. split.
  - intros Hk. destruct (resampling fl) eqn:Er; [reflexivity | exfalso].
    apply validate_finish_hook in E4 as [E | [E | (mt & TO & TI & TA & E)]];
      rewrite E in Hk; try discriminate.
    rewrite E3h in Hk. exact (Hnot eq_refl Hk).
  - intros Hr. pose proof (proj1 Hiff Hr) as (x & t & Ht & Hen & Hrs).
    assert (Hx : x ∈ mEnabled m1).
    { rewrite He. apply list_elem_of_filter. split.
      - unfold is_enabled. rewrite Ht. cbn. congruence.
      - apply elem_of_trackNames. eauto. }
    assert (Hl3 : exists t3, mTracks m3 !! x = Some t3 /\ doesResample t3 = true).
    { unfold controls_of in Hc3. injection Hc3 as _ _ Hc3.
      assert (Hxx : (control_of <$> mTracks m3) !! x = (control_of <$> mTracks m) !! x)
        by (rewrite Hc3; reflexivity).
      rewrite !lookup_fmap, Ht in Hxx. cbn in Hxx.
      destruct (mTracks m3 !! x) as [t3 |]; [| discriminate].
      exists t3. split; [reflexivity |].
      pose proof (f_equal (fun o => default (control_of t) o) Hxx) as Hct. cbn in Hct.
      apply control_muted in Hct as (_ & Hcr & _). congruence. }
    destruct Hl3 as (t3 & Ht3 & Hr3).
    rewrite (validate_finish_keeps_hook m3 m4 fl x t3 E4 (Hall Hr)
               ltac:(congruence) Ht3 Hr3).
    rewrite E3h. apply Hgen; [| exact Hr].
    intros E0. rewrite E0 in Hx. inversion Hx.
Qed.

Lemma process_resampling_hook_witness :
  let w := (mixer_resampling, silence) in
  let w' := default w (@process passthrough_ops w) in
  mHook (fst w') = process__genericResampling.
Proof.
  intros w w'.
  apply (@process_resampling_hook passthrough_ops w w').
  - reflexivity.
  - apply (bool_decide_unpack
             (map_Forall (fun _ t => enabled t = true -> 1 <= channelCount t <= 255)
                         (mTracks mixer_resampling))).
    vm_compute. exact I.
  - vm_compute. reflexivity.
  - exists 1, (default null_track (mTracks mixer_resampling !! 1)).
    split; [reflexivity |]. split; reflexivity.
Defined.
(** * The integer ramp of [volumeRampStereo] *)

Lemma ramp_acc_linear (n : nat) : forall v inc : Z,
  -2147483648 <= v < 2147483648 ->
  -2147483648 <= v + Z.of_nat n * inc < 2147483648 ->
  ramp_acc n v inc = v + Z.of_nat n * inc.
Proof.
  induction n as [| n IH]; intros v inc Hv Hend.
  - simpl. lia.
  - cbn [ramp_acc].
    assert (-2147483648 <= v + inc < 2147483648) as Hstep by nia.
    rewrite (int32_small _ Hstep).
    rewrite IH; [lia | lia | nia].
Qed.

Lemma ramp_acc_succ (n : nat) : forall v inc : Z,
  ramp_acc (S n) v inc = int32 (ramp_acc n v inc + inc).
Proof.
  induction n as [| n IH]; intros v inc; [reflexivity |].
  change (ramp_acc (S (S n)) v inc) with (ramp_acc (S n) (int32 (v + inc)) inc).
  rewrite IH. reflexivity.
Qed.

(** The loop of lines 844-849: the volumes it returns and what it adds to
    each output frame. *)
Lemma volumeRampStereo_loop_spec (n : nat) :
  forall (vl vr vlInc vrInc : Z) (out temp : list sample),
  let r := volumeRampStereo_loop n vl vr vlInc vrInc out temp in
  snd (fst r) = ramp_acc n vl vlInc /\ snd r = ramp_acc n vr vrInc
  /\ forall i : nat, (i < n)%nat ->
       fst (fst r) !! (2 * i)%nat
       = Some (SInt (int32 (at_ out (2 * i)
                            + int32 (Z.shiftr (ramp_acc i vl vlInc) 16
                                     * Z.shiftr (at_ temp (2 * i)) 12))))
       /\ fst (fst r) !! (2 * i + 1)%nat
          = Some (SInt (int32 (at_ out (2 * i + 1)
                               + int32 (Z.shiftr (ramp_acc i vr vrInc) 16
                                        * Z.shiftr (at_ temp (2 * i + 1)) 12)))).
Proof.
  induction n as [| n IH]; intros vl vr vlInc vrInc out temp.
  - cbn. split; [reflexivity |]. split; [reflexivity |]. intros i Hi; lia.
  - cbn [volumeRampStereo_loop].
    specialize (IH (int32 (vl + vlInc)) (int32 (vr + vrInc)) vlInc vrInc
                   (drop 2 out) (drop 2 temp)).
    destruct (volumeRampStereo_loop n (int32 (vl + vlInc)) (int32 (vr + vrInc))
                vlInc vrInc (drop 2 out) (drop 2 temp)) as [[rest vl'] vr'].
    cbn [fst snd] in IH |- *. destruct IH as (Hl & Hr & Hout).
    split; [exact Hl |]. split; [exact Hr |].
    intros [| i] Hi.
    + split; reflexivity.
    + destruct (Hout i ltac:(lia)) as [H0 H1].
      unfold at_ in H0, H1. rewrite !lookup_drop in H0, H1.
      replace (2 * S i)%nat with (S (S (2 * i))) by lia.
      replace (S (S (2 * i)) + 1)%nat with (S (S (2 * i + 1))) by lia.
      cbn [lookup list_lookup]. unfold at_. cbn [ramp_acc].
      replace (2 + 2 * i)%nat with (S (S (2 * i))) in H0 by lia.
      replace (2 + (2 * i + 1))%nat with (S (S (2 * i + 1))) in H1 by lia.
      split; [exact H0 | exact H1].
Qed.

Lemma quot_times_divisor (D R : Z) :
  0 < R ->
  Z.abs (R * Z.quot D R - D) <= R - 1
  /\ (0 <= D -> 0 <= R * Z.quot D R <= D)
  /\ (D <= 0 -> D <= R * Z.quot D R <= 0).
Proof.
  intros HR.
  pose proof (Z.quot_rem' D R) as Hqr.
  assert (0 <= D -> 0 <= Z.rem D R < R) as Hpos
      by (intros; apply Z.rem_bound_pos_pos; lia).
  assert (D <= 0 -> - R < Z.rem D R <= 0) as Hneg
      by (intros; apply Z.rem_bound_pos_neg; lia).
  revert Hqr Hpos Hneg. generalize (Z.quot D R) (Z.rem D R). intros q r Hqr Hpos Hneg.
  destruct (Z_le_gt_dec 0 D) as [HD | HD].
  - specialize (Hpos HD). assert (0 <= q) by nia.
    split; [lia |]. split; intros; nia.
  - assert (D <= 0) as HD' by lia. specialize (Hneg HD'). assert (q <= 0) by nia.
    split; [lia |]. split; intros; nia.
Qed.

Lemma intRampInc_small (V P R : Z) :
  0 < R -> 0 <= P <= 2 ^ 28 -> 0 <= V <= UNITY_GAIN_INT ->
  intRampInc V P R = Z.quot (V * 65536 - P) R.
Proof.
  intros HR HP HV. unfold UNITY_GAIN_INT in HV.
  change (2 ^ 28) with 268435456 in HP.
  unfold intRampInc. rewrite Z.shiftl_mul_pow2 by lia. change (2 ^ 16) with 65536.
  rewrite (int32_small (V * 65536)) by lia.
  rewrite (int32_small (V * 65536 - P)) by lia.
  destruct (quot_times_divisor (V * 65536 - P) R HR) as (_ & Hp & Hn).
  apply int32_small.
  destruct (Z_le_gt_dec 0 (V * 65536 - P)) as [HD | HD].
  - specialize (Hp HD). nia.
  - assert (V * 65536 - P <= 0) as HD' by lia. specialize (Hn HD'). nia.
Qed.

Lemma volumeRampStereo_no_aux (t : TrackBase) (out temp : list sample) (R : Z) :
  0 < R ->
  let r := volumeRampStereo_loop (Z.to_nat R) (prevVolume t 0) (prevVolume t 1)
                                 (volumeInc t 0) (volumeInc t 1) out temp in
  exists t', volumeRampStereo t out R temp None = Some (t', fst (fst r), None)
    /\ forall c, c = 0 \/ c = 1 ->
         volumeVars t' c
         = adjustVolumeRampChannel false
             (setIntPrevVolume (ramp_acc (Z.to_nat R) (prevVolume t c) (volumeInc t c))
                               (volumeVars t c)).
Proof.
  intros HR r.
  pose proof (volumeRampStereo_loop_spec (Z.to_nat R) (prevVolume t 0) (prevVolume t 1)
                (volumeInc t 0) (volumeInc t 1) out temp) as (Hl & Hr & _).
  fold r in Hl, Hr.
  unfold volumeRampStereo.
  assert ((R <=? 0) = false) as -> by (apply Z.leb_gt; lia).
  fold r. destruct r as [[out' vl'] vr']. cbn [fst snd] in *. subst vl' vr'.
  eexists. split; [reflexivity |].
  intros c Hc. rewrite volumeVars_adjustVolumeRamp. f_equal.
  destruct Hc as [-> | ->]; destruct t; reflexivity.
Qed.

(** X20.  The legacy kernel [volumeRampStereo], called without aux buffer
    for [R] frames on a track whose integer ramp was installed by
    [setVolumeRampVariables] for [R] frames (volumes within unity gain).
    For each channel [c]:
    - the U4.28 accumulator at frame [i] is [P + i * I], [I] being the
      truncated quotient of the distance [T - P] by [R]; it is within
      [i * (R - 1) / R] steps of the line from [P] to [T];
    - the gain multiplied into frame [i] is that accumulator shifted right
      by 16 (a U4.12 value);
    - after the call, when the test of [adjustVolumeRamp] holds (it does
      whenever [R] divides the distance) the previous volume is the
      committed one in both representations and both increments are 0;
      otherwise the ramp is still pending: [prevVolume[c]] is [P + R * I],
      the increment is kept and [mPrevVolume[c]] is
      [float_from_u4_28(prevVolume[c])]. *)
Theorem volumeRampStereo_integer_ramp
  (t : TrackBase) (out temp : list sample) (R c : Z) :
  0 < R -> c = 0 \/ c = 1 ->
  0 <= prevVolume t c <= 2 ^ 28 -> 0 <= volume t c <= UNITY_GAIN_INT ->
  volumeInc t c = intRampInc (volume t c) (prevVolume t c) R ->
  let P := prevVolume t c in
  let I := volumeInc t c in
  let T := Z.shiftl (volume t c) 16 in
  exists t' out',
    volumeRampStereo t out R temp None = Some (t', out', None)
    /\ (forall i : nat, Z.of_nat i < R ->
          Z.abs (R * (P + Z.of_nat i * I) - (R * P + Z.of_nat i * (T - P)))
            <= Z.of_nat i * (R - 1)
          /\ out' !! (2 * i + Z.to_nat c)%nat
             = Some (SInt (int32 (at_ out (2 * i + Z.to_nat c)
                                  + int32 (Z.shiftr (P + Z.of_nat i * I) 16
                                           * Z.shiftr (at_ temp (2 * i + Z.to_nat c)) 12)))))
    /\ let over := rampDoneInt (setIntPrevVolume (P + R * I) (volumeVars t c)) in
       (Z.rem (T - P) R = 0 -> I <> 0 -> over = true)
       /\ volume t' c = volume t c
       /\ if over
          then prevVolume t' c = T /\ volumeInc t' c = 0
               /\ mPrevVolume t' c = mVolume t c /\ mVolumeInc t' c = F32.zero
          else prevVolume t' c = P + R * I /\ volumeInc t' c = I
               /\ mPrevVolume t' c = float_from_u4_28 (P + R * I).
Proof.
  intros HR Hc HP HV HI. cbv zeta.
  pose proof (intRampInc_small _ _ _ HR HP HV) as Hq. rewrite <- HI in Hq.
  set (P := prevVolume t c) in *. set (I := volumeInc t c) in *.
  set (T := Z.shiftl (volume t c) 16) in *.
  assert (T = volume t c * 65536) as HT
      by (unfold T; rewrite Z.shiftl_mul_pow2 by lia; reflexivity).
  rewrite <- HT in Hq.
  destruct (quot_times_divisor (T - P) R HR) as (Habs & Hpos & Hneg).
  rewrite <- Hq in Habs, Hpos, Hneg.
  unfold UNITY_GAIN_INT in HV. change (2 ^ 28) with 268435456 in HP.
  assert (forall k, 0 <= k <= R -> -268435456 <= k * I <= 268435456
                                   /\ 0 <= P + k * I <= 268435456) as Hrange.
  { intros k Hk. destruct (Z_le_gt_dec 0 (T - P)) as [HD | HD].
    - specialize (Hpos HD). assert (0 <= I) by nia. nia.
    - assert (T - P <= 0) as HD' by lia. specialize (Hneg HD'). assert (I <= 0) by nia. nia. }
  assert (forall n : nat, Z.of_nat n <= R -> ramp_acc n P I = P + Z.of_nat n * I) as Hacc.
  { intros n Hn. apply ramp_acc_linear; [lia |].
    destruct (Hrange (Z.of_nat n) ltac:(lia)). lia. }
  destruct (volumeRampStereo_no_aux t out temp R HR) as (t' & Hrun & Hvars).
  pose proof (volumeRampStereo_loop_spec (Z.to_nat R) (prevVolume t 0) (prevVolume t 1)
                (volumeInc t 0) (volumeInc t 1) out temp) as (_ & _ & Hout).
  cbv zeta in Hrun, Hout.
  exists t', (fst (fst (volumeRampStereo_loop (Z.to_nat R) (prevVolume t 0) (prevVolume t 1)
                          (volumeInc t 0) (volumeInc t 1) out temp))).
  split; [exact Hrun |]. split.
  - intros i Hi. split.
    + destruct (Z_le_gt_dec 0 (T - P)) as [HD | HD].
      * specialize (Hpos HD). nia.
      * assert (T - P <= 0) as HD' by lia. specialize (Hneg HD'). nia.
    + destruct (Hout i ltac:(lia)) as [H0 H1].
      destruct Hc as [-> | ->].
      * change (Z.to_nat 0) with 0%nat. rewrite Nat.add_0_r.
        rewrite H0. fold (prevVolume t 0) in *. unfold P, I in Hacc.
        rewrite Hacc by lia. reflexivity.
      * change (Z.to_nat 1) with 1%nat.
        rewrite H1. unfold P, I in Hacc. rewrite Hacc by lia. reflexivity.
  - specialize (Hvars c Hc). fold P I in Hvars.
    rewrite Hacc in Hvars by lia. rewrite Z2Nat.id in Hvars by lia.
    split.
    + intros Hrem HI0. unfold rampDoneInt, setIntPrevVolume. cbn [IntPrevVolume IntVolumeInc IntSetVolume].
      fold (volumeInc t c) (volume t c). fold I.
      pose proof (Z.quot_rem' (T - P) R) as Hqr. rewrite Hrem, <- Hq in Hqr.
      assert (P + R * I = T) as -> by lia.
      destruct (Hrange 1 ltac:(lia)) as [HI1 _].
      rewrite int32_small by lia. rewrite Z.shiftr_div_pow2 by lia. change (2 ^ 16) with 65536.
      destruct (Z_lt_ge_dec 0 I) as [Hgt | Hle].
      * assert ((0 <? I) = true) as -> by (apply Z.ltb_lt; lia).
        assert ((volume t c <=? (T + I) / 65536) = true) as ->; [| reflexivity].
        apply Z.leb_le. apply Z.div_le_lower_bound; lia.
      * assert ((0 <? I) = false) as -> by (apply Z.ltb_ge; lia).
        assert ((I <? 0) = true) as -> by (apply Z.ltb_lt; lia).
        assert (((T + I) / 65536 <=? volume t c) = true) as ->; [| reflexivity].
        apply Z.leb_le. apply Z.div_le_upper_bound; lia.
    + unfold volume, prevVolume, volumeInc, mPrevVolume, mVolume, mVolumeInc.
      rewrite Hvars. unfold adjustVolumeRampChannel.
      destruct (rampDoneInt (setIntPrevVolume (P + R * I) (volumeVars t c))).
      * split; [reflexivity |]. cbn [rampSnap setIntPrevVolume IntPrevVolume IntVolumeInc
                                      IntSetVolume PrevVolume SetVolume VolumeInc].
        fold (volume t c). rewrite Z.shiftl_mul_pow2 by lia. change (2 ^ 16) with 65536.
        rewrite int32_small by lia. rewrite HT. repeat split; reflexivity.
      * split; [reflexivity |]. repeat split; reflexivity.
Qed.

Lemma volumeRampStereo_integer_ramp_witness :
  exists t' out',
    volumeRampStereo (ramping_track 64 F32.one) (replicate 128 (SInt 0)) 64
                     (replicate 128 (SInt 0x7FFF000)) None = Some (t', out', None)
    /\ prevVolume t' 0 = 268435456 /\ volumeInc t' 0 = 0.
Proof.
  destruct (volumeRampStereo_integer_ramp (ramping_track 64 F32.one)
              (replicate 128 (SInt 0)) (replicate 128 (SInt 0x7FFF000)) 64 0)
    as (t' & out' & Hrun & _ & Hover & _ & Hfin).
  - lia.
  - left; reflexivity.
  - vm_compute. split; discriminate.
  - vm_compute. split; discriminate.
  - vm_compute. reflexivity.
  - exists t', out'. split; [exact Hrun |].
    rewrite Hover in Hfin; [| vm_compute; reflexivity | vm_compute; discriminate].
    destruct Hfin as (Hp & Hi & _). rewrite Hp, Hi. split; vm_compute; reflexivity.
Defined.

(** A ramp that one call does not finish: from 0 to 2^-12 over 480 frames
    [volumeRampStereo] leaves [prevVolume[0]] at 65280, short of
    [volume[0] << 16 = 65536], with [volumeInc[0]] still 136; at frame 479
    the U4.28 accumulator is 65144, 255 steps off the line from 0 to 65536
    (the gain applied, its top 12 bits, is 0). *)
Lemma volumeRampStereo_ramp_480_incomplete :
  match ramp_480_result with
  | Some (t', _, _) =>
      ~ (prevVolume t' 0 = Z.shiftl (volume t' 0) 16 /\ volumeInc t' 0 = 0)
      /\ ~ (Z.abs (480 * ramp_acc 479 (prevVolume ramping_track_480 0)
                                  (volumeInc ramping_track_480 0)
                   - 479 * Z.shiftl (volume ramping_track_480 0) 16) <= 1 * 480)
  | None => False
  end.
Proof.
  vm_compute. split.
  - intros [H _]. discriminate H.
  - intros H. apply H. reflexivity.
Qed.
(** ** Resampler, sample rate and NEEDS_RESAMPLE *)













(** ** The validate flag after a change of the mixer format *)

(** C8.  The claim fails for TRACK/MIXER_FORMAT.  On a mixer whose one
    enabled track went through a [process] cycle, where the process hook is
    the single-track routine with 16-bit output, setting the mixer format to
    float changes [mMixerFormat] of the track and leaves the process hook as
    it was, so that the next [process] does not run the validate pass; the
    validate pass, when it is forced, selects the routine with float output.
    CHANNEL_MASK, FORMAT and the other cases of the same switch call
    [invalidate] after their change. *)
Theorem setParameter_mixer_format_keeps_hook :
  let old := process__noResampleOneTrack MIXTYPE_MULTI_SAVEONLY_STEREOVOL T_int16 T_float T_float in
  mHook mixer_one_validated = old
  /\ (mMixerFormat <$> mTracks mixer_one_validated !! 1) = Some AUDIO_FORMAT_PCM_16_BIT
  /\ exists m,
      setParameter mixer_one_validated 1 TRACK MIXER_FORMAT
                   (mkValue AUDIO_FORMAT_PCM_FLOAT F32.zero) = Some m
      /\ (mMixerFormat <$> mTracks m !! 1) = Some AUDIO_FORMAT_PCM_FLOAT
      /\ mHook m = old /\ mHook m <> process__validate
      /\ (mHook ∘ fst <$> @process passthrough_ops (invalidate m, silence))
         = Some (process__noResampleOneTrack MIXTYPE_MULTI_SAVEONLY_STEREOVOL
                                             T_float T_float T_float)
      /\ exists m',
          setParameter mixer_one_validated 1 TRACK FORMAT
                       (mkValue AUDIO_FORMAT_PCM_FLOAT F32.zero) = Some m'
          /\ mHook m' = process__validate.
Proof.
  cbv zeta. split; [vm_compute; reflexivity |]. split; [vm_compute; reflexivity |].
  eexists. split; [vm_compute; reflexivity |].
  split; [vm_compute; reflexivity |]. split; [vm_compute; reflexivity |].
  split; [vm_compute; discriminate |]. split; [vm_compute; reflexivity |].
  eexists. split; vm_compute; reflexivity.
Qed.
